(* ===== verification/_CoqProject ===== *)
-Q . S2P
Prelude.v
Text.v
TimeFormat.v
Chunker.v
ChunkerInt.v
Codec.v
Embeddings.v
Store.v
Listing.v
Service.v
Tools.v
Config.v
Fetcher.v
Tests.v
System.v
Server.v
