(* ===== verification/Prelude.v ===== *)
(** * A verification development of mcp-document-search

    The program (Go, under src/) indexes text into overlapping chunks,
    attaches an embedding vector to each chunk and answers queries by
    ranking chunks by vector similarity.  It is built from the parts
    below, each calling the ones listed before it (the fetcher and the
    configuration apart, which feed the service and main.go; main.go
    builds all of them and starts the MCP server):

    - the chunker (src/internal/chunker/chunker.go: [NewChunker],
      [ChunkText], [findWordBoundary]) splits a text, seen as a list of
      Unicode code points, into overlapping windows cut at whitespace;
    - the embedding client (src/internal/storage/database.go, second
      file of the bundle, package embeddings: [Embed], [embedBatch])
      sends batches of at most 100 texts to the provider, retries on
      HTTP 429 and reassembles the vectors by their response index;
    - the store (src/internal/storage/database.go: [IndexDocument],
      [Search], [ListDocuments], [DeleteDocument], [DocumentExists],
      [serializeEmbedding], [deserializeEmbedding]) keeps two SQLite
      tables, documents and chunks, and answers top-K queries;
    - the service (src/internal/search/search.go: [Index], [Search],
      [List], [Delete]) composes the three parts above;
    - the tool handlers (src/pkg/server/tools.go) validate the requests
      of the MCP protocol and call the service;
    - the fetcher (src/internal/fetcher/fetcher.go) turns a URL into
      text, and the configuration (src/internal/config/config.go) reads
      the chunk size, overlap and keys from the environment;
    - the server (src/pkg/server/types.go: [NewServer],
      [registerTools]) registers the four handlers with the MCP SDK, and
      main.go wires configuration, database, client, chunker, fetcher,
      service and server together.

    ** Layout of the library

    - [Prelude] (this file): the Go slice and the result type with its
      bind, Go's 64-bit [int] ([int_min], [int_max], the wrap-around
      [wrap] and [add64]/[sub64]), the [go] hint database, the shared
      lemmas on slices, [Z.to_nat] and filters.
    - [Text]: code points, Go's [unicode.IsSpace], the UTF-8 encoding
      of a rune ([string(rs)] is [to_string]) and its length, what
      Go's [len] of a string counts.
    - [TimeFormat] (Module [TimeFormat], the [IndexedAt.Format] call of
      search.go): Go's [time.Format] for the layout
      ["2006-01-02 15:04:05"] written out: the proleptic Gregorian
      calendar by 400-year eras, then years and months ([locate]),
      [Time.Clock], and [appendInt] with its two- and four-digit fast
      paths.  Theorems: the layout on known dates (leap days, 1900,
      the ends of the range), and that on the years 0000 to 9999 the
      string order is the order of the instants.
    - [Chunker] (Module [Chunker], chunker.go): [NewChunker], the
      backward whitespace scan of [findWordBoundary], the chunking loop
      with fuel and [ChunkText]; the inductive [trace] of the runs that
      exit.  Theorems: the configuration invariant, the exact
      termination condition ([progress_ok]) with a text that hangs the
      loop otherwise, and the shape of the result (indices, offsets,
      word-boundary cuts, overlap, reconstruction of the text).
    - [ChunkerInt] (Module [ChunkerInt], chunker.go again): the loops
      of the chunker with every [+] and [-] in 64-bit wrap-around
      arithmetic; the theorem that they compute what [Chunker]
      computes on every text of fewer than [2^62] code points.
    - [Codec] (Module [Codec], database.go [serializeEmbedding],
      [deserializeEmbedding]): little-endian float32 blobs as bytes in
      [Z] with [Z.land]/[Z.shiftr]; the round trip, and what the
      decoder does with short and long blobs.
    - [Embeddings] (Module [Embeddings], the package embeddings bundled
      in database.go): [Embed] and [embedBatch] in a state monad over a
      provider/context oracle that records every request and wait; the
      batch loop by well-founded recursion (Equations).  Theorems: the
      refinement of the spec's order-preserving [embed] (batches of at
      most 100, 100 ms pauses), the shape of any successful result,
      that a 429 is never recovered from (the retry re-sends the
      request whose body the first [Do] drained, and fails after one
      wait of 1 s), no retry on other errors, and the rejected replies
      (missing index, wrong dimension, negative index that panics,
      cancelled pause).
    - [Store] (Module [Store], database.go [Database]): the two tables
      as row lists with their AUTOINCREMENT counters and the
      [foreign_keys] pragma; driver failures as a fault oracle;
      [IndexDocument] as a transaction that rolls back; an abstract
      view [abs : DB -> gmap string AbsDoc].  Theorems: the invariant
      [wf] kept by every operation, [IndexDocument] and
      [DeleteDocument] refine insert/delete on the view whatever fails,
      and the ranking of [Search] (order, limit, post-limit min score,
      prefix closure, no result from a deleted source even though the
      chunk rows stay).
    - [Listing] (Module [Listing], database.go [ListDocuments]): the
      query's result is the filtered view, each document once, newest
      first, or the query's error; this discharges the list law of the
      store interface.
    - [Service] (Module [Service], search.go): [Index], [Search],
      [List], [Delete] (taking their [ListRequest]/[DeleteRequest]
      records, as the handlers build them) against two interfaces, the classes [DocStore]/
      [DocStoreSpec] and [Embedder]/[EmbedderSpec], implemented by the
      instances [sqlite_store]/[sqlite_spec] (from [Store]) and
      [openai_embedder]/[openai_spec] (from [Embeddings]).  Theorems:
      [Index] refines "replace this source by these chunks" or changes
      nothing; a conflict is refused before any provider call; search
      and delete behaviour; [List] returns the filtered view with its
      [IndexedAt] strings newest first; and end to end, with the real
      store and client, indexing stores each chunk of the text with
      the embedding of its own text.
    - [Tools] (Module [Tools], tools.go): the four MCP handlers with
      their validation and defaults; theorems on the search defaults,
      on the agreement of the index handler with the service, and the
      refinement of the list tool against the store interface.
    - [Config] (Module [Config], config.go): [LoadConfig] over an
      environment function, with [strconv.Atoi] written out, and the
      [NewChunker] call of main.go.  Theorems: an accepted
      configuration reaches the chunker unchanged, and the chunker
      then terminates on every text exactly when
      [OVERLAP <= CHUNK_SIZE - min 100 CHUNK_SIZE], a bound the
      validation does not check.
    - [Fetcher] (Module [Fetcher], fetcher.go): [FetchURL] with its
      scheme, status and content-type checks, [isTextContent],
      [extractHTMLText] as a traversal of the parsed node tree, and
      [normalizeWhitespace] with [strings.Fields]/[Join]/[TrimSpace]
      written out; the URL parser, the HTTP client and the HTML parser
      are section variables.  Theorems: extraction keeps exactly the
      visible text in normal form, [isTextContent] reduces to its last
      test, a non-lower-case HTML type is returned raw.
    - [Tests] (Modules [ChunkerTests], [FetcherTests],
      [EmbeddingsTests], [StorageTests]): each Go test function of the
      repository as the boolean of its checks (the storage test's
      float32 products by binary32 rounding); all of them evaluate to
      [true].
    - [System] (Module [System]): the calls in flight over the shared
      store and embedder, a step relation in which an index call takes
      three atomic steps ([index_begin], [index_embed], [index_store]
      of [Service]) and a delete or search call one, and a scheduler
      [run] sound for it.  Theorems: every reachable state keeps the
      store invariant and shows no partially written document; a search run in any reachable
      state reads one version of each document (each item is a chunk
      of the one write the view holds for its source); every reachable
      blob keeps the size of a 1536-float vector; two index calls for
      the same new source can both succeed.  A [ChunkText] that never
      returns is a call that stutters forever in its embedding step.
      Some interleaving is infinite exactly when the chunker is beyond
      its bound: within it every action moves its call to a later
      phase ([pending_call] counts the actions left: three for an index
      call, one for a delete or a search), so the step relation is well
      founded (the measure argument of [Prelude.wf_measure]); beyond
      it the index call of the stalling text spins.  In the same way
      every state can be run until every call has returned exactly
      within the bound, and a state in which no call can move is one in
      which every call has returned.
    - [Server] (Module [Server], types.go and main.go): the tool table
      [registerTools], the SDK's [add_tool] and [call_tool], [Run];
      [main] up to [mcpServer.Run] with [NewDatabase] and the fetcher
      the service calls, then its run phase [serve]: Go's [defer]
      stack (the last deferred call runs first on [return]; [log.Fatalf]
      ends in [os.Exit], which runs none) and the [select] on the
      server's result or a signal, whichever the schedule delivers
      first ([wake]); [main_process] is the whole of [main]; the
      environment and data directory of the container image (the
      Dockerfile bundled after tools.go: [image_env], [image_dir]).
      Theorems: a started server hangs on some index call exactly when
      its accepted configuration exceeds the chunker's bound; a URL
      served as [TEXT/HTML] is stored as the chunks of its raw markup;
      the process closes the database exactly when it returns, last,
      and a server error exits with it open; the image's defaults give
      a chunker that returns on every text.

    ** What is left

    The cancellation of the fetcher's request by the caller's context
    is not modelled (the HTTP client is an oracle); when SQLite
    refuses a write under contention ([SQLITE_BUSY]) is left to the
    fault oracle of [Store], so no theorem says which of two
    concurrent writes fails.

    ** Fuel and bounds

    The chunking loop of [ChunkText] is a [for] loop whose progress is
    not guaranteed by the code; it is modelled with fuel and
    [ChunkText] runs it with [length text + 1] iterations, which is
    enough whenever the loop terminates at all
    ([Chunker.ChunkText_fuel_enough]: a run that exits never visits a
    start position twice, and there are [length text] of them); the
    termination theorem characterises exactly the configurations for
    which it terminates on every text, and [ChunkerHangs] is how the
    service sees the others.  The retry loop of [embedBatch] runs at
    most three attempts, so its recursion is bounded by the constant
    2 (the number of [continue]s); the batch loop of [Embed] is
    well-founded on [length texts - i].  Go [int] values are modelled
    as [Z]; [ChunkerInt.ChunkText_int64] proves this exact for the
    chunker on texts of fewer than [2^62] code points (every value the
    loop computes lies between [-100] and [2 * length text]), and the
    configuration values come from [strconv.Atoi], which rejects what
    does not fit an [int]; float32 values are their 32-bit patterns.
    Instants are whole seconds of UTC since 1970 (what the driver reads
    from SQLite's [CURRENT_TIMESTAMP]); [TimeFormat.civil] counts at
    most 400 years in an era and 12 months in a year, which is enough
    for every day, and the order theorem is stated on the years 0000
    to 9999, the range of SQLite's dates and of the four-digit year.

    ** Not modelled

    The MCP transport and JSON encoding (library I/O), the HTML parser
    used by the fetcher (golang.org/x/net/html: its tree is the input of
    [traverse]), SQLite's cosine distance (an abstract score function),
    [os.ReadFile] (an oracle of the service), the goroutine scheduler
    of the MCP library (the nondeterminism of [System.step]), clocks
    and sleeps (the waits are recorded events whose cancellation an
    oracle decides), the JSON body and the headers of the embeddings
    request (the provider oracle receives the batch of texts), the
    build stage of the Dockerfile (a compiler invocation, not
    behaviour of the program: the image is modelled only by the
    environment and directory [main] sees), the constructors
    [NewService] and [NewFetcher] and the [Close] methods of the
    database and the server ([Service.Sys] holds the store and the
    client, the chunker and the fetcher are section variables of the
    service, the fetcher's 30-second timeout belongs to its HTTP
    oracle, and the [Close] calls are the [action]s of [Server]'s
    [main_process], in the order they run), the text of
    error messages built by [fmt.Errorf]/[fmt.Sprintf] (errors are
    constructors naming the message), the stdio transport of the
    running server and the delivery of signals (the [select]'s wake-up
    is an input), [sqlite_vec.Auto] (the [vec_version_ok] oracle of
    [NewDatabase]), the log output, and the markdown guides bundled in
    src/unnamed/part_001, which hold no code of the program. *)

From stdpp Require Export base list options sets.
From Stdlib Require Export ZArith Lia.
From Stdlib Require Import Sorted Wellfounded Wf_nat.
From stdpp Require Import relations.

Declare Scope go_scope.
Delimit Scope go_scope with go.
Open Scope Z_scope.

(** ** Go slices [xs[i:j]] on [int] (here [Z]) indices *)

Definition slice {A} (xs : list A) (i j : Z) : list A :=
  take (Z.to_nat (j - i)) (drop (Z.to_nat i) xs).

Notation "xs .[ i : j ]" := (slice xs i j)
  (at level 1, i at level 99, j at level 99, format "xs .[ i : j ]") : go_scope.

Definition zlen {A} (xs : list A) : Z := Z.of_nat (length xs).

(** ** Go's [int] on a 64-bit target

    Go's [+] and [-] on [int] wrap around modulo [2^64]; [wrap] is that
    reduction into [[int_min, int_max]].  The models compute in [Z] and
    the file [ChunkerInt] shows where this is the same. *)

Definition int_min : Z := - 2 ^ 63.
Definition int_max : Z := 2 ^ 63 - 1.

Definition wrap (z : Z) : Z := (z + 2 ^ 63) mod 2 ^ 64 - 2 ^ 63.

(** [a + b] and [a - b] on Go [int]. *)
Definition add64 (a b : Z) : Z := wrap (a + b).
Definition sub64 (a b : Z) : Z := wrap (a - b).

(** ** Fallible Go calls: a value or an error *)

Inductive result (E A : Type) : Type :=
| Ok (a : A)
| Err (e : E).
Arguments Ok {E A} a.
Arguments Err {E A} e.

#[export] Instance result_ret {E} : MRet (result E) := fun _ a => Ok a.
#[export] Instance result_bind {E} : MBind (result E) :=
  fun _ _ f m => match m with Ok a => f a | Err e => Err e end.

Definition map_err {E1 E2 A} (f : E1 -> E2) (r : result E1 A) : result E2 A :=
  match r with Ok a => Ok a | Err e => Err (f e) end.

Definition is_ok {E A} (r : result E A) : bool :=
  match r with Ok _ => true | Err _ => false end.

Create HintDb go.
Create Rewrite HintDb go_rw.

(** ** Shared lemmas *)

Lemma zlen_nonneg {A} (xs : list A) : 0 <= zlen xs.
Proof. unfold zlen. lia. Qed.

Lemma zlen_app {A} (xs ys : list A) : zlen (xs ++ ys) = zlen xs + zlen ys.
Proof. unfold zlen. rewrite length_app. lia. Qed.

Lemma zlen_cons {A} (x : A) xs : zlen (x :: xs) = zlen xs + 1.
Proof. unfold zlen. simpl length. lia. Qed.

Lemma length_slice {A} (xs : list A) i j :
  0 <= i <= j -> j <= zlen xs -> zlen (xs.[i:j])%go = j - i.
Proof.
  intros Hij Hj. unfold slice, zlen in *.
  rewrite length_take, length_drop. lia.
Qed.

Lemma slice_app {A} (xs : list A) i j k :
  0 <= i <= j -> j <= k ->
  (xs.[i:j] ++ xs.[j:k])%go = (xs.[i:k])%go.
Proof.
  intros Hij Hjk. unfold slice.
  replace (Z.to_nat j) with (Z.to_nat i + Z.to_nat (j - i))%nat by lia.
  rewrite <- drop_drop.
  replace (Z.to_nat (k - i)) with (Z.to_nat (j - i) + Z.to_nat (k - j))%nat by lia.
  rewrite take_take_drop. reflexivity.
Qed.

Lemma slice_full {A} (xs : list A) : (xs.[0:zlen xs])%go = xs.
Proof.
  unfold slice, zlen. rewrite drop_0, Z.sub_0_r, Nat2Z.id. apply take_ge. lia.
Qed.

Lemma drop_slice {A} (xs : list A) i j k :
  0 <= i <= j -> j <= k ->
  drop (Z.to_nat (j - i)) (xs.[i:k])%go = (xs.[j:k])%go.
Proof.
  intros Hij Hjk. unfold slice.
  rewrite skipn_firstn_comm, drop_drop.
  replace (Z.to_nat (k - i) - Z.to_nat (j - i))%nat with (Z.to_nat (k - j)) by lia.
  f_equal. f_equal. lia.
Qed.

Lemma lookup_slice {A} (xs : list A) i j n :
  0 <= i -> (Z.to_nat n < Z.to_nat (j - i))%nat -> 0 <= n ->
  (xs.[i:j])%go !! Z.to_nat n = xs !! Z.to_nat (i + n).
Proof.
  intros Hi Hn H0. unfold slice.
  rewrite lookup_take, lookup_drop, Z2Nat.inj_add by lia. case_decide; [reflexivity | lia].
Qed.

Lemma Forall_filter_sub {A} (P Q : A -> Prop) `{forall x, Decision (P x)} (l : list A) :
  Forall Q l -> Forall Q (filter P l).
Proof.
  induction 1 as [|x l Hx Hl IH]; [constructor |].
  rewrite filter_cons. case_decide; [constructor |]; assumption.
Qed.

Lemma filter_none {A} (P : A -> Prop) `{forall x, Decision (P x)} (l : list A) :
  (forall x, x ∈ l -> ~ P x) -> filter P l = [].
Proof.
  induction l as [|x l IH]; intros Hn; [reflexivity |].
  rewrite filter_cons. rewrite decide_False by (apply Hn; set_solver).
  apply IH. intros y Hy. apply Hn. set_solver.
Qed.

Lemma filter_all {A} (P : A -> Prop) `{forall x, Decision (P x)} (l : list A) :
  (forall x, x ∈ l -> P x) -> filter P l = l.
Proof.
  induction l as [|x l IH]; intros Ha; [reflexivity |].
  rewrite filter_cons. rewrite decide_True by (apply Ha; set_solver).
  f_equal. apply IH. intros y Hy. apply Ha. set_solver.
Qed.

(** Go's loops over a slice build it with [map]; stdpp's list lemmas
    speak of [fmap]. *)
Lemma map_fmap {A B} (f : A -> B) (l : list A) : map f l = f <$> l.
Proof. induction l as [|x l IH]; simpl; [reflexivity | by rewrite IH]. Qed.

(** A sorted list stays sorted under a map that is monotone on its
    elements. *)
Lemma StronglySorted_map_in {A B} (R : A -> A -> Prop) (R' : B -> B -> Prop) (P : A -> Prop)
    (f : A -> B) (l : list A) :
  (forall x y, P x -> P y -> R x y -> R' (f x) (f y)) -> Forall P l -> StronglySorted R l ->
  StronglySorted R' (map f l).
Proof.
  intros Hf Hp Hs. revert Hp. induction Hs as [|x l Hs IH Hx]; intros Hp; simpl; constructor;
    pose proof (Forall_inv Hp) as Px; pose proof (Forall_inv_tail Hp) as Pl; [exact (IH Pl) |].
  rewrite List.Forall_forall in Pl, Hx |- *. intros y Hy.
  apply in_map_iff in Hy as (z & <- & Hz).
  apply Hf; [exact Px | exact (Pl z Hz) | exact (Hx z Hz)].
Qed.

(** Replacing one counter of a list changes their sum by the
    difference. *)
Lemma sum_list_insert (l : list nat) i x y :
  l !! i = Some x -> (sum_list (<[i := y]> l) + x = sum_list l + y)%nat.
Proof.
  revert i. induction l as [|z l IH]; intros [|i] Hi; simpl in *; try discriminate.
  - injection Hi as ->. lia.
  - specialize (IH i Hi). lia.
Qed.

(** A step relation that strictly decreases a measure has no infinite
    run, and a run of [n] steps spends at least [n] of the measure. *)
Section Measure.
Context {A : Type} (R : A -> A -> Prop) (m : A -> nat).
Hypothesis R_decr : forall a b, R a b -> (m b < m a)%nat.

Lemma wf_measure : well_founded (fun b a => R a b).
Proof using R_decr. apply (wf_incl _ _ (ltof A m)); [intros b a H; exact (R_decr a b H) | apply well_founded_ltof]. Qed.

Lemma nsteps_measure n a b : nsteps R n a b -> (n + m b <= m a)%nat.
Proof using R_decr.
  induction 1 as [a|n a a' b H _ IH]; [lia |]. pose proof (R_decr a a' H). lia.
Qed.
End Measure.

Lemma wrap_small z : int_min <= z <= int_max -> wrap z = z.
Proof.
  unfold wrap, int_min, int_max. intros Hz.
  rewrite Z.mod_small by lia. lia.
Qed.

Lemma add64_small a b : int_min <= a + b <= int_max -> add64 a b = a + b.
Proof. apply wrap_small. Qed.

Lemma sub64_small a b : int_min <= a - b <= int_max -> sub64 a b = a - b.
Proof. apply wrap_small. Qed.

#[export] Hint Resolve zlen_nonneg : go.
#[export] Hint Rewrite @zlen_app @zlen_cons : go_rw.

(** Case analysis on the boolean tests of [Z] that the models branch on. *)
Ltac z_cases :=
  repeat match goal with
  | |- context [Z.ltb ?a ?b] => destruct (Z.ltb_spec a b)
  | |- context [Z.leb ?a ?b] => destruct (Z.leb_spec a b)
  | |- context [Z.eqb ?a ?b] => destruct (Z.eqb_spec a b)
  | H : context [Z.ltb ?a ?b] |- _ => destruct (Z.ltb_spec a b)
  | H : context [Z.leb ?a ?b] |- _ => destruct (Z.leb_spec a b)
  | H : context [Z.eqb ?a ?b] |- _ => destruct (Z.eqb_spec a b)
  end.
