(* ===== verification/Text.v ===== *)
(** * Text: code points as the Go code sees them

    [[]rune(text)] turns a Go string into its code points; the chunker
    works on that list.  This file models the two pieces of the Go
    standard library the program relies on for text: [unicode.IsSpace]
    (the whitespace test of the chunker) and the UTF-8 length of an
    encoded rune, which is what [len] of a Go string counts (the
    [content_size] column of the store).  [of_ascii] builds rune lists
    from ASCII literals for the concrete examples. *)

From Stdlib Require Import Ascii String.
From S2P Require Import Prelude.
Export String.StringSyntax.

Delimit Scope string_scope with string.

Definition rune := Z.

(** Go's [unicode.IsSpace]: the Latin-1 cases of its switch, then the
    [White_Space] table above Latin-1 (a negative rune is above
    [MaxLatin1] as a [uint32] and in no range of the table). *)
Definition is_space (r : rune) : bool :=
  if (0 <=? r) && (r <=? 255) then
    (r =? 9) || (r =? 10) || (r =? 11) || (r =? 12) || (r =? 13)
    || (r =? 32) || (r =? 133) || (r =? 160)
  else
    (r =? 5760) || ((8192 <=? r) && (r <=? 8202)) || (r =? 8232) || (r =? 8233)
    || (r =? 8239) || (r =? 8287) || (r =? 12288).

(** Bytes of [string(r)]: invalid runes (negative, surrogates, above
    U+10FFFF) are written as U+FFFD, three bytes. *)
Definition utf8_len (r : rune) : Z :=
  if r <? 0 then 3
  else if r <? 128 then 1
  else if r <? 2048 then 2
  else if (55296 <=? r) && (r <=? 57343) then 3
  else if r <? 65536 then 3
  else if r <=? 1114111 then 4
  else 3.

(** [len(string(rs))]. *)
Definition str_len (rs : list rune) : Z := fold_right (fun r n => utf8_len r + n) 0 rs.

(** The bytes of [string(r)]: UTF-8, with an invalid rune written as
    U+FFFD. *)
Definition utf8_encode (r : rune) : list Z :=
  let r := if (r <? 0) || ((55296 <=? r) && (r <=? 57343)) || (1114111 <? r) then 65533 else r in
  if r <? 128 then [r]
  else if r <? 2048 then [192 + r / 64; 128 + r mod 64]
  else if r <? 65536 then [224 + r / 4096; 128 + (r / 64) mod 64; 128 + r mod 64]
  else [240 + r / 262144; 128 + (r / 4096) mod 64; 128 + (r / 64) mod 64; 128 + r mod 64].

(** [string(rs)] for a [[]rune]: the Go string, as its bytes. *)
Definition to_string (rs : list rune) : string :=
  string_of_list_ascii (map (fun b => ascii_of_N (Z.to_N b)) (List.concat (map utf8_encode rs))).

Definition of_ascii (s : string) : list rune :=
  map (fun a => Z.of_nat (nat_of_ascii a)) (list_ascii_of_string s).

Definition space : rune := 32.

Lemma utf8_len_bounds r : 1 <= utf8_len r <= 4.
Proof. unfold utf8_len. z_cases; simpl; try lia; destruct (_ && _); lia. Qed.

Lemma str_len_app xs ys : str_len (xs ++ ys) = str_len xs + str_len ys.
Proof. induction xs as [|x xs IH]; simpl; [lia | rewrite IH; lia]. Qed.

(** Every rune takes at least one byte, so [len] never undercounts the
    code points. *)
Lemma str_len_ge_zlen rs : zlen rs <= str_len rs.
Proof.
  induction rs as [|r rs IH]; [reflexivity |].
  rewrite zlen_cons. simpl. pose proof (utf8_len_bounds r). lia.
Qed.

Lemma length_utf8_encode r : zlen (utf8_encode r) = utf8_len r.
Proof.
  unfold utf8_encode, utf8_len.
  destruct (Z.ltb_spec r 0); [reflexivity |].
  destruct (Z.leb_spec 55296 r), (Z.leb_spec r 57343), (Z.ltb_spec 1114111 r); simpl;
    z_cases; try reflexivity; lia.
Qed.

Lemma length_string_of_list_ascii l : String.length (string_of_list_ascii l) = length l.
Proof. induction l as [|a l IH]; simpl; congruence. Qed.

(** [len(string(rs))] is [str_len rs]. *)
Lemma length_to_string rs : Z.of_nat (String.length (to_string rs)) = str_len rs.
Proof.
  unfold to_string. rewrite length_string_of_list_ascii, length_map.
  induction rs as [|r rs IH]; [reflexivity |].
  simpl. rewrite length_app, Nat2Z.inj_add, IH, <- length_utf8_encode. reflexivity.
Qed.

#[export] Hint Rewrite str_len_app : go_rw.
