(* ===== verification/TimeFormat.v ===== *)
(** * TimeFormat: [IndexedAt.Format("2006-01-02 15:04:05")] of search.go

    [Service.List] reports the [indexed_at] of a document as the string
    Go's [time.Time.Format] builds for the layout
    ["2006-01-02 15:04:05"].  The time is the one the driver scanned
    from SQLite's [CURRENT_TIMESTAMP], a UTC instant with whole seconds:
    here a number of seconds since 1970-01-01 00:00:00 UTC.  The
    library's behaviour is written out:

    - the proleptic Gregorian calendar ([isLeap], [daysIn] of the time
      package), with the date of a day found by counting whole years
      from 0000-01-01 and then whole months ([locate]), which is what
      Go's [absDate] computes in closed form;
    - the clock of the day ([Time.Clock]: [hour], [min], [sec] by
      division);
    - [appendInt] of time/format.go, with its fast paths for 2 and 4
      digits, which the layout's fields use.

    The theorem [Format_lt] shows that on the years 0000 to 9999 (the
    range of SQLite's date functions) [Format] is an order embedding: a
    later instant gives a string greater in Go's byte-wise comparison.
    So the strings of the list tool are ordered as the timestamps are,
    and distinct instants are told apart. *)

From Stdlib Require Import Ascii String.
From S2P Require Import Prelude.
Open Scope Z_scope.

Module TimeFormat.

(** ** The calendar *)

(** [isLeap]. *)
Definition isLeap (year : Z) : bool :=
  (year mod 4 =? 0) && (negb (year mod 100 =? 0) || (year mod 400 =? 0)).

(** [daysIn]: the length of [month] in [year]. *)
Definition daysIn (month year : Z) : Z :=
  if month =? 2 then (if isLeap year then 29 else 28)
  else if (month =? 4) || (month =? 6) || (month =? 9) || (month =? 11) then 30 else 31.

Definition daysInYear (year : Z) : Z := if isLeap year then 366 else 365.

(** The unit [z] falls in, counting units of sizes [size k],
    [size (k + 1)], ... from [k], and the offset of [z] in it. *)
Fixpoint locate (size : Z -> Z) (fuel : nat) (k z : Z) : Z * Z :=
  match fuel with
  | O => (k, z)
  | S f => if z <? size k then (k, z) else locate size f (k + 1) (z - size k)
  end.

(** The number of days [locate] can place with [fuel] units. *)
Fixpoint span (size : Z -> Z) (fuel : nat) (k : Z) : Z :=
  match fuel with
  | O => 0
  | S f => size k + span size f (k + 1)
  end.

(** Every 400 years of the calendar have 146097 days. *)
Definition daysPer400Years : Z := 146097.

(** The date of a day, counted from 0000-01-01 (day 0): the whole
    400-year eras before it, the year of its era, then the month in the
    year and the day of the month from 1. *)
Definition civil (days : Z) : Z * Z * Z :=
  let era := days / daysPer400Years in
  let '(yoe, yday) := locate daysInYear 400 0 (days mod daysPer400Years) in
  let year := 400 * era + yoe in
  let '(month, mday) := locate (fun m => daysIn m year) 12 1 yday in
  (year, month, mday + 1).

(** 1970-01-01 is day 719528. *)
Definition unixToInternalDays : Z := 719528.

Definition secondsPerDay : Z := 86400.

(** [Time.Clock]: [sec := abs % secondsPerDay], then hours and minutes
    taken off by division. *)
Definition clock (t : Z) : Z * Z * Z :=
  let sec := t mod secondsPerDay in
  let hour := sec / 3600 in
  let sec := sec - hour * 3600 in
  let min := sec / 60 in
  let sec := sec - min * 60 in
  (hour, min, sec).

(** ** [appendInt] *)

(** [utod]: the digit [u] as a byte. *)
Definition utod (u : Z) : ascii := ascii_of_N (48 + Z.to_N u).

(** The decimal digits of [u], most significant first (at most 20 for
    a [uint]). *)
Fixpoint decimal (fuel : nat) (u : Z) : string :=
  match fuel with
  | O => EmptyString
  | S f => if u <? 10 then String (utod u) EmptyString
           else (decimal f (u / 10) ++ String (utod (u mod 10)) EmptyString)%string
  end.

Fixpoint zeros (n : nat) : string :=
  match n with O => EmptyString | S n => String "0"%char (zeros n) end.

(** [appendInt(b, x, width)]: a sign, then [u = |x|] on [width] digits
    at least, with the fast paths for two and four digits. *)
Definition appendInt (x width : Z) : string :=
  let sign := if x <? 0 then "-"%string else EmptyString in
  let u := Z.abs x in
  let digits :=
    if (width =? 2) && (u <? 100) then String (utod (u / 10)) (String (utod (u mod 10)) EmptyString)
    else if (width =? 4) && (u <? 10000) then
      String (utod (u / 1000)) (String (utod (u / 100 mod 10))
        (String (utod (u / 10 mod 10)) (String (utod (u mod 10)) EmptyString)))
    else let ds := decimal 20 u in
         String.append (zeros (Z.to_nat (width - Z.of_nat (String.length ds)))) ds in
  String.append sign digits.

(** [Format("2006-01-02 15:04:05")] of the instant [t]. *)
Definition Format (t : Z) : string :=
  let '(year, month, day) := civil (t / secondsPerDay + unixToInternalDays) in
  let '(hour, min, sec) := clock t in
  (appendInt year 4 ++ "-" ++ appendInt month 2 ++ "-" ++ appendInt day 2 ++ " " ++
   appendInt hour 2 ++ ":" ++ appendInt min 2 ++ ":" ++ appendInt sec 2)%string.

(** The instants of the years 0000 to 9999: from 0000-01-01 00:00:00
    to 9999-12-31 23:59:59 UTC. *)
Definition min_time : Z := -62167219200.
Definition max_time : Z := 253402300800.

(** Lexicographic composition of comparisons. *)
Definition lex (c k : comparison) : comparison := match c with Eq => k | _ => c end.

(** ** Lemmas *)

Lemma lex_assoc c1 c2 k : lex (lex c1 c2) k = lex c1 (lex c2 k).
Proof. by destruct c1. Qed.

Lemma lex_Eq k : lex Eq k = k.
Proof. reflexivity. Qed.

Lemma lex_Lt k : lex Lt k = Lt.
Proof. reflexivity. Qed.

Lemma lex_split a b c d e f :
  lex a (lex b (lex c (lex d (lex e f)))) = lex (lex a (lex b c)) (lex d (lex e f)).
Proof. by destruct a, b, c. Qed.

(** Comparing two naturals is comparing their quotients, then their
    remainders. *)
Lemma compare_div_mod a b n :
  0 < n -> Z.compare a b = lex (Z.compare (a / n) (b / n)) (Z.compare (a mod n) (b mod n)).
Proof.
  intros Hn. pose proof (Z.div_mod a n ltac:(lia)). pose proof (Z.div_mod b n ltac:(lia)).
  pose proof (Z.mod_pos_bound a n Hn). pose proof (Z.mod_pos_bound b n Hn).
  destruct (Z.compare_spec (a / n) (b / n)); simpl.
  - destruct (Z.compare_spec (a mod n) (b mod n)); apply Z.compare_eq_iff || apply Z.compare_lt_iff
      || apply Z.compare_gt_iff; nia.
  - apply Z.compare_lt_iff. nia.
  - apply Z.compare_gt_iff. nia.
Qed.

Lemma utod_compare a b :
  0 <= a < 10 -> 0 <= b < 10 -> Ascii.compare (utod a) (utod b) = Z.compare a b.
Proof.
  intros Ha Hb. unfold Ascii.compare, utod.
  rewrite !N_ascii_embedding by lia. rewrite <- N2Z.inj_compare, !N2Z.inj_add, !Z2N.id by lia.
  apply Z.add_compare_mono_l.
Qed.

Definition two (u : Z) (s : string) : string := String (utod (u / 10)) (String (utod (u mod 10)) s).

Lemma two_compare a b s1 s2 :
  0 <= a < 100 -> 0 <= b < 100 ->
  String.compare (two a s1) (two b s2) = lex (Z.compare a b) (String.compare s1 s2).
Proof.
  intros Ha Hb. unfold two. simpl.
  pose proof (Z.mod_pos_bound a 10 ltac:(lia)). pose proof (Z.mod_pos_bound b 10 ltac:(lia)).
  assert (Hq : forall u, 0 <= u < 100 -> 0 <= u / 10 < 10)
    by (intros u Hu; split; [apply Z.div_pos | apply Z.div_lt_upper_bound]; lia).
  rewrite (utod_compare (a / 10) (b / 10)), (utod_compare (a mod 10) (b mod 10)) by auto.
  rewrite (compare_div_mod a b 10) by lia.
  destruct (Z.compare (a / 10) (b / 10)); [| reflexivity | reflexivity].
  simpl. destruct (Z.compare (a mod 10) (b mod 10)); reflexivity.
Qed.

Lemma div_mod_100 u :
  0 <= u -> u / 100 / 10 = u / 1000 /\ u mod 100 / 10 = u / 10 mod 10 /\ u mod 100 mod 10 = u mod 10.
Proof.
  intros Hu.
  pose proof (Z.div_mod u 10 ltac:(lia)). pose proof (Z.mod_pos_bound u 10 ltac:(lia)).
  pose proof (Z.div_mod (u / 10) 10 ltac:(lia)). pose proof (Z.mod_pos_bound (u / 10) 10 ltac:(lia)).
  assert (H100 : u mod 100 = 10 * (u / 10 mod 10) + u mod 10)
    by (symmetry; apply Z.mod_unique with (q := u / 10 / 10); lia).
  assert (Hd : u / 100 = u / 10 / 10)
    by (symmetry; apply Z.div_unique with (r := 10 * (u / 10 mod 10) + u mod 10); lia).
  split; [| split].
  - rewrite Hd, !Z.div_div by lia. reflexivity.
  - rewrite H100. symmetry. apply Z.div_unique with (r := u mod 10); lia.
  - rewrite H100. symmetry. apply Z.mod_unique with (q := u / 10 mod 10); lia.
Qed.

(** The two fast paths of [appendInt]. *)
Lemma appendInt_2 u : 0 <= u < 100 -> appendInt u 2 = two u EmptyString.
Proof.
  intros Hu. unfold appendInt.
  replace (u <? 0) with false by (symmetry; apply Z.ltb_ge; lia). rewrite Z.abs_eq by lia.
  replace (u <? 100) with true by (symmetry; apply Z.ltb_lt; lia). reflexivity.
Qed.

Lemma appendInt_4 u : 0 <= u < 10000 -> appendInt u 4 = two (u / 100) (two (u mod 100) EmptyString).
Proof.
  intros Hu. unfold appendInt.
  replace (u <? 0) with false by (symmetry; apply Z.ltb_ge; lia). rewrite Z.abs_eq by lia.
  replace (u <? 10000) with true by (symmetry; apply Z.ltb_lt; lia).
  destruct (div_mod_100 u ltac:(lia)) as (E1 & E2 & E3). unfold two. rewrite E1, E2, E3. reflexivity.
Qed.

(** The layout's string on in-range fields. *)
Definition render (year month day hour min sec : Z) : string :=
  two (year / 100) (two (year mod 100) (String "-" (two month (String "-" (two day (String " "
    (two hour (String ":" (two min (String ":" (two sec EmptyString))))))))))).

Lemma string_compare_refl s : String.compare s s = Eq.
Proof. induction s as [|c s IH]; simpl; [reflexivity |]. unfold Ascii.compare. by rewrite N.compare_refl. Qed.

Lemma sep_compare c s1 s2 : String.compare (String c s1) (String c s2) = String.compare s1 s2.
Proof. simpl. unfold Ascii.compare. by rewrite N.compare_refl. Qed.

Lemma digits2 u : 0 <= u < 10000 -> 0 <= u / 100 < 100 /\ 0 <= u mod 100 < 100.
Proof.
  intros Hu. split; [split; [apply Z.div_pos | apply Z.div_lt_upper_bound] | apply Z.mod_pos_bound]; lia.
Qed.

(** Comparing two rendered strings is comparing their fields in
    order. *)
Lemma render_compare y1 mo1 d1 h1 mi1 s1 y2 mo2 d2 h2 mi2 s2 :
  0 <= y1 < 10000 -> 0 <= y2 < 10000 ->
  Forall (fun u => 0 <= u < 100) [mo1; d1; h1; mi1; s1; mo2; d2; h2; mi2; s2] ->
  String.compare (render y1 mo1 d1 h1 mi1 s1) (render y2 mo2 d2 h2 mi2 s2) =
  lex (Z.compare y1 y2) (lex (Z.compare mo1 mo2) (lex (Z.compare d1 d2)
    (lex (Z.compare h1 h2) (lex (Z.compare mi1 mi2) (Z.compare s1 s2))))).
Proof.
  intros Hy1 Hy2 Hf. repeat (apply Forall_cons in Hf as [? Hf]).
  destruct (digits2 y1 Hy1), (digits2 y2 Hy2). unfold render.
  repeat first [rewrite two_compare by assumption | rewrite sep_compare].
  rewrite (compare_div_mod y1 y2 100), lex_assoc by lia.
  destruct (Z.compare s1 s2); reflexivity.
Qed.

(** ** The calendar is monotone *)

Section Locate.
Variable size : Z -> Z.

Lemma locate_bounds fuel k z :
  0 <= z < span size fuel k ->
  k <= fst (locate size fuel k z) < k + Z.of_nat fuel /\
  0 <= snd (locate size fuel k z) < size (fst (locate size fuel k z)).
Proof.
  revert k z. induction fuel as [|f IH]; intros k z Hz; simpl in *; [lia |].
  destruct (Z.ltb_spec z (size k)); simpl; [lia |].
  destruct (IH (k + 1) (z - size k)) as [Hk Hr]; [lia |]. split; [lia | exact Hr].
Qed.

(** A later day falls in a later unit, or later in the same one. *)
Lemma locate_mono fuel k z1 z2 :
  0 <= z1 < z2 -> z2 < span size fuel k ->
  fst (locate size fuel k z1) < fst (locate size fuel k z2) \/
  (fst (locate size fuel k z1) = fst (locate size fuel k z2) /\
   snd (locate size fuel k z1) < snd (locate size fuel k z2)).
Proof.
  revert k z1 z2. induction fuel as [|f IH]; intros k z1 z2 Hz Hs; simpl in *; [lia |].
  destruct (Z.ltb_spec z2 (size k)).
  - rewrite (proj2 (Z.ltb_lt z1 (size k))) by lia. simpl. lia.
  - destruct (Z.ltb_spec z1 (size k)); simpl.
    + left. pose proof (locate_bounds f (k + 1) (z2 - size k) ltac:(lia)). lia.
    + apply IH; lia.
Qed.

End Locate.

Lemma daysIn_range m y : 28 <= daysIn m y <= 31.
Proof. unfold daysIn. repeat case_match; lia. Qed.

(** The twelve months make the year. *)
Lemma span_months y : span (fun m => daysIn m y) 12 1 = daysInYear y.
Proof. unfold daysInYear. simpl. unfold daysIn. simpl. destruct (isLeap y); reflexivity. Qed.

(** The 400 years of an era have [daysPer400Years] days. *)
Lemma span_era : span daysInYear 400 0 = daysPer400Years.
Proof. vm_compute. reflexivity. Qed.

(** The calendar repeats every 400 years. *)
Lemma isLeap_era e k : isLeap (400 * e + k) = isLeap k.
Proof.
  unfold isLeap.
  replace (400 * e + k) with (k + (100 * e) * 4) by ring. rewrite Z.mod_add by lia.
  replace (k + (100 * e) * 4) with (k + (4 * e) * 100) by ring. rewrite Z.mod_add by lia.
  replace (k + (4 * e) * 100) with (k + e * 400) by ring. rewrite Z.mod_add by lia.
  reflexivity.
Qed.

Lemma daysInYear_era e k : daysInYear (400 * e + k) = daysInYear k.
Proof. unfold daysInYear. by rewrite isLeap_era. Qed.

(** [civil], with its steps named. *)
Definition era_of (days : Z) : Z * Z := locate daysInYear 400 0 (days mod daysPer400Years).
Definition year_of (days : Z) : Z := 400 * (days / daysPer400Years) + fst (era_of days).
Definition month_of (days : Z) : Z * Z := locate (fun m => daysIn m (year_of days)) 12 1 (snd (era_of days)).

Lemma civil_eq days : civil days = (year_of days, fst (month_of days), snd (month_of days) + 1).
Proof.
  unfold civil, month_of, year_of, era_of.
  destruct (locate daysInYear _ _ _). destruct (locate _ _ _ _). reflexivity.
Qed.

Lemma era_bounds days :
  0 <= fst (era_of days) < 400 /\ 0 <= snd (era_of days) < daysInYear (year_of days).
Proof.
  pose proof (Z.mod_pos_bound days daysPer400Years ltac:(unfold daysPer400Years; lia)).
  destruct (locate_bounds daysInYear 400 0 (days mod daysPer400Years)) as [Hy Hr]; [rewrite span_era; lia |].
  change (Z.of_nat 400) with 400 in Hy.
  unfold year_of, era_of. rewrite daysInYear_era. split; [lia | exact Hr].
Qed.

Lemma month_bounds days : 1 <= fst (month_of days) <= 12 /\ 0 <= snd (month_of days) < 31.
Proof.
  destruct (era_bounds days) as [_ Hr].
  destruct (locate_bounds (fun m => daysIn m (year_of days)) 12 1 (snd (era_of days))) as [Hm Hr'];
    [rewrite span_months; exact Hr |].
  cbv beta in Hr'. change (Z.of_nat 12) with 12 in Hm. unfold month_of.
  pose proof (daysIn_range (fst (locate (fun m => daysIn m (year_of days)) 12 1 (snd (era_of days))))
                (year_of days)). lia.
Qed.

(** The days of the years 0000 to 9999: 25 eras. *)
Definition civil_days : Z := 25 * daysPer400Years.

Definition date_ok (c : Z * Z * Z) : Prop :=
  0 <= c.1.1 < 10000 /\ 1 <= c.1.2 <= 12 /\ 1 <= c.2 <= 31.

Lemma civil_bounds days : 0 <= days < civil_days -> date_ok (civil days).
Proof.
  intros Hd. rewrite civil_eq. unfold date_ok, civil_days in *. cbn [fst snd].
  destruct (era_bounds days) as [Hy _]. pose proof (month_bounds days).
  assert (0 <= days / daysPer400Years < 25)
    by (unfold daysPer400Years in *; split; [apply Z.div_pos | apply Z.div_lt_upper_bound]; lia).
  unfold year_of. lia.
Qed.

Lemma era_div_pos : 0 < daysPer400Years.
Proof. unfold daysPer400Years. lia. Qed.

(** A later era has later years. *)
Lemma year_of_era_lt d1 d2 :
  d1 / daysPer400Years < d2 / daysPer400Years -> year_of d1 < year_of d2.
Proof.
  intros He. pose proof (era_bounds d1) as [Hy1 _]. pose proof (era_bounds d2) as [Hy2 _].
  unfold year_of. lia.
Qed.

(** In one era, a later day is in a later year or later in the year. *)
Lemma year_of_same_era d1 d2 :
  d1 / daysPer400Years = d2 / daysPer400Years -> d1 mod daysPer400Years < d2 mod daysPer400Years ->
  year_of d1 < year_of d2 \/ (year_of d1 = year_of d2 /\ snd (era_of d1) < snd (era_of d2)).
Proof.
  intros He Hm. pose proof (Z.mod_pos_bound d1 daysPer400Years era_div_pos).
  pose proof (Z.mod_pos_bound d2 daysPer400Years era_div_pos).
  destruct (locate_mono daysInYear 400 0 (d1 mod daysPer400Years) (d2 mod daysPer400Years))
    as [Hy | [Hy Hr]]; [lia | rewrite span_era; lia | |]; unfold year_of, era_of; [left | right]; lia.
Qed.

(** In one year, a later day of the year has a later month, or a later
    day in the same month. *)
Lemma month_of_mono d1 d2 :
  year_of d1 = year_of d2 -> snd (era_of d1) < snd (era_of d2) ->
  lex (Z.compare (fst (month_of d1)) (fst (month_of d2)))
      (Z.compare (snd (month_of d1) + 1) (snd (month_of d2) + 1)) = Lt.
Proof.
  intros Hy Hr. pose proof (era_bounds d1) as [_ Hr1]. pose proof (era_bounds d2) as [_ Hr2].
  unfold month_of. rewrite Hy.
  destruct (locate_mono (fun m => daysIn m (year_of d2)) 12 1 (snd (era_of d1)) (snd (era_of d2)))
    as [Hm | [Hm Hdd]]; [lia | rewrite span_months; lia | |].
  - rewrite (proj2 (Z.compare_lt_iff _ _) Hm). apply lex_Lt.
  - rewrite Hm, Z.compare_refl, lex_Eq. apply Z.compare_lt_iff. lia.
Qed.

(** A later day has a later date, in the order year, month, day. *)
Lemma civil_mono d1 d2 :
  d1 < d2 ->
  lex (Z.compare (civil d1).1.1 (civil d2).1.1)
      (lex (Z.compare (civil d1).1.2 (civil d2).1.2) (Z.compare (civil d1).2 (civil d2).2)) = Lt.
Proof.
  intros Hd. rewrite !civil_eq. cbn [fst snd].
  assert (Hc : Z.compare d1 d2 = Lt) by (apply Z.compare_lt_iff; exact Hd).
  rewrite (compare_div_mod d1 d2 daysPer400Years era_div_pos) in Hc.
  destruct (Z.compare (d1 / daysPer400Years) (d2 / daysPer400Years)) eqn:He;
    [rewrite lex_Eq in Hc | | discriminate].
  - rewrite Z.compare_eq_iff in He. rewrite Z.compare_lt_iff in Hc.
    destruct (year_of_same_era d1 d2 He Hc) as [Hy | [Hy Hr]].
    + rewrite (proj2 (Z.compare_lt_iff _ _) Hy). apply lex_Lt.
    + rewrite Hy, Z.compare_refl, lex_Eq. exact (month_of_mono d1 d2 Hy Hr).
  - rewrite Z.compare_lt_iff in He.
    rewrite (proj2 (Z.compare_lt_iff _ _) (year_of_era_lt d1 d2 He)). apply lex_Lt.
Qed.

Definition clock_ok (c : Z * Z * Z) : Prop := 0 <= c.1.1 < 24 /\ 0 <= c.1.2 < 60 /\ 0 <= c.2 < 60.

Lemma clock_bounds t : clock_ok (clock t).
Proof.
  unfold clock_ok, clock, secondsPerDay. simpl.
  pose proof (Z.mod_pos_bound t 86400 ltac:(lia)).
  pose proof (Z.div_mod (t mod 86400) 3600 ltac:(lia)). pose proof (Z.mod_pos_bound (t mod 86400) 3600 ltac:(lia)).
  set (r := t mod 86400 - t mod 86400 / 3600 * 3600).
  assert (0 <= r < 3600) by (subst r; lia).
  pose proof (Z.div_mod r 60 ltac:(lia)). pose proof (Z.mod_pos_bound r 60 ltac:(lia)).
  split; [split; [apply Z.div_pos | apply Z.div_lt_upper_bound]; lia |].
  split; [split; [apply Z.div_pos | apply Z.div_lt_upper_bound]; lia | lia].
Qed.

(** The clock is ordered as the seconds of the day. *)
Lemma clock_compare t1 t2 :
  lex (Z.compare (clock t1).1.1 (clock t2).1.1)
      (lex (Z.compare (clock t1).1.2 (clock t2).1.2) (Z.compare (clock t1).2 (clock t2).2)) =
  Z.compare (t1 mod secondsPerDay) (t2 mod secondsPerDay).
Proof.
  unfold clock. simpl.
  assert (Hm : forall a n, 0 < n -> a - a / n * n = a mod n)
    by (intros a n Hn; pose proof (Z.div_mod a n ltac:(lia)); lia).
  rewrite !Hm by lia.
  rewrite (compare_div_mod (t1 mod secondsPerDay) (t2 mod secondsPerDay) 3600) by lia.
  rewrite (compare_div_mod (t1 mod secondsPerDay mod 3600) (t2 mod secondsPerDay mod 3600) 60) by lia.
  reflexivity.
Qed.

(** The day of an instant, from 0000-01-01. *)
Definition day_of (t : Z) : Z := t / secondsPerDay + unixToInternalDays.

Lemma day_of_range t : min_time <= t < max_time -> 0 <= day_of t < civil_days.
Proof.
  intros Ht. unfold day_of, civil_days, daysPer400Years, unixToInternalDays, secondsPerDay, min_time, max_time in *.
  split; [| cut (t / 86400 < 2932897); [lia | apply Z.div_lt_upper_bound; lia]].
  cut (-719528 <= t / 86400); [lia | apply Z.div_le_lower_bound; lia].
Qed.

Lemma Format_render t :
  min_time <= t < max_time ->
  Format t = render (civil (day_of t)).1.1 (civil (day_of t)).1.2 (civil (day_of t)).2
                    (clock t).1.1 (clock t).1.2 (clock t).2.
Proof.
  intros Ht. pose proof (civil_bounds _ (day_of_range t Ht)) as Hd. pose proof (clock_bounds t) as Hc.
  unfold Format. fold (day_of t).
  destruct (civil (day_of t)) as [[y mo] d]. destruct (clock t) as [[h mi] s].
  unfold date_ok, clock_ok in *. cbn [fst snd] in *.
  rewrite appendInt_4, !appendInt_2 by lia. reflexivity.
Qed.

(** ** Theorems *)

(** The layout on instants the calendar tests care about: the epoch,
    leap days of a year divisible by 4 and of one divisible by 400, the
    day after February of 1900 (not leap), a year before 1000, and the
    two ends of the range. *)
Lemma Format_examples :
  Format 0 = "1970-01-01 00:00:00"%string /\
  Format 1709210096 = "2024-02-29 12:34:56"%string /\
  Format 951868799 = "2000-02-29 23:59:59"%string /\
  Format (-2203891200) = "1900-03-01 00:00:00"%string /\
  Format (-30630844250) = "0999-05-07 08:09:10"%string /\
  Format min_time = "0000-01-01 00:00:00"%string /\
  Format (max_time - 1) = "9999-12-31 23:59:59"%string.
Proof. vm_compute. repeat split. Qed.

(** The order of instants is the order of their strings. *)
Lemma Format_mono t1 t2 :
  min_time <= t1 -> t1 < t2 -> t2 < max_time -> String.compare (Format t1) (Format t2) = Lt.
Proof.
  intros H1 H12 H2.
  rewrite (Format_render t1), (Format_render t2) by lia.
  pose proof (civil_bounds _ (day_of_range t1 ltac:(lia))) as (Hy1 & Hm1 & Hd1).
  pose proof (civil_bounds _ (day_of_range t2 ltac:(lia))) as (Hy2 & Hm2 & Hd2).
  pose proof (clock_bounds t1) as (Hh1 & Hi1 & Hs1). pose proof (clock_bounds t2) as (Hh2 & Hi2 & Hs2).
  rewrite render_compare by (assumption || (repeat constructor; lia)).
  rewrite lex_split, clock_compare.
  assert (Hc : Z.compare t1 t2 = Lt) by (apply Z.compare_lt_iff; exact H12).
  rewrite (compare_div_mod t1 t2 secondsPerDay) in Hc by (unfold secondsPerDay; lia).
  destruct (Z.compare (t1 / secondsPerDay) (t2 / secondsPerDay)) eqn:Hq; [rewrite lex_Eq in Hc | | discriminate].
  - rewrite Z.compare_eq_iff in Hq. unfold day_of. rewrite Hq, !Z.compare_refl, !lex_Eq. exact Hc.
  - rewrite Z.compare_lt_iff in Hq. rewrite civil_mono by (unfold day_of; lia). apply lex_Lt.
Qed.

(** C29: on the years 0000 to 9999, [Format("2006-01-02 15:04:05")] is
    strictly monotone: a later instant gives a string that is greater
    in Go's byte-wise string order.  So the order of the strings is the
    order of the instants, and two instants never give the same
    string. *)
Theorem Format_lt t1 t2 :
  min_time <= t1 -> t1 < t2 -> t2 < max_time -> String.compare (Format t1) (Format t2) = Lt.
Proof. exact (Format_mono t1 t2). Qed.

(** ** Examples *)

Lemma Format_lt_witness :
  min_time <= 0 /\ 0 < 1709210096 /\ 1709210096 < max_time /\
  String.compare (Format 0) (Format 1709210096) = Lt.
Proof.
  assert (H1 : min_time <= 0) by (unfold min_time; lia).
  assert (H2 : 1709210096 < max_time) by (unfold max_time; lia).
  split; [exact H1 | split; [lia | split; [exact H2 |]]].
  exact (Format_lt 0 1709210096 H1 ltac:(lia) H2).
Defined.

End TimeFormat.
