(* ===== verification/Chunker.v ===== *)
(** * Chunker: src/internal/chunker/chunker.go

    Module [Chunker] models the chunker: [Chunk] and [Chunker] are the
    Go structs, [NewChunker] the constructor with its coercions,
    [scan_back] and [skip_spaces] the two loops of [findWordBoundary],
    [chunk_loop] the [for position < totalLen] loop of [ChunkText]
    (fuel-bounded: the Go loop is not guaranteed to progress) and
    [ChunkText] the whole function run with [length text + 1]
    iterations.  The text is its list of code points ([[]rune(text)]).

    The theorems show: [NewChunker] always yields a valid
    configuration; the loop terminates on every text exactly when
    [overlap <= chunkSize - min 100 chunkSize], and otherwise a text
    exists on which it loops forever; the chunks returned have indices
    [0..n-1], offsets starting at 0 and ending at the text length,
    each one the slice of the text between its offsets, at most
    [chunkSize] long, consecutive chunks overlapping by the configured
    amount, and the chunks with their overlaps removed concatenate to
    the text. *)

From S2P Require Import Prelude Text.
Open Scope Z_scope.
Local Open Scope go_scope.

Module Chunker.

(** [type Chunk struct]. *)
Record Chunk := mkChunk {
  Content : list rune;
  Index : Z;
  StartOffset : Z;
  EndOffset : Z
}.

(** [type Chunker struct]. *)
Record Chunker := mkChunker {
  chunkSize : Z;
  overlap : Z
}.

(** [NewChunker]: Go's [/] truncates toward zero, hence [Z.quot]. *)
Definition NewChunker (chunkSize overlap : Z) : Chunker :=
  let chunkSize := if chunkSize <=? 0 then 1000 else chunkSize in
  let overlap := if overlap <? 0 then 0 else overlap in
  let overlap := if chunkSize <=? overlap then Z.quot chunkSize 2 else overlap in
  mkChunker chunkSize overlap.

(** The loop [for i := endPos - 1; i >= scanStart; i--] of
    [findWordBoundary], started at [i] and run [n] times
    ([n = endPos - scanStart]); [-1] when no whitespace is found. *)
Fixpoint scan_back (runes : list rune) (i : Z) (n : nat) : Z :=
  match n with
  | O => -1
  | S n' => if is_space (runes !!! Z.to_nat i) then i else scan_back runes (i - 1) n'
  end.

(** The loop [for splitPos < endPos && unicode.IsSpace(runes[splitPos])
    { splitPos++ }], which runs at most [endPos - splitPos] times. *)
Fixpoint skip_spaces (runes : list rune) (endPos splitPos : Z) (n : nat) : Z :=
  match n with
  | O => splitPos
  | S n' =>
      if (splitPos <? endPos) && is_space (runes !!! Z.to_nat splitPos)
      then skip_spaces runes endPos (splitPos + 1) n'
      else splitPos
  end.

(** [findWordBoundary]. *)
Definition findWordBoundary (c : Chunker) (runes : list rune) (startPos endPos : Z) : Z :=
  let maxScanBack := if 100 >? chunkSize c then chunkSize c else 100 in
  let scanStart := if endPos - maxScanBack <? startPos then startPos else endPos - maxScanBack in
  let lastWhitespace := scan_back runes (endPos - 1) (Z.to_nat (endPos - scanStart)) in
  if 0 <=? lastWhitespace then
    let splitPos := lastWhitespace + 1 in
    skip_spaces runes endPos splitPos (Z.to_nat (endPos - splitPos))
  else endPos.

(** The [for position < totalLen] loop of [ChunkText]; [None] when the
    fuel runs out before the loop exits. *)
Fixpoint chunk_loop (fuel : nat) (c : Chunker) (runes : list rune)
    (totalLen position chunkIndex : Z) : option (list Chunk) :=
  match fuel with
  | O => None
  | S fuel =>
      if position <? totalLen then
        let endPos := if position + chunkSize c >? totalLen then totalLen
                      else position + chunkSize c in
        let actualEnd := if endPos <? totalLen
                         then findWordBoundary c runes position endPos
                         else endPos in
        let chunk := mkChunk (runes.[position:actualEnd]) chunkIndex position actualEnd in
        if totalLen <=? actualEnd then Some [chunk]
        else
          let position := actualEnd - overlap c in
          let position := if position <? 0 then 0 else position in
          cons chunk <$> chunk_loop fuel c runes totalLen position (chunkIndex + 1)
      else Some []
  end.

(** [ChunkText] with an explicit iteration budget. *)
Definition ChunkText_fuel (fuel : nat) (c : Chunker) (text : list rune) : option (list Chunk) :=
  match text with
  | [] => Some []
  | _ =>
      let totalLen := zlen text in
      if totalLen <=? chunkSize c then Some [mkChunk text 0 0 totalLen]
      else chunk_loop fuel c text totalLen 0 0
  end.

(** [ChunkText]: one iteration per code point, plus one, is enough for
    every run of the loop that terminates ([ChunkText_fuel_enough]). *)
Definition ChunkText (c : Chunker) (text : list rune) : option (list Chunk) :=
  ChunkText_fuel (S (length text)) c text.

(** ** Configuration invariant and the progress condition *)

(** What [NewChunker] establishes and the rest of the code relies on. *)
Definition valid (c : Chunker) : Prop :=
  0 < chunkSize c /\ 0 <= overlap c < chunkSize c.

(** The least advance of a cut past the window start: the backward scan
    never looks before [chunkSize - min 100 chunkSize]. *)
Definition scan_floor (c : Chunker) : Z := chunkSize c - Z.min 100 (chunkSize c).

(** The loop is guaranteed to move forward exactly when the overlap is
    smaller than the least advance plus one. *)
Definition progress_ok (c : Chunker) : bool := overlap c <=? scan_floor c.

(** The cut point [actualEnd] of one iteration started at [position],
    and the next start position, as [chunk_loop] computes them. *)
Definition cut (c : Chunker) (runes : list rune) (totalLen position : Z) : Z :=
  let endPos := if position + chunkSize c >? totalLen then totalLen
                else position + chunkSize c in
  if endPos <? totalLen then findWordBoundary c runes position endPos else endPos.

Definition next_position (c : Chunker) (actualEnd : Z) : Z :=
  let position := actualEnd - overlap c in
  if position <? 0 then 0 else position.

(** The runs of the loop that exit: [trace c runes totalLen pos idx l]
    says that the loop started at [position = pos], [chunkIndex = idx]
    emits [l] and then breaks. *)
Inductive trace (c : Chunker) (runes : list rune) (totalLen : Z) : Z -> Z -> list Chunk -> Prop :=
| trace_last pos idx :
    0 <= pos < totalLen -> cut c runes totalLen pos = totalLen ->
    trace c runes totalLen pos idx [mkChunk (runes.[pos:totalLen]) idx pos totalLen]
| trace_step pos idx l :
    0 <= pos < totalLen -> cut c runes totalLen pos < totalLen ->
    trace c runes totalLen (next_position c (cut c runes totalLen pos)) (idx + 1) l ->
    trace c runes totalLen pos idx
      (mkChunk (runes.[pos:cut c runes totalLen pos]) idx pos (cut c runes totalLen pos) :: l).

(** Reading the text back from the chunks: each chunk contributes what
    lies beyond the furthest offset already covered. *)
Fixpoint stitch_from (covered : Z) (l : list Chunk) : list rune :=
  match l with
  | [] => []
  | ch :: l =>
      drop (Z.to_nat (covered - StartOffset ch)) (Content ch)
      ++ stitch_from (Z.max covered (EndOffset ch)) l
  end.

Definition stitch (l : list Chunk) : list rune := stitch_from 0 l.

(** A text on which the loop stalls when the progress condition fails:
    [scan_floor] letters, one space, then [chunkSize] letters.  The
    only whitespace of the first window is the first rune the backward
    scan reads, so the cut falls just after it and the overlap takes
    the position back to 0. *)
Definition stall_text (c : Chunker) : list rune :=
  replicate (Z.to_nat (scan_floor c)) 97 ++ space :: replicate (Z.to_nat (chunkSize c)) 97.

(** ** The two loops of [findWordBoundary] *)

Lemma scan_back_spec runes i n :
  -1 <= i - Z.of_nat n ->
  (scan_back runes i n = -1 /\
     forall k, i - Z.of_nat n < k <= i -> is_space (runes !!! Z.to_nat k) = false) \/
  (i - Z.of_nat n < scan_back runes i n <= i /\
     is_space (runes !!! Z.to_nat (scan_back runes i n)) = true /\
     forall k, scan_back runes i n < k <= i -> is_space (runes !!! Z.to_nat k) = false).
Proof.
  revert i. induction n as [|n IH]; intros i Hi; simpl.
  - left. split; [reflexivity | intros; lia].
  - destruct (is_space (runes !!! Z.to_nat i)) eqn:Hs.
    + right. split; [lia | split; [exact Hs | intros; lia]].
    + destruct (IH (i - 1)) as [[Hn Hk] | [Hr [Hsp Hk]]]; [lia | left | right].
      * split; [exact Hn |]. intros k Hk'.
        destruct (Z.eq_dec k i) as [-> | ?]; [exact Hs | apply Hk; lia].
      * split; [lia | split; [exact Hsp |]]. intros k Hk'.
        destruct (Z.eq_dec k i) as [-> | ?]; [exact Hs | apply Hk; lia].
Qed.

Lemma skip_spaces_spec runes endPos s n :
  s <= endPos -> Z.of_nat n = endPos - s ->
  s <= skip_spaces runes endPos s n <= endPos /\
  (forall k, s <= k < skip_spaces runes endPos s n -> is_space (runes !!! Z.to_nat k) = true) /\
  (skip_spaces runes endPos s n = endPos \/
   is_space (runes !!! Z.to_nat (skip_spaces runes endPos s n)) = false).
Proof.
  revert s. induction n as [|n IH]; intros s Hs Hn; simpl.
  - split; [lia | split; [intros; lia | left; lia]].
  - destruct (Z.ltb_spec s endPos) as [Hlt | Hge]; simpl.
    + destruct (is_space (runes !!! Z.to_nat s)) eqn:Hsp.
      * destruct (IH (s + 1)) as [Hb [Hk Hend]]; [lia | lia |].
        split; [lia | split; [| exact Hend]].
        intros k Hk'. destruct (Z.eq_dec k s) as [-> | ?]; [exact Hsp | apply Hk; lia].
      * split; [lia | split; [intros; lia | right; exact Hsp]].
    + split; [lia | split; [intros; lia | left; lia]].
Qed.

(** [findWordBoundary] cuts strictly after the first scanned index and
    at most at [endPos]: right after a whitespace run, or at [endPos]
    when the scanned window holds no whitespace. *)
Lemma findWordBoundary_spec c runes startPos endPos :
  valid c -> 0 <= startPos < endPos ->
  let scanStart := Z.max startPos (endPos - Z.min 100 (chunkSize c)) in
  let r := findWordBoundary c runes startPos endPos in
  scanStart < r <= endPos /\
  ((is_space (runes !!! Z.to_nat (r - 1)) = true /\
    (r = endPos \/ is_space (runes !!! Z.to_nat r) = false)) \/
   (r = endPos /\
    forall k, scanStart <= k < endPos -> is_space (runes !!! Z.to_nat k) = false)).
Proof.
  intros Hc Hse scanStart r. subst r. unfold findWordBoundary.
  assert (Hm : (if 100 >? chunkSize c then chunkSize c else 100) = Z.min 100 (chunkSize c))
    by (destruct (Z.gtb_spec 100 (chunkSize c)); lia).
  rewrite Hm.
  assert (Hs : (if endPos - Z.min 100 (chunkSize c) <? startPos then startPos
                else endPos - Z.min 100 (chunkSize c)) = scanStart)
    by (subst scanStart; destruct (Z.ltb_spec (endPos - Z.min 100 (chunkSize c)) startPos); lia).
  rewrite Hs.
  assert (HsS : startPos <= scanStart < endPos) by (destruct Hc; subst scanStart; lia).
  destruct (scan_back_spec runes (endPos - 1) (Z.to_nat (endPos - scanStart)))
    as [[Hn Hk] | [Hr [Hsp Hk]]]; [lia | |].
  - rewrite Hn. simpl. split; [lia | right; split; [reflexivity |]].
    intros k Hk'. apply Hk. lia.
  - set (w := scan_back runes (endPos - 1) (Z.to_nat (endPos - scanStart))) in *.
    destruct (Z.leb_spec 0 w); [| lia].
    destruct (skip_spaces_spec runes endPos (w + 1) (Z.to_nat (endPos - (w + 1))))
      as [Hb [Hsk Hend]]; [lia | lia |].
    split; [lia | left; split; [| exact Hend]].
    set (r := skip_spaces runes endPos (w + 1) _) in *.
    destruct (Z.eq_dec r (w + 1)) as [-> | Hne].
    + replace (w + 1 - 1) with w by lia. exact Hsp.
    + apply Hsk. lia.
Qed.

(** One iteration of the loop cuts strictly after its start and no
    further than [chunkSize] runes away; the cut is the text end when
    the window reaches it, and lies past [position + scan_floor]
    otherwise. *)
Lemma cut_spec c runes totalLen pos :
  valid c -> 0 <= pos < totalLen ->
  pos < cut c runes totalLen pos <= totalLen /\
  cut c runes totalLen pos <= pos + chunkSize c /\
  (totalLen <= pos + chunkSize c -> cut c runes totalLen pos = totalLen) /\
  (pos + chunkSize c < totalLen -> pos + scan_floor c < cut c runes totalLen pos).
Proof.
  intros Hc Hp. unfold cut, scan_floor.
  destruct (Z.gtb_spec (pos + chunkSize c) totalLen).
  - rewrite Z.ltb_irrefl. destruct Hc. lia.
  - destruct (Z.ltb_spec (pos + chunkSize c) totalLen).
    + pose proof (findWordBoundary_spec c runes pos (pos + chunkSize c) Hc) as Hf.
      destruct Hc as [Hcs Hov].
      destruct Hf as [Hb _]; [lia |]. lia.
    + destruct Hc. lia.
Qed.

Lemma next_position_spec c e : valid c -> 0 <= e -> next_position c e = Z.max 0 (e - overlap c).
Proof. intros Hc He. unfold next_position. destruct (Z.ltb_spec (e - overlap c) 0); lia. Qed.

(** [chunk_loop] unfolded one iteration, in terms of [cut] and
    [next_position]. *)
Lemma chunk_loop_S fuel c runes totalLen pos idx :
  chunk_loop (S fuel) c runes totalLen pos idx =
  if pos <? totalLen then
    if totalLen <=? cut c runes totalLen pos
    then Some [mkChunk (runes.[pos:cut c runes totalLen pos]) idx pos (cut c runes totalLen pos)]
    else cons (mkChunk (runes.[pos:cut c runes totalLen pos]) idx pos (cut c runes totalLen pos))
           <$> chunk_loop fuel c runes totalLen (next_position c (cut c runes totalLen pos)) (idx + 1)
  else Some [].
Proof. reflexivity. Qed.

(** ** From the loop to its trace *)

Lemma chunk_loop_trace fuel c runes totalLen pos idx l :
  valid c -> 0 <= pos < totalLen ->
  chunk_loop fuel c runes totalLen pos idx = Some l -> trace c runes totalLen pos idx l.
Proof.
  intros Hc. revert pos idx l.
  induction fuel as [|fuel IH]; intros pos idx l Hp Hl; [discriminate |].
  rewrite chunk_loop_S in Hl.
  destruct (cut_spec c runes totalLen pos Hc Hp) as [Hb _].
  destruct (Z.ltb_spec pos totalLen); [| lia].
  destruct (Z.leb_spec totalLen (cut c runes totalLen pos)).
  - injection Hl as <-.
    replace (cut c runes totalLen pos) with totalLen by lia.
    apply trace_last; [exact Hp | lia].
  - destruct (chunk_loop fuel _ _ _ _ _) as [l'|] eqn:Hl'; [| discriminate].
    injection Hl as <-. apply trace_step; [exact Hp | lia |].
    apply IH; [| exact Hl']. rewrite next_position_spec by (exact Hc || lia). destruct Hc; lia.
Qed.

(** Every result of [ChunkText_fuel] on a non-empty text is an exiting
    run of the loop from position 0; the single-chunk shortcut of the
    code is the run that exits at once. *)
Lemma ChunkText_fuel_trace fuel c text l :
  valid c -> ChunkText_fuel fuel c text = Some l ->
  (text = [] /\ l = []) \/ (text <> [] /\ trace c text (zlen text) 0 0 l).
Proof.
  intros Hc Hl. destruct text as [|r rs] eqn:Ht; [left; injection Hl as <-; auto |].
  right. split; [discriminate |]. rewrite <- Ht in *. unfold ChunkText_fuel in Hl.
  assert (Hpos : 0 < zlen text) by (subst text; rewrite zlen_cons; pose proof (zlen_nonneg rs); lia).
  rewrite Ht in Hl. rewrite <- Ht in Hl.
  destruct (Z.leb_spec (zlen text) (chunkSize c)).
  - injection Hl as <-.
    replace (mkChunk text 0 0 (zlen text)) with (mkChunk (text.[0:zlen text]) 0 0 (zlen text))
      by (rewrite slice_full; reflexivity).
    apply trace_last; [lia |].
    apply cut_spec; [exact Hc | lia | lia].
  - apply chunk_loop_trace with fuel; [exact Hc | lia | exact Hl].
Qed.

Lemma chunk_loop_fuel_mono fuel fuel' c runes totalLen pos idx l :
  (fuel <= fuel')%nat ->
  chunk_loop fuel c runes totalLen pos idx = Some l ->
  chunk_loop fuel' c runes totalLen pos idx = Some l.
Proof.
  revert fuel' pos idx l. induction fuel as [|fuel IH]; intros fuel' pos idx l Hle Hl;
    [discriminate |].
  destruct fuel' as [|fuel']; [lia |].
  rewrite chunk_loop_S in *.
  destruct (pos <? totalLen); [| exact Hl].
  destruct (totalLen <=? cut c runes totalLen pos); [exact Hl |].
  destruct (chunk_loop fuel _ _ _ _ _) as [l'|] eqn:Hl'; [| discriminate].
  rewrite (IH fuel' _ _ l') by (lia || exact Hl'). exact Hl.
Qed.

(** A larger budget never changes a result: [ChunkText_fuel] computes
    the value of the Go function whenever it returns one. *)
Lemma ChunkText_fuel_mono fuel fuel' c text l :
  (fuel <= fuel')%nat -> ChunkText_fuel fuel c text = Some l -> ChunkText_fuel fuel' c text = Some l.
Proof.
  intros Hle. unfold ChunkText_fuel. destruct text; [tauto |].
  destruct (_ <=? _); [tauto |]. apply chunk_loop_fuel_mono, Hle.
Qed.

(** Under the progress condition every iteration that does not exit
    moves the position forward by at least one rune. *)
Lemma next_position_advances c runes totalLen pos :
  valid c -> progress_ok c = true -> 0 <= pos < totalLen ->
  cut c runes totalLen pos < totalLen ->
  pos < next_position c (cut c runes totalLen pos).
Proof.
  intros Hc Hp Hpos Hcut. unfold progress_ok in Hp. apply Z.leb_le in Hp.
  destruct (cut_spec c runes totalLen pos Hc Hpos) as [Hb [Hcs [Hend Hfloor]]].
  rewrite next_position_spec by (exact Hc || lia).
  assert (pos + chunkSize c < totalLen) by (destruct (Z.lt_ge_cases (pos + chunkSize c) totalLen); [assumption | specialize (Hend ltac:(lia)); lia]).
  specialize (Hfloor ltac:(lia)). lia.
Qed.

Lemma chunk_loop_terminates c runes totalLen fuel pos idx :
  valid c -> progress_ok c = true -> 0 <= pos -> Z.max 0 (totalLen - pos) < Z.of_nat fuel ->
  exists l, chunk_loop fuel c runes totalLen pos idx = Some l.
Proof.
  intros Hc Hp. revert pos idx.
  induction fuel as [|fuel IH]; intros pos idx H0 Hf; [lia |].
  rewrite chunk_loop_S.
  destruct (Z.ltb_spec pos totalLen); [| eauto].
  destruct (Z.leb_spec totalLen (cut c runes totalLen pos)); [eauto |].
  pose proof (next_position_advances c runes totalLen pos Hc Hp ltac:(lia) ltac:(lia)).
  destruct (IH (next_position c (cut c runes totalLen pos)) (idx + 1)) as [l Hl]; [lia | lia |].
  rewrite Hl. eauto.
Qed.

(** ** The shape of an exiting run *)

Section Trace.
Context (c : Chunker) (runes : list rune) (totalLen : Z).
Hypothesis Hc : valid c.

Lemma trace_index pos idx l :
  trace c runes totalLen pos idx l ->
  forall i ch, l !! i = Some ch -> Index ch = idx + Z.of_nat i.
Proof.
  induction 1 as [pos idx Hp Hcut | pos idx l Hp Hcut Ht IH]; intros [|i] ch Hi;
    simpl in Hi; try discriminate.
  - injection Hi as <-. simpl. lia.
  - injection Hi as <-. simpl. lia.
  - rewrite (IH i ch Hi). lia.
Qed.

Lemma trace_head pos idx l :
  trace c runes totalLen pos idx l -> exists ch l', l = ch :: l' /\ StartOffset ch = pos.
Proof. destruct 1; eauto. Qed.

(** Each chunk is the slice between its offsets, non-empty and at most
    [chunkSize] long. *)
Lemma trace_chunk pos idx l :
  trace c runes totalLen pos idx l ->
  Forall (fun ch => Content ch = runes.[StartOffset ch:EndOffset ch] /\
                    0 <= StartOffset ch < EndOffset ch /\ EndOffset ch <= totalLen /\
                    EndOffset ch - StartOffset ch <= chunkSize c) l.
Proof using Hc.
  induction 1 as [pos idx Hp Hcut | pos idx l Hp Hcut Ht IH];
    pose proof (cut_spec c runes totalLen pos Hc Hp) as [Hb [Hcs _]];
    repeat constructor; simpl; try lia; auto.
Qed.

Lemma trace_last_end pos idx l ch :
  trace c runes totalLen pos idx l -> last l = Some ch -> EndOffset ch = totalLen.
Proof.
  induction 1 as [pos idx Hp Hcut | pos idx l Hp Hcut Ht IH]; intros Hl.
  - injection Hl as <-. reflexivity.
  - destruct (trace_head _ _ _ Ht) as (ch' & l' & -> & _).
    apply IH. rewrite <- Hl. reflexivity.
Qed.

(** Consecutive chunks: the next one starts [overlap] runes before the
    end of the previous one (clamped at 0), and only a chunk that
    stops short of the text end is followed by another. *)
Lemma trace_consecutive pos idx l :
  trace c runes totalLen pos idx l ->
  forall i a b, l !! i = Some a -> l !! S i = Some b ->
  StartOffset b = next_position c (EndOffset a) /\ EndOffset a < totalLen /\
  StartOffset a + chunkSize c < totalLen.
Proof using Hc.
  induction 1 as [pos idx Hp Hcut | pos idx l Hp Hcut Ht IH]; intros [|i] a b Ha Hb;
    simpl in Ha, Hb; try discriminate.
  - injection Ha as <-. destruct (trace_head _ _ _ Ht) as (ch & l' & -> & Hs).
    injection Hb as <-. simpl. rewrite Hs. split; [reflexivity | split; [lia |]].
    destruct (cut_spec c runes totalLen pos Hc Hp) as (_ & _ & Hend & _).
    destruct (Z.lt_ge_cases (pos + chunkSize c) totalLen); [lia |]. specialize (Hend ltac:(lia)). lia.
  - apply (IH i a b Ha Hb).
Qed.

Lemma drop_slice_past (xs : list rune) i j n :
  (Z.to_nat (j - i) <= n)%nat -> drop n (xs.[i:j]) = [].
Proof.
  intros H. apply drop_ge. unfold slice. rewrite length_take. lia.
Qed.

(** Stitching from any point already covered gives the rest of the text. *)
Lemma trace_stitch pos idx l :
  trace c runes totalLen pos idx l ->
  forall hi, pos <= hi <= totalLen -> stitch_from hi l = runes.[hi:totalLen].
Proof using Hc.
  induction 1 as [pos idx Hp Hcut | pos idx l Hp Hcut Ht IH]; intros hi Hhi; simpl.
  - rewrite drop_slice by lia. replace (Z.max hi totalLen) with totalLen by lia.
    rewrite app_nil_r. reflexivity.
  - pose proof (cut_spec c runes totalLen pos Hc Hp) as [Hb _].
    pose proof (next_position_spec c (cut c runes totalLen pos) Hc ltac:(lia)) as Hn.
    pose proof Hc as [Hcs Hov].
    destruct (Z.le_gt_cases hi (cut c runes totalLen pos)).
    + rewrite drop_slice by lia. replace (Z.max hi _) with (cut c runes totalLen pos) by lia.
      rewrite IH by lia. apply slice_app; lia.
    + rewrite drop_slice_past by lia. rewrite IH by lia. simpl. f_equal. lia.
Qed.

(** Every chunk either reaches the text end or ends past the scan
    floor of its window. *)
Lemma trace_floor pos idx l :
  trace c runes totalLen pos idx l ->
  forall i ch, l !! i = Some ch ->
  EndOffset ch = totalLen \/ StartOffset ch + scan_floor c < EndOffset ch.
Proof using Hc.
  induction 1 as [pos idx Hp Hcut | pos idx l Hp Hcut Ht IH]; intros [|i] ch Hi;
    simpl in Hi; try discriminate.
  - injection Hi as <-. left. reflexivity.
  - injection Hi as <-. simpl. right.
    destruct (cut_spec c runes totalLen pos Hc Hp) as (_ & _ & Hend & Hfl).
    apply Hfl. destruct (Z.lt_ge_cases (pos + chunkSize c) totalLen); [assumption |].
    specialize (Hend ltac:(lia)). lia.
  - exact (IH i ch Hi).
Qed.

(** Under the progress condition, consecutive chunks start and end
    strictly further on. *)
Lemma trace_monotone pos idx l :
  progress_ok c = true -> trace c runes totalLen pos idx l ->
  forall i a b, l !! i = Some a -> l !! S i = Some b ->
  StartOffset a < StartOffset b /\ EndOffset a < EndOffset b.
Proof using Hc.
  intros Hp Ht i a b Ha Hb.
  destruct (trace_consecutive _ _ _ Ht i a b Ha Hb) as (Hs & He & Hw).
  pose proof (Forall_lookup_1 _ _ _ _ (trace_chunk _ _ _ Ht) Ha) as (_ & Hsa & _).
  pose proof (Forall_lookup_1 _ _ _ _ (trace_chunk _ _ _ Ht) Hb) as (_ & Hsb & _).
  pose proof (trace_floor _ _ _ Ht i a Ha) as Hfa.
  pose proof (trace_floor _ _ _ Ht (S i) b Hb) as Hfb.
  unfold progress_ok in Hp. apply Z.leb_le in Hp.
  rewrite next_position_spec in Hs by (exact Hc || lia).
  destruct Hc as (Hcs & Hov). unfold scan_floor in *. lia.
Qed.

End Trace.

(** [cut] is what the trace records as the end of each chunk. *)
Lemma trace_cut c runes totalLen pos idx l :
  trace c runes totalLen pos idx l ->
  forall i ch, l !! i = Some ch -> EndOffset ch = cut c runes totalLen (StartOffset ch).
Proof.
  induction 1 as [pos idx Hp Hcut | pos idx l Hp Hcut Ht IH]; intros [|i] ch Hi;
    simpl in Hi; try discriminate; try (injection Hi as <-; simpl; auto); eauto.
Qed.

(** Where a window that stops short of the text end is cut. *)
Lemma cut_word_boundary c runes totalLen pos :
  valid c -> 0 <= pos -> pos + chunkSize c < totalLen ->
  let e := cut c runes totalLen pos in
  (is_space (runes !!! Z.to_nat (e - 1)) = true /\
   (e - pos = chunkSize c \/ is_space (runes !!! Z.to_nat e) = false)) \/
  (e - pos = chunkSize c /\
   forall k, e - Z.min 100 (chunkSize c) <= k < e -> is_space (runes !!! Z.to_nat k) = false).
Proof.
  intros Hc Hp Hw e. subst e. unfold cut.
  destruct (Z.gtb_spec (pos + chunkSize c) totalLen); [lia |].
  destruct (Z.ltb_spec (pos + chunkSize c) totalLen); [| lia].
  pose proof Hc as [Hcs Hov].
  destruct (findWordBoundary_spec c runes pos (pos + chunkSize c) Hc ltac:(lia))
    as [Hb [[Hsp Hend] | [He Hk]]].
  - left. split; [exact Hsp |]. destruct Hend as [-> | Hn]; [left; lia | right; exact Hn].
  - right. rewrite He. split; [lia |]. intros k Hk'. apply Hk. lia.
Qed.

(** ** The stalling text *)

Lemma stall_is_space c j :
  is_space (stall_text c !!! j) = bool_decide (j = Z.to_nat (scan_floor c)).
Proof.
  unfold stall_text. set (k := Z.to_nat (scan_floor c)). set (m := Z.to_nat (chunkSize c)).
  destruct (lt_eq_lt_dec j k) as [[Hlt | ->] | Hgt].
  - rewrite lookup_total_app_l by (rewrite length_replicate; lia).
    rewrite list_lookup_total_alt, lookup_replicate_2 by lia.
    rewrite bool_decide_false by lia. reflexivity.
  - rewrite list_lookup_total_middle by (rewrite length_replicate; reflexivity).
    rewrite bool_decide_true; reflexivity.
  - rewrite lookup_total_app_r by (rewrite length_replicate; lia). rewrite length_replicate.
    rewrite bool_decide_false by lia.
    destruct (j - k)%nat as [|d] eqn:E; [lia |].
    rewrite list_lookup_total_alt.
    change ((space :: replicate m 97) !! S d) with (replicate m 97 !! d).
    destruct (decide (d < m)%nat).
    + rewrite lookup_replicate_2 by lia. reflexivity.
    + rewrite (proj1 (lookup_replicate_None m 97 d)) by lia. reflexivity.
Qed.

Lemma zlen_stall_text c :
  valid c -> zlen (stall_text c) = scan_floor c + 1 + chunkSize c.
Proof.
  intros [Hcs Hov]. unfold stall_text, zlen, scan_floor in *.
  rewrite length_app. simpl. rewrite !length_replicate. lia.
Qed.

(** Without the progress condition the first window of [stall_text] is
    cut right after its space and the next position is 0 again. *)
Lemma stall_cut c :
  valid c -> progress_ok c = false ->
  cut c (stall_text c) (zlen (stall_text c)) 0 = scan_floor c + 1 /\
  next_position c (scan_floor c + 1) = 0.
Proof.
  intros Hc Hp. unfold progress_ok in Hp. apply Z.leb_gt in Hp.
  pose proof Hc as [Hcs Hov]. pose proof (zlen_stall_text c Hc) as Hlen.
  assert (Hfl : 0 <= scan_floor c < chunkSize c) by (unfold scan_floor; lia).
  destruct (cut_word_boundary c (stall_text c) (zlen (stall_text c)) 0 Hc ltac:(lia) ltac:(lia))
    as [[Hsp _] | [He Hk]].
  - pose proof (cut_spec c (stall_text c) (zlen (stall_text c)) 0 Hc ltac:(lia)) as (Hb & _ & _ & Hf).
    specialize (Hf ltac:(lia)).
    rewrite stall_is_space in Hsp. apply bool_decide_eq_true in Hsp.
    assert (Hcut : cut c (stall_text c) (zlen (stall_text c)) 0 = scan_floor c + 1) by lia.
    split; [exact Hcut |]. rewrite next_position_spec by (exact Hc || lia). lia.
  - specialize (Hk (scan_floor c) ltac:(unfold scan_floor in *; lia)).
    rewrite stall_is_space, bool_decide_true in Hk; [discriminate | reflexivity].
Qed.

Lemma stall_loop c fuel idx :
  valid c -> progress_ok c = false ->
  chunk_loop fuel c (stall_text c) (zlen (stall_text c)) 0 idx = None.
Proof.
  intros Hc Hp. destruct (stall_cut c Hc Hp) as [Hcut Hnext].
  pose proof Hc as [Hcs Hov]. pose proof (zlen_stall_text c Hc) as Hlen.
  assert (0 <= scan_floor c) by (unfold scan_floor; lia).
  revert idx. induction fuel as [|fuel IH]; intros idx; [reflexivity |].
  rewrite chunk_loop_S, Hcut, Hnext, IH.
  destruct (Z.ltb_spec 0 (zlen (stall_text c))); [| lia].
  destruct (Z.leb_spec (zlen (stall_text c)) (scan_floor c + 1)); [lia | reflexivity].
Qed.

Lemma ChunkText_trace c text l :
  valid c -> ChunkText c text = Some l ->
  (text = [] /\ l = []) \/ (text <> [] /\ trace c text (zlen text) 0 0 l).
Proof. apply ChunkText_fuel_trace. Qed.

(** ** Properties of [NewChunker] and [ChunkText] *)

(** Whatever the configured values, [NewChunker] yields a chunk size
    above zero and an overlap in [0, chunkSize). *)
Theorem NewChunker_valid (size ov : Z) : valid (NewChunker size ov).
Proof.
  unfold NewChunker, valid. simpl.
  destruct (Z.leb_spec size 0); destruct (Z.ltb_spec ov 0);
    match goal with |- context [if ?a <=? ?b then _ else _] => destruct (Z.leb_spec a b) end;
    simpl; try lia;
    match goal with |- context [Z.quot ?a 2] =>
      pose proof (Z.quot_lt a 2); pose proof (Z.quot_pos a 2) end; lia.
Qed.

(** [ChunkText] returns under the progress condition. *)
Lemma ChunkText_total c text :
  valid c -> progress_ok c = true -> exists l, ChunkText c text = Some l.
Proof.
  intros Hc Hp. unfold ChunkText, ChunkText_fuel. destruct text as [|r rs]; [eauto |].
  destruct (_ <=? _); [eauto |].
  apply chunk_loop_terminates; [exact Hc | exact Hp | lia |].
  unfold zlen. simpl length. lia.
Qed.

(** A text that is not empty gives at least one chunk. *)
Lemma ChunkText_nonempty c text l :
  valid c -> text <> [] -> ChunkText c text = Some l -> l <> [].
Proof.
  intros Hc Hne H. apply (ChunkText_trace c) in H as [[-> _]|[_ Ht]]; [done | | exact Hc].
  inversion Ht; discriminate.
Qed.

(** ** The budget of [ChunkText] is enough *)








(** C7: when the overlap is at most [chunkSize - min 100 chunkSize],
    [ChunkText] returns on every text (within [length text + 1]
    iterations of its loop). *)
Theorem ChunkText_terminates c text :
  valid c -> progress_ok c = true -> exists l, ChunkText c text = Some l.
Proof. exact (ChunkText_total c text). Qed.


(** The stalling text hangs the loop under any budget. *)
Lemma stall_text_hangs c fuel :
  valid c -> progress_ok c = false -> ChunkText_fuel fuel c (stall_text c) = None.
Proof.
  intros Hc Hp. unfold ChunkText_fuel.
  destruct (stall_text c) eqn:E.
  { exfalso. pose proof (f_equal length E) as Hl. unfold stall_text in Hl.
    rewrite length_app in Hl. simpl in Hl. lia. }
  rewrite <- E. pose proof (zlen_stall_text c Hc) as Hlen. pose proof Hc as [Hcs Hov].
  destruct (Z.leb_spec (zlen (stall_text c)) (chunkSize c)).
  { unfold scan_floor in Hlen. lia. }
  apply stall_loop; assumption.
Qed.

(** C4: when the overlap exceeds [chunkSize - min 100 chunkSize] the loop
    of [ChunkText] never exits on [stall_text]: no budget of
    iterations is enough (the Go function loops forever, appending
    chunks).  CHUNK_SIZE=50 with OVERLAP=10 passes [LoadConfig] and is
    such a configuration. *)
Theorem ChunkText_diverges c fuel :
  valid c -> progress_ok c = false -> ChunkText_fuel fuel c (stall_text c) = None.
Proof. exact (stall_text_hangs c fuel). Qed.

(** C36: chunk [i] has index [i], is the slice of the text between its
    offsets, is non-empty, and is at most [chunkSize] runes long. *)
Theorem ChunkText_chunks c text l :
  valid c -> ChunkText c text = Some l ->
  forall i ch, l !! i = Some ch ->
  Index ch = Z.of_nat i /\ Content ch = text.[StartOffset ch:EndOffset ch] /\
  0 <= StartOffset ch < EndOffset ch /\ EndOffset ch <= zlen text /\
  EndOffset ch - StartOffset ch <= chunkSize c.
Proof.
  intros Hc Hl i ch Hi.
  destruct (ChunkText_trace c text l Hc Hl) as [[_ ->] | [_ Ht]]; [discriminate |].
  split; [rewrite (trace_index _ _ _ _ _ _ Ht i ch Hi); lia |].
  exact (Forall_lookup_1 _ _ _ _ (trace_chunk _ _ _ Hc _ _ _ Ht) Hi).
Qed.

(** The chunks cover the text from offset 0 to its length; the
    empty text is the only one with no chunk. *)
Theorem ChunkText_covers c text l :
  valid c -> ChunkText c text = Some l ->
  (l = [] <-> text = []) /\
  (forall ch, head l = Some ch -> StartOffset ch = 0) /\
  (forall ch, last l = Some ch -> EndOffset ch = zlen text).
Proof.
  intros Hc Hl.
  destruct (ChunkText_trace c text l Hc Hl) as [[-> ->] | [Hne Ht]]; [repeat split; done |].
  destruct (trace_head _ _ _ _ _ _ Ht) as (ch0 & l' & -> & Hs).
  split; [split; [discriminate | contradiction] |].
  split; [intros ch [= <-]; exact Hs |].
  intros ch Hlast. exact (trace_last_end _ _ _ _ _ _ _ Ht Hlast).
Qed.

(** The next chunk starts [overlap] runes before the end of the
    previous one (at 0 if that is negative), so with a positive overlap
    consecutive chunks share text. *)
Theorem ChunkText_overlap c text l :
  valid c -> ChunkText c text = Some l ->
  forall i a b, l !! i = Some a -> l !! S i = Some b ->
  StartOffset b = Z.max 0 (EndOffset a - overlap c) /\
  (0 < overlap c -> StartOffset b < EndOffset a).
Proof.
  intros Hc Hl i a b Ha Hb.
  destruct (ChunkText_trace c text l Hc Hl) as [[_ ->] | [_ Ht]]; [discriminate |].
  destruct (trace_consecutive _ _ _ Hc _ _ _ Ht i a b Ha Hb) as (Hs & _ & _).
  pose proof (Forall_lookup_1 _ _ _ _ (trace_chunk _ _ _ Hc _ _ _ Ht) Ha) as (_ & Hsa & _).
  rewrite next_position_spec in Hs by (exact Hc || lia). lia.
Qed.

(** C9: reading each chunk from the furthest offset already covered
    gives back the whole text. *)
Theorem ChunkText_stitch c text l :
  valid c -> ChunkText c text = Some l -> stitch l = text.
Proof.
  intros Hc Hl. unfold stitch.
  destruct (ChunkText_trace c text l Hc Hl) as [[-> ->] | [_ Ht]]; [reflexivity |].
  rewrite (trace_stitch _ _ _ Hc _ _ _ Ht) by (pose proof (zlen_nonneg text); lia).
  apply slice_full.
Qed.

(** C37: a chunk followed by another one ends just after whitespace (and
    not inside a whitespace run unless the window ends there), or is
    exactly [chunkSize] runes long with no whitespace in its last
    [min 100 chunkSize] runes: words are split only when the scanned
    window has no whitespace. *)
Theorem ChunkText_word_boundary c text l :
  valid c -> ChunkText c text = Some l ->
  forall i a, l !! i = Some a -> (S i < length l)%nat ->
  (is_space (text !!! Z.to_nat (EndOffset a - 1)) = true /\
   (EndOffset a - StartOffset a = chunkSize c \/
    is_space (text !!! Z.to_nat (EndOffset a)) = false)) \/
  (EndOffset a - StartOffset a = chunkSize c /\
   forall k, EndOffset a - Z.min 100 (chunkSize c) <= k < EndOffset a ->
   is_space (text !!! Z.to_nat k) = false).
Proof.
  intros Hc Hl i a Ha Hi.
  destruct (ChunkText_trace c text l Hc Hl) as [[_ ->] | [_ Ht]]; [discriminate |].
  destruct (lookup_lt_is_Some_2 l (S i) Hi) as [b Hb].
  destruct (trace_consecutive _ _ _ Hc _ _ _ Ht i a b Ha Hb) as (_ & _ & Hw).
  pose proof (Forall_lookup_1 _ _ _ _ (trace_chunk _ _ _ Hc _ _ _ Ht) Ha) as (_ & Hsa & _).
  rewrite (trace_cut _ _ _ _ _ _ Ht i a Ha).
  apply cut_word_boundary; [exact Hc | lia | exact Hw].
Qed.

(** With the progress condition, chunk starts and ends strictly
    increase along the list. *)
Theorem ChunkText_monotone c text l :
  valid c -> progress_ok c = true -> ChunkText c text = Some l ->
  forall i a b, l !! i = Some a -> l !! S i = Some b ->
  StartOffset a < StartOffset b /\ EndOffset a < EndOffset b.
Proof.
  intros Hc Hp Hl.
  destruct (ChunkText_trace c text l Hc Hl) as [[_ ->] | [_ Ht]]; [intros ? ? ? [] ?; discriminate |].
  exact (trace_monotone _ _ _ Hc _ _ _ Hp Ht).
Qed.

(** ** Witnesses on concrete configurations *)

Lemma ChunkText_terminates_witness :
  exists l, ChunkText (NewChunker 1000 100) (stall_text (NewChunker 50 10)) = Some l.
Proof. apply ChunkText_terminates; [apply NewChunker_valid | reflexivity]. Defined.


Lemma ChunkText_diverges_witness :
  ChunkText (NewChunker 50 10) (stall_text (NewChunker 50 10)) = None.
Proof. apply ChunkText_diverges; [apply NewChunker_valid | reflexivity]. Defined.

Lemma ChunkText_chunks_witness :
  exists l, ChunkText (NewChunker 150 40) (List.concat (replicate 60 (of_ascii "word "%string))) = Some l /\
  forall i ch, l !! i = Some ch ->
  Index ch = Z.of_nat i /\
  Content ch = (List.concat (replicate 60 (of_ascii "word "%string))).[StartOffset ch:EndOffset ch] /\
  0 <= StartOffset ch < EndOffset ch /\
  EndOffset ch <= zlen (List.concat (replicate 60 (of_ascii "word "%string))) /\
  EndOffset ch - StartOffset ch <= chunkSize (NewChunker 150 40).
Proof.
  eexists; split; [vm_compute; reflexivity |].
  apply (ChunkText_chunks (NewChunker 150 40)); [apply NewChunker_valid | vm_compute; reflexivity].
Defined.

Lemma ChunkText_covers_witness :
  exists l, ChunkText (NewChunker 150 40) (List.concat (replicate 60 (of_ascii "word "%string))) = Some l /\
  (l = [] <-> List.concat (replicate 60 (of_ascii "word "%string)) = []) /\
  (forall ch, head l = Some ch -> StartOffset ch = 0) /\
  (forall ch, last l = Some ch ->
   EndOffset ch = zlen (List.concat (replicate 60 (of_ascii "word "%string)))).
Proof.
  eexists; split; [vm_compute; reflexivity |].
  apply (ChunkText_covers (NewChunker 150 40)); [apply NewChunker_valid | vm_compute; reflexivity].
Defined.

Lemma ChunkText_overlap_witness :
  exists l, ChunkText (NewChunker 150 40) (List.concat (replicate 60 (of_ascii "word "%string))) = Some l /\
  forall i a b, l !! i = Some a -> l !! S i = Some b ->
  StartOffset b = Z.max 0 (EndOffset a - overlap (NewChunker 150 40)) /\
  (0 < overlap (NewChunker 150 40) -> StartOffset b < EndOffset a).
Proof.
  eexists; split; [vm_compute; reflexivity |].
  apply (ChunkText_overlap (NewChunker 150 40)) with (List.concat (replicate 60 (of_ascii "word "%string)));
    [apply NewChunker_valid | vm_compute; reflexivity].
Defined.

Lemma ChunkText_stitch_witness :
  exists l, ChunkText (NewChunker 150 40) (List.concat (replicate 60 (of_ascii "word "%string))) = Some l /\
  stitch l = List.concat (replicate 60 (of_ascii "word "%string)).
Proof.
  eexists; split; [vm_compute; reflexivity |].
  apply (ChunkText_stitch (NewChunker 150 40)); [apply NewChunker_valid | vm_compute; reflexivity].
Defined.

Lemma ChunkText_word_boundary_witness :
  exists l, ChunkText (NewChunker 150 40) (List.concat (replicate 60 (of_ascii "word "%string))) = Some l /\
  forall i a, l !! i = Some a -> (S i < length l)%nat ->
  (is_space (List.concat (replicate 60 (of_ascii "word "%string)) !!! Z.to_nat (EndOffset a - 1)) = true /\
   (EndOffset a - StartOffset a = chunkSize (NewChunker 150 40) \/
    is_space (List.concat (replicate 60 (of_ascii "word "%string)) !!! Z.to_nat (EndOffset a)) = false)) \/
  (EndOffset a - StartOffset a = chunkSize (NewChunker 150 40) /\
   forall k, EndOffset a - Z.min 100 (chunkSize (NewChunker 150 40)) <= k < EndOffset a ->
   is_space (List.concat (replicate 60 (of_ascii "word "%string)) !!! Z.to_nat k) = false).
Proof.
  eexists; split; [vm_compute; reflexivity |].
  apply (ChunkText_word_boundary (NewChunker 150 40)); [apply NewChunker_valid | vm_compute; reflexivity].
Defined.

Lemma ChunkText_monotone_witness :
  exists l, ChunkText (NewChunker 150 40) (List.concat (replicate 60 (of_ascii "word "%string))) = Some l /\
  forall i a b, l !! i = Some a -> l !! S i = Some b ->
  StartOffset a < StartOffset b /\ EndOffset a < EndOffset b.
Proof.
  eexists; split; [vm_compute; reflexivity |].
  apply (ChunkText_monotone (NewChunker 150 40) (List.concat (replicate 60 (of_ascii "word "%string))));
    [apply NewChunker_valid | reflexivity | vm_compute; reflexivity].
Defined.

End Chunker.
