(* ===== verification/ChunkerInt.v ===== *)
(** * ChunkerInt: the chunker in Go's 64-bit [int] arithmetic

    [Chunker] computes positions in [Z].  Go computes them in [int],
    where [+] and [-] wrap around modulo [2^64].  This file writes the
    loops of chunker.go once more with every addition and subtraction
    of the code wrapped ([add64], [sub64] of [Prelude]) and shows that
    the two models agree on every text of fewer than [2^62] code points,
    whatever [int] values [NewChunker] receives: no intermediate value
    of the Go code overflows, so [Chunker]'s theorems are theorems of
    the 64-bit program.  The comparisons, the slices and the loop
    counts (the fuel of [scan_back] and [skip_spaces]) are as in
    [Chunker]. *)

From S2P Require Import Prelude Text Chunker.
Open Scope Z_scope.
Local Open Scope go_scope.

Module ChunkerInt.
Import Chunker.

(** [for i := endPos - 1; i >= scanStart; i--]. *)
Fixpoint scan_back (runes : list rune) (i : Z) (n : nat) : Z :=
  match n with
  | O => -1
  | S n' => if is_space (runes !!! Z.to_nat i) then i else scan_back runes (sub64 i 1) n'
  end.

(** [for splitPos < endPos && unicode.IsSpace(runes[splitPos]) { splitPos++ }]. *)
Fixpoint skip_spaces (runes : list rune) (endPos splitPos : Z) (n : nat) : Z :=
  match n with
  | O => splitPos
  | S n' =>
      if (splitPos <? endPos) && is_space (runes !!! Z.to_nat splitPos)
      then skip_spaces runes endPos (add64 splitPos 1) n'
      else splitPos
  end.

(** [findWordBoundary]. *)
Definition findWordBoundary (c : Chunker) (runes : list rune) (startPos endPos : Z) : Z :=
  let maxScanBack := if 100 >? chunkSize c then chunkSize c else 100 in
  let scanStart := if sub64 endPos maxScanBack <? startPos then startPos else sub64 endPos maxScanBack in
  let lastWhitespace := scan_back runes (sub64 endPos 1) (Z.to_nat (endPos - scanStart)) in
  if 0 <=? lastWhitespace then
    let splitPos := add64 lastWhitespace 1 in
    skip_spaces runes endPos splitPos (Z.to_nat (endPos - splitPos))
  else endPos.

(** The [for position < totalLen] loop of [ChunkText]. *)
Fixpoint chunk_loop (fuel : nat) (c : Chunker) (runes : list rune)
    (totalLen position chunkIndex : Z) : option (list Chunk) :=
  match fuel with
  | O => None
  | S fuel =>
      if position <? totalLen then
        let endPos := if add64 position (chunkSize c) >? totalLen then totalLen
                      else add64 position (chunkSize c) in
        let actualEnd := if endPos <? totalLen
                         then findWordBoundary c runes position endPos
                         else endPos in
        let chunk := mkChunk (runes.[position:actualEnd]) chunkIndex position actualEnd in
        if totalLen <=? actualEnd then Some [chunk]
        else
          let position := sub64 actualEnd (overlap c) in
          let position := if position <? 0 then 0 else position in
          cons chunk <$> chunk_loop fuel c runes totalLen position (add64 chunkIndex 1)
      else Some []
  end.

(** [ChunkText], with the iteration budget of [Chunker.ChunkText]. *)
Definition ChunkText (c : Chunker) (text : list rune) : option (list Chunk) :=
  match text with
  | [] => Some []
  | _ =>
      let totalLen := zlen text in
      if totalLen <=? chunkSize c then Some [mkChunk text 0 0 totalLen]
      else chunk_loop (S (length text)) c text totalLen 0 0
  end.

(** The texts the theorems are about: fewer than [2^62] code points
    (an exabyte of memory for the [[]rune] alone). *)
Definition text_bound : Z := 2 ^ 62.

(** ** Theorems *)

Local Ltac int_lia := unfold text_bound, int_min, int_max in *; lia.

Lemma scan_back_eq runes i n :
  int_min <= i - Z.of_nat n -> i <= int_max ->
  scan_back runes i n = Chunker.scan_back runes i n.
Proof.
  revert i. induction n as [|n IH]; intros i Hlo Hhi; simpl; [reflexivity |].
  destruct (is_space _); [reflexivity |].
  rewrite sub64_small by int_lia. apply IH; int_lia.
Qed.

Lemma skip_spaces_eq runes endPos s n :
  int_min <= s -> s + Z.of_nat n <= int_max ->
  skip_spaces runes endPos s n = Chunker.skip_spaces runes endPos s n.
Proof.
  revert s. induction n as [|n IH]; intros s Hlo Hhi; simpl; [reflexivity |].
  destruct (_ && _); [| reflexivity].
  rewrite add64_small by int_lia. apply IH; int_lia.
Qed.

(** Within a window of a text under the bound, [findWordBoundary]
    computes in [int] what it computes in [Z]. *)
Lemma findWordBoundary_eq c runes startPos endPos :
  valid c -> 0 <= startPos < endPos -> endPos < text_bound ->
  findWordBoundary c runes startPos endPos = Chunker.findWordBoundary c runes startPos endPos.
Proof.
  intros [Hcs Hov] Hse Hb. unfold findWordBoundary, Chunker.findWordBoundary.
  set (m := if 100 >? chunkSize c then chunkSize c else 100).
  assert (Hm : 0 < m <= 100) by (subst m; destruct (Z.gtb_spec 100 (chunkSize c)); lia).
  rewrite (sub64_small endPos m), (sub64_small endPos 1) by int_lia.
  set (sS := if endPos - m <? startPos then startPos else endPos - m).
  assert (HsS : startPos <= sS < endPos) by (subst sS; destruct (Z.ltb_spec (endPos - m) startPos); lia).
  rewrite scan_back_eq by int_lia.
  set (w := Chunker.scan_back runes (endPos - 1) (Z.to_nat (endPos - sS))).
  assert (Hw : w <= endPos - 1).
  { destruct (Chunker.scan_back_spec runes (endPos - 1) (Z.to_nat (endPos - sS)))
      as [[Hn _] | [Hr _]]; subst w; lia. }
  destruct (Z.leb_spec 0 w); [| reflexivity].
  rewrite add64_small by int_lia. apply skip_spaces_eq; int_lia.
Qed.

(** One iteration: the cut point and the next start are those of
    [Chunker]. *)
Lemma cut_eq c runes totalLen pos :
  valid c -> 0 <= pos < totalLen -> chunkSize c < totalLen < text_bound ->
  (if (if add64 pos (chunkSize c) >? totalLen then totalLen else add64 pos (chunkSize c)) <? totalLen
   then findWordBoundary c runes pos
          (if add64 pos (chunkSize c) >? totalLen then totalLen else add64 pos (chunkSize c))
   else if add64 pos (chunkSize c) >? totalLen then totalLen else add64 pos (chunkSize c))
  = cut c runes totalLen pos.
Proof.
  intros Hc Hp Hl. pose proof Hc as [Hcs Hov]. unfold cut.
  rewrite add64_small by int_lia.
  destruct (Z.gtb_spec (pos + chunkSize c) totalLen); [rewrite Z.ltb_irrefl; reflexivity |].
  destruct (Z.ltb_spec (pos + chunkSize c) totalLen); [| reflexivity].
  apply findWordBoundary_eq; [exact Hc | int_lia | int_lia].
Qed.

Lemma chunk_loop_eq fuel c runes totalLen pos idx :
  valid c -> chunkSize c < totalLen < text_bound -> 0 <= pos -> 0 <= idx ->
  idx + Z.of_nat fuel <= text_bound ->
  chunk_loop fuel c runes totalLen pos idx = Chunker.chunk_loop fuel c runes totalLen pos idx.
Proof.
  intros Hc Hl. revert pos idx. induction fuel as [|fuel IH]; intros pos idx Hp Hi Hf; [reflexivity |].
  rewrite chunk_loop_S. simpl chunk_loop.
  destruct (Z.ltb_spec pos totalLen); [| reflexivity].
  rewrite cut_eq by (assumption || lia).
  pose proof (cut_spec c runes totalLen pos Hc ltac:(lia)) as (Hb & _).
  pose proof Hc as [Hcs Hov].
  destruct (totalLen <=? cut c runes totalLen pos); [reflexivity |].
  rewrite sub64_small, add64_small by int_lia.
  unfold next_position. rewrite IH; [reflexivity | destruct (Z.ltb_spec (cut c runes totalLen pos - overlap c) 0); lia | lia | lia].
Qed.

(** C20: Go's [int] arithmetic never wraps in the chunker: for every
    configuration [NewChunker] builds (from any [int] values) and every
    text of fewer than [2^62] code points, the chunker computed with
    64-bit wrap-around arithmetic returns exactly what the [Z] model
    returns. *)
Theorem ChunkText_int64 chunkSize overlap text :
  zlen text < text_bound ->
  ChunkText (NewChunker chunkSize overlap) text = Chunker.ChunkText (NewChunker chunkSize overlap) text.
Proof.
  intros Hb. pose proof (NewChunker_valid chunkSize overlap) as Hc.
  unfold ChunkText, Chunker.ChunkText, ChunkText_fuel.
  destruct text as [|r rs]; [reflexivity |].
  destruct (Z.leb_spec (zlen (r :: rs)) (Chunker.chunkSize (NewChunker chunkSize overlap))); [reflexivity |].
  apply chunk_loop_eq; [exact Hc | ..]; unfold zlen in *; simpl length in *; int_lia.
Qed.

(** ** Examples *)

Lemma ChunkText_int64_witness :
  zlen (of_ascii "Hello brave new world") < text_bound /\
  ChunkText (NewChunker 8 3) (of_ascii "Hello brave new world") =
    Chunker.ChunkText (NewChunker 8 3) (of_ascii "Hello brave new world").
Proof.
  assert (H : zlen (of_ascii "Hello brave new world") < text_bound) by (vm_compute; reflexivity).
  split; [exact H | exact (ChunkText_int64 8 3 _ H)].
Defined.

End ChunkerInt.
