(* ===== verification/Codec.v ===== *)
(** * Codec: the embedding blob of src/internal/storage/database.go

    [serializeEmbedding] writes a [[]float32] with
    [binary.Write(buf, binary.LittleEndian, embedding)];
    [deserializeEmbedding] reads it back into a slice of
    [embeddingDimension] floats with [binary.Read].  A [float32] is
    modelled by its IEEE-754 bit pattern (what [math.Float32bits]
    gives and what [binary.Write] stores), a byte by a [Z] in
    [0, 256).  [put_uint32] and [uint32_le] are the standard library's
    [LittleEndian.PutUint32] and [LittleEndian.Uint32] (shifts, masks
    and ors, as written there); [read_full] is the [io.ReadFull] that
    [binary.Read] performs.

    The theorems: a blob is four bytes per float; decoding the blob of
    a vector of [embeddingDimension] floats gives the vector back; a
    blob shorter than [4 * embeddingDimension] bytes is an error; and,
    against the spec's "a blob not of that exact length is an error",
    a longer blob decodes without error to its first
    [embeddingDimension] floats. *)

From S2P Require Import Prelude.
#[local] Set Warnings "-abstract-large-number".
Open Scope Z_scope.

Module Codec.

(** [const embeddingDimension = 1536]. *)
Definition embeddingDimension : Z := 1536.

Definition byte := Z.
Definition float32 := Z.

Definition is_byte (b : byte) : Prop := 0 <= b < 256.
Definition is_float32 (x : float32) : Prop := 0 <= x < 2 ^ 32.

(** The errors [binary.Read] reports through [io.ReadFull]. *)
Inductive read_error := ErrEOF | ErrUnexpectedEOF.

(** [binary.LittleEndian.PutUint32]. *)
Definition put_uint32 (v : float32) : list byte :=
  [Z.land v 255; Z.land (Z.shiftr v 8) 255; Z.land (Z.shiftr v 16) 255; Z.land (Z.shiftr v 24) 255].

(** [binary.LittleEndian.Uint32]. *)
Definition uint32_le (b0 b1 b2 b3 : byte) : float32 :=
  Z.lor b0 (Z.lor (Z.shiftl b1 8) (Z.lor (Z.shiftl b2 16) (Z.shiftl b3 24))).

(** [serializeEmbedding]: [binary.Write] of a [[]float32] cannot fail,
    it appends four little-endian bytes per element. *)
Definition serializeEmbedding (embedding : list float32) : result read_error (list byte) :=
  Ok (List.concat (map put_uint32 embedding)).

(** Decoding [n] floats from exactly [4 * n] bytes. *)
Fixpoint decode_floats (n : nat) (data : list byte) : list float32 :=
  match n, data with
  | S n, b0 :: b1 :: b2 :: b3 :: rest => uint32_le b0 b1 b2 b3 :: decode_floats n rest
  | _, _ => []
  end.

(** [io.ReadFull(r, buf)] with [len(buf) = n]: [EOF] when nothing could
    be read, [ErrUnexpectedEOF] on a partial read, otherwise the first
    [n] bytes (the rest of the reader is left unread). *)
Definition read_full (n : nat) (data : list byte) : result read_error (list byte) :=
  if decide (n = 0%nat) then Ok []
  else if decide (data = []) then Err ErrEOF
  else if decide (length data < n)%nat then Err ErrUnexpectedEOF
  else Ok (take n data).

(** [deserializeEmbedding]. *)
Definition deserializeEmbedding (data : list byte) : result read_error (list float32) :=
  let n := Z.to_nat embeddingDimension in
  bs ← read_full (4 * n) data;
  Ok (decode_floats n bs).

#[export] Instance is_float32_dec x : Decision (is_float32 x).
Proof. unfold is_float32. apply _. Defined.

(** ** Bytes of one float *)

Lemma land_shiftl_byte b y : is_byte b -> 0 <= y -> Z.land b (Z.shiftl y 8) = 0.
Proof.
  intros Hb Hy. apply Z.bits_inj'. intros n Hn.
  rewrite Z.land_spec, Z.shiftl_spec, Z.bits_0 by lia.
  destruct (Z.lt_ge_cases n 8).
  - rewrite (Z.testbit_neg_r y (n - 8)) by lia. apply andb_false_r.
  - replace b with (b mod 2 ^ 8) by (apply Z.mod_small; unfold is_byte in Hb; lia).
    rewrite Z.mod_pow2_bits_high by lia. reflexivity.
Qed.

(** An [or] of a byte with a shifted value is an addition. *)
Lemma lor_shiftl_byte b y : is_byte b -> 0 <= y -> Z.lor b (Z.shiftl y 8) = b + y * 256.
Proof.
  intros Hb Hy. rewrite <- Z.add_nocarry_lor by (apply land_shiftl_byte; assumption).
  rewrite Z.shiftl_mul_pow2 by lia. reflexivity.
Qed.

Lemma land_255_byte x : is_byte (Z.land x 255).
Proof.
  unfold is_byte. change 255 with (Z.ones 8). rewrite Z.land_ones by lia.
  pose proof (Z.mod_pos_bound x (2 ^ 8)). lia.
Qed.

Lemma put_uint32_bytes v : Forall is_byte (put_uint32 v).
Proof. unfold put_uint32. repeat constructor; apply land_255_byte.
Qed.

Lemma lor_shift_step b y k j :
  is_byte b -> 0 <= y -> 0 <= k -> j = k + 8 ->
  Z.lor (Z.shiftl b k) (Z.shiftl y j) = Z.shiftl (b + y * 256) k.
Proof.
  intros Hb Hy Hk ->. rewrite (Z.add_comm k 8), <- (Z.shiftl_shiftl y 8 k) by lia.
  rewrite <- Z.shiftl_lor, lor_shiftl_byte by assumption. reflexivity.
Qed.

(** [Uint32] of four bytes is their base-256 value. *)
Lemma uint32_le_value b0 b1 b2 b3 :
  is_byte b0 -> is_byte b1 -> is_byte b2 -> is_byte b3 ->
  uint32_le b0 b1 b2 b3 = b0 + (b1 + (b2 + b3 * 256) * 256) * 256.
Proof.
  intros H0 H1 H2 H3. unfold uint32_le. unfold is_byte in *.
  rewrite (lor_shift_step b2 b3 16 24) by (unfold is_byte; lia).
  rewrite (lor_shift_step b1 (b2 + b3 * 256) 8 16) by (unfold is_byte; lia).
  rewrite lor_shiftl_byte by (unfold is_byte; lia). reflexivity.
Qed.

Lemma land_255_mod x : Z.land x 255 = x mod 256.
Proof. change 255 with (Z.ones 8). apply Z.land_ones. lia. Qed.

(** Decoding the four bytes written for a float gives the float back. *)
Lemma uint32_le_put v : is_float32 v ->
  uint32_le (Z.land v 255) (Z.land (Z.shiftr v 8) 255)
            (Z.land (Z.shiftr v 16) 255) (Z.land (Z.shiftr v 24) 255) = v.
Proof.
  intros Hv. unfold is_float32 in Hv.
  rewrite uint32_le_value by apply land_255_byte.
  rewrite !land_255_mod, !Z.shiftr_div_pow2 by lia.
  change (2 ^ 16) with (2 ^ 8 * 2 ^ 8). change (2 ^ 24) with (2 ^ 8 * 2 ^ 8 * 2 ^ 8).
  rewrite <- !Z.div_div by lia. change (2 ^ 8) with 256.
  assert (Hq : 0 <= v / 256 / 256 / 256 < 256).
  { split; [repeat apply Z.div_pos; lia |].
    repeat (apply Z.div_lt_upper_bound; [lia |]). lia. }
  rewrite (Z.mod_small (v / 256 / 256 / 256)) by exact Hq.
  pose proof (Z.div_mod v 256 ltac:(lia)).
  pose proof (Z.div_mod (v / 256) 256 ltac:(lia)).
  pose proof (Z.div_mod (v / 256 / 256) 256 ltac:(lia)).
  lia.
Qed.

(** ** Blobs *)

Lemma length_serialize e : length (List.concat (map put_uint32 e)) = (4 * length e)%nat.
Proof. induction e as [|v e IH]; simpl; [reflexivity |]. rewrite IH. lia. Qed.

Lemma decode_floats_serialize e :
  Forall is_float32 e -> decode_floats (length e) (List.concat (map put_uint32 e)) = e.
Proof.
  induction 1 as [|v e Hv He IH]; [reflexivity |].
  simpl. rewrite IH. f_equal. apply uint32_le_put, Hv.
Qed.

Lemma decode_floats_app n bs extra :
  length bs = (4 * n)%nat -> decode_floats n (bs ++ extra) = decode_floats n bs.
Proof.
  revert bs. induction n as [|n IH]; intros bs Hl; [destruct bs; reflexivity |].
  do 4 (destruct bs as [|? bs]; [simpl in Hl; lia |]).
  simpl. rewrite IH; [reflexivity | simpl in Hl; lia].
Qed.

(** the blob of a vector is four bytes per float, and
    [serializeEmbedding] never fails. *)
Theorem serializeEmbedding_length e :
  exists bs, serializeEmbedding e = Ok bs /\ length bs = (4 * length e)%nat /\ Forall is_byte bs.
Proof.
  eexists; split; [reflexivity |]. split; [apply length_serialize |].
  induction e as [|v e IH]; [constructor |].
  change (List.concat (map put_uint32 (v :: e))) with (put_uint32 v ++ List.concat (map put_uint32 e)).
  apply Forall_app; split; [apply put_uint32_bytes | exact IH].
Qed.

Lemma dim_nat : Z.to_nat embeddingDimension = 1536%nat.
Proof. reflexivity. Qed.

(** [read_full] of at least [n > 0] bytes is their first [n]. *)
Lemma read_full_ok n data :
  (0 < n)%nat -> (n <= length data)%nat -> read_full n data = Ok (take n data).
Proof.
  intros Hn Hl. unfold read_full.
  rewrite decide_False by lia. rewrite decide_False by (intros ->; simpl in Hl; lia).
  rewrite decide_False by lia. reflexivity.
Qed.

(** C38: a vector of [embeddingDimension] floats round-trips exactly
    through its blob. *)
Theorem deserialize_serialize e bs :
  length e = Z.to_nat embeddingDimension -> Forall is_float32 e ->
  serializeEmbedding e = Ok bs -> deserializeEmbedding bs = Ok e.
Proof.
  intros Hl Hf [= <-]. unfold deserializeEmbedding.
  rewrite read_full_ok by (rewrite ?length_serialize, ?Hl, ?dim_nat; lia).
  unfold mbind, result_bind.
  rewrite take_ge by (rewrite length_serialize; lia).
  rewrite <- Hl. f_equal. apply decode_floats_serialize, Hf.
Qed.

(** a blob shorter than [4 * embeddingDimension] bytes is rejected. *)
Theorem deserialize_short data :
  (length data < 4 * Z.to_nat embeddingDimension)%nat ->
  exists err, deserializeEmbedding data = Err err.
Proof.
  intros Hl. unfold deserializeEmbedding, read_full. rewrite dim_nat in *.
  rewrite decide_False by lia.
  destruct (decide (data = [])); [eauto |].
  rewrite decide_True by exact Hl. eauto.
Qed.

(** A blob longer than [4 * embeddingDimension] bytes is not
    rejected: it decodes as its first [4 * embeddingDimension] bytes,
    the extra bytes being ignored. *)
Theorem deserialize_long data extra :
  length data = (4 * Z.to_nat embeddingDimension)%nat ->
  deserializeEmbedding (data ++ extra) = deserializeEmbedding data /\
  is_ok (deserializeEmbedding (data ++ extra)) = true.
Proof.
  intros Hl. unfold deserializeEmbedding. rewrite dim_nat in *.
  rewrite !read_full_ok by (rewrite ?length_app; lia).
  rewrite take_app_le by lia. rewrite (take_ge data) by lia.
  split; reflexivity.
Qed.

(** ** Witnesses *)

Lemma deserialize_serialize_witness :
  deserializeEmbedding (List.concat (map put_uint32 (map (fun i => Z.of_nat i * 2797) (seq 0 1536))))
  = Ok (map (fun i => Z.of_nat i * 2797) (seq 0 1536)).
Proof.
  apply deserialize_serialize; [reflexivity | | reflexivity].
  apply (bool_decide_unpack _). vm_compute. reflexivity.
Defined.

Lemma deserialize_short_witness : exists err, deserializeEmbedding (replicate 6143 0) = Err err.
Proof. apply deserialize_short. apply Nat.ltb_lt. vm_compute. reflexivity. Defined.

Lemma deserialize_long_witness :
  deserializeEmbedding (replicate 6144 0 ++ [7]) = deserializeEmbedding (replicate 6144 0) /\
  is_ok (deserializeEmbedding (replicate 6144 0 ++ [7])) = true.
Proof. apply deserialize_long. vm_compute. reflexivity. Defined.

End Codec.
