(* ===== verification/Embeddings.v ===== *)
(** * Embeddings: the OpenAI client of package embeddings

    The client's source is the second file of the bundle
    src/internal/storage/database.go (lines 314-498): [Embed] splits
    the texts into batches of [maxBatchSize] and calls [embedBatch] on
    each, pausing 100 ms between batches; [embedBatch] posts one
    request, means to retry it on HTTP 429 with a backoff of 1 s then 2 s, and
    rebuilds the vectors in the order of the [index] field of the
    reply.

    Module [Embeddings] models the client in a small state monad [M]
    over a section variable [w : World]: [provider] answers the [n]-th
    HTTP request (given its input texts) with a transport error or a
    response whose body is empty, unreadable, malformed JSON or a
    decoded reply; [cancelled] says whether the context is done before the
    [n]-th timer fires.  The state [EState] records the requests sent
    and the waits taken, in order, so that the theorems can speak about
    what the client does, not only what it returns.  Go's runtime panic
    on a negative slice index is the error [PanicIndexOutOfRange],
    which [Embed] does not wrap.  The request [req] is built once,
    before the retry loop, with a [bytes.Buffer] body that the first
    [Do] drains: [http_do] sends the batch only while the body is
    unread, and a retried [Do] fails ([embedBatch_429_fails]), so the
    backoff of 1 s then 2 s never leads to a second reply.  [json.Marshal] of the request and
    [http.NewRequestWithContext] on a constant URL cannot fail and are
    not modelled.

    The batch loop recurses on [length texts - i] with Equations. *)

From Equations Require Import Equations.
From stdpp Require Import strings.
From S2P Require Import Prelude Text Codec.
Open Scope Z_scope.

Module Embeddings.
Import Codec.

(** [maxBatchSize = 100]. *)
Definition maxBatchSize : nat := 100.
(** [maxRetries := 3]. *)
Definition maxRetries : Z := 3.

Definition text := list rune.
Definition vec := list float32.

(** One element of [embeddingResponse.Data]. *)
Record item := mkItem { item_embedding : vec; item_index : Z }.

(** [apiError]. *)
Record apiError := mkApiError { err_message : string; err_type : string; err_code : string }.

(** The body of a reply as [io.ReadAll] and [json.Unmarshal] see it.
    [BodyEmpty] is a reply without content ([Content-Length: 0]), which
    net/http gives as [http.NoBody]: it reads as the empty string, even
    after [Close]. *)
Inductive body :=
| BodyEmpty
| BodyUnreadable
| BodyMalformed
| BodyJSON (data : list item) (error : option apiError).

(** What [c.httpClient.Do(req)] gives. *)
Inductive http_outcome :=
| TransportError
| HttpResponse (status : Z) (b : body).

(** The provider and the context, as oracles indexed by the number of
    requests (resp. waits) already made. *)
Record World := mkWorld {
  provider : nat -> list text -> http_outcome;
  cancelled : nat -> bool
}.

(** [Client]: the API key and the timeout of its [http.Client] (in
    ms).  The HTTP client itself is the provider oracle of [World]. *)
Record Client := mkClient { apiKey : string; httpTimeout : Z }.

(** [NewClient]: a client with a 30 s timeout; it has sent no request
    yet ([st0]). *)
Definition NewClient (key : string) : Client := mkClient key 30000.

(** What the client has done: requests sent and waits taken (in ms). *)
Record EState := mkEState { requests : list (list text); waits : list Z }.

(** The errors, by the message [fmt.Errorf] builds. *)
Inductive embed_error :=
| ErrContext
| ErrExecuteRequest
| ErrReadResponse
| ErrParseResponse
| ErrAPI (message type_ : string)
| ErrHTTP (status : Z)
| ErrInvalidIndex (i : Z)
| ErrDimension (got : Z)
| ErrMissing (i : nat)
| ErrBatch (start stop : nat) (inner : embed_error)
| PanicIndexOutOfRange (i : Z).

(** ** The monad *)

Definition M (A : Type) : Type := EState -> result embed_error A * EState.

#[export] Instance M_ret : MRet M := fun _ a st => (Ok a, st).
#[export] Instance M_bind : MBind M := fun _ _ f m st =>
  match m st with
  | (Ok a, st') => f a st'
  | (Err e, st') => (Err e, st')
  end.

Definition throw {A} (e : embed_error) : M A := fun st => (Err e, st).

Definition lift {A} (r : result embed_error A) : M A := fun st => (r, st).

(** [fmt.Errorf("...: %w", err)] around a call; a panic is not an
    error value and passes through. *)
Definition wrap {A} (f : embed_error -> embed_error) (m : M A) : M A := fun st =>
  match m st with
  | (Err (PanicIndexOutOfRange i), st') => (Err (PanicIndexOutOfRange i), st')
  | (Err e, st') => (Err (f e), st')
  | (Ok a, st') => (Ok a, st')
  end.

Section Client.
Variable w : World.

(** [c.httpClient.Do(req)] on the one request [embedBatch] builds
    before its loop.  The body of [req] is [bytes.NewBuffer(jsonData)]:
    [Some batch] while unread.  A [Do] reads it to the end, so a second
    [Do] of the same [req] finds it drained ([None]) while
    [ContentLength] still says [len(jsonData)]; [Do] then fails without
    the provider seeing the batch: over HTTP/1.1 the transport refuses
    the request ("http: ContentLength=N with Body length 0"), over
    HTTP/2 the server must reset a stream whose data falls short of its
    content-length (RFC 9113, 8.1.1). *)
Definition http_do (payload : option (list text)) : M http_outcome := fun st =>
  match payload with
  | Some batch => (Ok (provider w (length (requests st)) batch), mkEState (requests st ++ [batch]) (waits st))
  | None => (Ok TransportError, st)
  end.

(** [select { case <-time.After(d): ... case <-ctx.Done(): return ctx.Err() }]. *)
Definition wait (ms : Z) : M unit := fun st =>
  (if cancelled w (length (waits st)) then Err ErrContext else Ok tt,
   mkEState (requests st) (waits st ++ [ms])).

(** [time.Duration(1<<uint(attempt)) * time.Second], in ms. *)
Definition backoff (attempt : Z) : Z := Z.shiftl 1 attempt * 1000.

(** The retry loop of [embedBatch]: the response, its body, and whether
    that body was already closed ([resp.Body.Close()] on a 429).  [n]
    counts the [continue]s left; the branch [O] is never reached since
    [continue] needs [attempt < maxRetries - 1].  Every attempt after
    the first sends the drained body. *)
Fixpoint retry (n : nat) (attempt : Z) (payload : option (list text)) : M (Z * body * bool) :=
  resp ← http_do payload;
  match resp with
  | TransportError => throw ErrExecuteRequest
  | HttpResponse status b =>
      if status =? 429 then
        if attempt <? maxRetries - 1 then
          match n with
          | S n' => _ ← wait (backoff attempt); retry n' (attempt + 1) None
          | O => mret (status, b, true)
          end
        else mret (status, b, true)
      else mret (status, b, false)
  end.

(** [embeddings[item.Index] = item.Embedding] for each item, after the
    two checks of the loop; a negative index makes Go panic. *)
Fixpoint place (slots : list (option vec)) (data : list item) : result embed_error (list (option vec)) :=
  match data with
  | [] => Ok slots
  | it :: rest =>
      if zlen slots <=? item_index it then Err (ErrInvalidIndex (item_index it))
      else if negb (zlen (item_embedding it) =? embeddingDimension)
      then Err (ErrDimension (zlen (item_embedding it)))
      else if item_index it <? 0 then Err (PanicIndexOutOfRange (item_index it))
      else place (<[Z.to_nat (item_index it) := Some (item_embedding it)]> slots) rest
  end.

(** [for i, emb := range embeddings { if emb == nil { ... } }]. *)
Fixpoint check_all (i : nat) (slots : list (option vec)) : result embed_error (list vec) :=
  match slots with
  | [] => Ok []
  | None :: _ => Err (ErrMissing i)
  | Some v :: rest => vs ← check_all (S i) rest; Ok (v :: vs)
  end.

(** Rebuilding the batch's vectors from the reply, in index order. *)
Definition reassemble (n : nat) (data : list item) : result embed_error (list vec) :=
  slots ← place (replicate n None) data; check_all 0 slots.

(** What [embedBatch] does once the retry loop has a response: read
    and parse the body, then the API-error, status and reassembly
    checks, in the order of the code.  A body closed on a 429 fails
    [io.ReadAll] ("http: read on closed response body"), except
    [http.NoBody], whose empty string [json.Unmarshal] rejects. *)
Definition read_reply (batch : list text) (resp : Z * body * bool) : M (list vec) :=
  let '(status, b, closed) := resp in
  match b, closed with
  | BodyEmpty, _ => throw ErrParseResponse
  | _, true => throw ErrReadResponse
  | BodyUnreadable, false => throw ErrReadResponse
  | BodyMalformed, false => throw ErrParseResponse
  | BodyJSON _ (Some e), false => throw (ErrAPI (err_message e) (err_type e))
  | BodyJSON data None, false =>
      if negb (status =? 200) then throw (ErrHTTP status)
      else lift (reassemble (length batch) data)
  end.

(** [embedBatch]: three attempts, so two [continue]s at most. *)
Definition embedBatch (batch : list text) : M (list vec) :=
  resp ← retry 2 0 (Some batch); read_reply batch resp.

(** The [for i := 0; i < len(texts); i += maxBatchSize] loop of [Embed]. *)
Equations embed_loop (texts : list text) (i : nat) (acc : list vec) : M (list vec)
  by wf (length texts - i)%nat lt :=
  embed_loop texts i acc with lt_dec i (length texts) => {
    | left _ =>
        let stop := Nat.min (i + maxBatchSize) (length texts) in
        let batch := take (stop - i) (drop i texts) in
        embeddings ← wrap (ErrBatch i stop) (embedBatch batch);
        (if decide (stop < length texts)%nat then wait 100 else mret tt);;
        embed_loop texts (i + maxBatchSize) (acc ++ embeddings)
    | right _ => mret acc }.
Next Obligation. unfold maxBatchSize. lia. Qed.

(** [Embed]. *)
Definition Embed (texts : list text) : M (list vec) :=
  match texts with
  | [] => mret []
  | _ => embed_loop texts 0 []
  end.

(** ** What the theorems speak about *)

(** The reply of a provider that embeds each text [t] as [f t] and
    tags it with its position in the batch, before any reordering. *)
Definition ref_reply (f : text -> vec) (batch : list text) : list item :=
  imap (fun k t => mkItem (f t) (Z.of_nat k)) batch.

End Client.

(** A provider that always answers 200 with some reordering of
    [ref_reply f batch], with vectors of dimension 1536. *)
Record honest (f : text -> vec) (w : World) : Prop := {
  honest_reply : forall n b, exists data,
    provider w n b = HttpResponse 200 (BodyJSON data None) /\ data ≡ₚ ref_reply f b;
  honest_dim : forall t, zlen (f t) = embeddingDimension
}.

(** A context that is never cancelled. *)
Definition live (w : World) : Prop := forall n, cancelled w n = false.

(** What the spec asks of the batching: the requests, in order, are the
    texts; each holds 1 to [maxBatchSize] texts, all but the last
    exactly [maxBatchSize]. *)
Definition batching (reqs : list (list text)) (texts : list text) : Prop :=
  concat reqs = texts /\ Forall (fun b => (0 < length b <= maxBatchSize)%nat) reqs /\
  Forall (fun b => length b = maxBatchSize) (removelast reqs).

(** Proof helpers: one write of the reassembly loop, and the slot an
    item names. *)
Definition key (it : item) : nat := Z.to_nat (item_index it).
Definition put (slots : list (option vec)) (it : item) : list (option vec) :=
  <[key it := Some (item_embedding it)]> slots.
Definition item_ok (n : nat) (it : item) : Prop :=
  0 <= item_index it < Z.of_nat n /\ zlen (item_embedding it) = embeddingDimension.

(** ** Concrete providers for the examples *)

(** Embeds a text as 1536 copies of its length, and replies in reverse
    order. *)
Definition sample_f (t : text) : vec := replicate 1536 (zlen t).
Definition sample_provider (n : nat) (b : list text) : http_outcome :=
  HttpResponse 200 (BodyJSON (reverse (ref_reply sample_f b)) None).
Definition sample_world : World := mkWorld sample_provider (fun _ => false).
(** Cancelled from the start. *)
Definition cancelled_world : World := mkWorld sample_provider (fun _ => true).
Definition sample_texts : list text := map (fun k => [Z.of_nat k]) (seq 0 250).
Definition st0 : EState := mkEState [] [].

(** A slot filled, if at all, with a vector of the right dimension. *)
Definition slot_ok (o : option vec) : Prop :=
  forall v, o = Some v -> zlen v = embeddingDimension.

(** The state after one more request. *)
Definition sent (batch : list text) (st : EState) : EState :=
  mkEState (requests st ++ [batch]) (waits st).

(** ** The monad *)

Lemma bind_ok {A B} (m : M A) (k : A -> M B) st a st' :
  m st = (Ok a, st') -> (m ≫= k) st = k a st'.
Proof. intros H. unfold mbind, M_bind. rewrite H. reflexivity. Qed.

Lemma bind_err {A B} (m : M A) (k : A -> M B) st e st' :
  m st = (Err e, st') -> (m ≫= k) st = (Err e, st').
Proof. intros H. unfold mbind, M_bind. rewrite H. reflexivity. Qed.

Lemma bind_ret {A B} (a : A) (k : A -> M B) st : (mret a ≫= k) st = k a st.
Proof. reflexivity. Qed.

(** ** The retry loop, one response at a time *)

Section Retry.
Variable w : World.
Variables (batch : list text) (st : EState).

Lemma retry_transport n a :
  provider w (length (requests st)) batch = TransportError ->
  retry w n a (Some batch) st = (Err ErrExecuteRequest, sent batch st).
Proof. intros H. destruct n; simpl; unfold mbind, M_bind, http_do; rewrite H; reflexivity. Qed.

Lemma retry_pass n a s b :
  provider w (length (requests st)) batch = HttpResponse s b -> s <> 429 ->
  retry w n a (Some batch) st = (Ok (s, b, false), sent batch st).
Proof.
  intros H Hs. apply Z.eqb_neq in Hs.
  destruct n; simpl; unfold mbind, M_bind, http_do; rewrite H, Hs; reflexivity.
Qed.


End Retry.


Lemma wait_live w ms st :
  cancelled w (length (waits st)) = false ->
  wait w ms st = (Ok tt, mkEState (requests st) (waits st ++ [ms])).
Proof. intros H. unfold wait. rewrite H. reflexivity. Qed.

Lemma wait_cancelled w ms st :
  cancelled w (length (waits st)) = true ->
  wait w ms st = (Err ErrContext, mkEState (requests st) (waits st ++ [ms])).
Proof. intros H. unfold wait. rewrite H. reflexivity. Qed.

(** ** Reassembly by index *)

Lemma length_foldl_put slots data : length (foldl put slots data) = length slots.
Proof.
  induction data as [|it data IH] in slots |- *; [reflexivity |].
  simpl. rewrite IH. apply length_insert.
Qed.

(** When every item passes the two checks, the loop is a sequence of
    writes. *)
Lemma place_fold slots data :
  Forall (item_ok (length slots)) data -> place slots data = Ok (foldl put slots data).
Proof.
  induction data as [|it data IH] in slots |- *; intros Hok; [reflexivity |].
  apply Forall_cons in Hok as [[Hi Hd] Hrest]. simpl.
  rewrite (proj2 (Z.leb_gt _ _)) by (unfold zlen; lia). rewrite Hd, Z.eqb_refl.
  rewrite (proj2 (Z.ltb_ge _ _)) by lia.
  apply IH. unfold put. rewrite length_insert. exact Hrest.
Qed.

(** Writes at distinct slots commute, so the order of the reply does
    not matter. *)
Lemma foldl_put_perm data1 data2 slots :
  data1 ≡ₚ data2 -> NoDup (key <$> data1) -> foldl put slots data1 = foldl put slots data2.
Proof.
  intros Hp. revert slots.
  induction Hp as [|x l1 l2 _ IH|x y l|l1 l2 l3 H12 IH12 _ IH23]; intros slots Hnd; simpl.
  - reflexivity.
  - apply IH. simpl in Hnd. by inversion Hnd.
  - simpl in Hnd. apply NoDup_cons in Hnd as [Hy _].
    f_equal. unfold put. apply list_insert_insert_ne. set_solver.
  - rewrite IH12 by exact Hnd. apply IH23. by rewrite <- H12.
Qed.

Lemma foldl_put_ref (f : text -> vec) (b : list text) j pre rest :
  length pre = j -> length rest = length b ->
  foldl put (pre ++ rest) (imap (fun k t => mkItem (f t) (Z.of_nat (j + k))) b) =
  pre ++ map (fun t => Some (f t)) b.
Proof.
  induction b as [|t b IH] in j, pre, rest |- *; intros Hj Hr.
  - destruct rest; [|discriminate]. reflexivity.
  - destruct rest as [|r rest]; [discriminate |]. rewrite imap_cons. simpl.
    unfold put at 2. unfold key. simpl item_index.
    rewrite Nat.add_0_r, Nat2Z.id, insert_app_r_alt by lia.
    rewrite Hj, Nat.sub_diag. simpl.
    replace (pre ++ Some (f t) :: rest) with ((pre ++ [Some (f t)]) ++ rest)
      by (by rewrite <- app_assoc).
    rewrite (imap_ext _ (fun k t => mkItem (f t) (Z.of_nat (S j + k)))).
    + rewrite (IH (S j)); [by rewrite <- app_assoc | rewrite length_app; simpl; lia |].
      simpl in Hr. lia.
    + intros k x _. simpl. f_equal. lia.
Qed.

Lemma check_all_some i vs : check_all i (map Some vs) = Ok vs.
Proof. induction vs as [|v vs IH] in i |- *; simpl; [reflexivity | by rewrite IH]. Qed.

Lemma ref_reply_keys f b : key <$> ref_reply f b = seq 0 (length b).
Proof.
  unfold ref_reply. rewrite fmap_imap.
  rewrite (imap_ext _ (fun j _ => j)) by (intros; unfold key; simpl; lia).
  rewrite imap_seq_0. apply list_fmap_id.
Qed.

Lemma ref_reply_ok f b :
  (forall t, zlen (f t) = embeddingDimension) -> Forall (item_ok (length b)) (ref_reply f b).
Proof.
  intros Hd. apply Forall_lookup_2. intros k it Hk.
  apply list_lookup_imap_Some in Hk as [t [Ht ->]].
  apply lookup_lt_Some in Ht. split; simpl; [lia | apply Hd].
Qed.

(** Reassembly inverts any reordering of an honest reply. *)
Lemma reassemble_ref f b data :
  (forall t, zlen (f t) = embeddingDimension) -> data ≡ₚ ref_reply f b ->
  reassemble (length b) data = Ok (map f b).
Proof.
  intros Hd Hp. unfold reassemble.
  rewrite place_fold by (rewrite length_replicate, Hp; by apply ref_reply_ok).
  rewrite (foldl_put_perm data (ref_reply f b)) by
    (done || rewrite Hp, ref_reply_keys; apply NoDup_seq).
  unfold ref_reply.
  pose proof (foldl_put_ref f b 0 [] (replicate (length b) None) eq_refl
    (length_replicate _ _)) as E.
  cbn [app Nat.add] in E. rewrite E. rewrite <- (map_map f Some). apply check_all_some.
Qed.

(** Whatever the reply, a successful reassembly has one vector per text,
    each of dimension 1536. *)
Lemma place_slots slots data slots' :
  Forall slot_ok slots -> place slots data = Ok slots' ->
  length slots' = length slots /\ Forall slot_ok slots'.
Proof.
  induction data as [|it data IH] in slots |- *; simpl; intros Hs Hp.
  - by injection Hp as <-.
  - destruct (zlen slots <=? item_index it); [discriminate |].
    destruct (zlen (item_embedding it) =? embeddingDimension) eqn:Hd; [|discriminate].
    destruct (item_index it <? 0); [discriminate |].
    apply IH in Hp as [Hl Hs'].
    + split; [by rewrite Hl, length_insert | exact Hs'].
    + apply Forall_insert; [exact Hs |]. intros v [= <-]. by apply Z.eqb_eq.
Qed.

Lemma check_all_ok i slots vs : check_all i slots = Ok vs -> slots = map Some vs.
Proof.
  induction slots as [|[v|] slots IH] in i, vs |- *; simpl; intros Hc.
  - by injection Hc as <-.
  - destruct (check_all (S i) slots) as [vs'|] eqn:E; [|discriminate].
    injection Hc as <-. simpl. by rewrite (IH _ _ E).
  - discriminate.
Qed.

Lemma slots_some vs :
  Forall slot_ok (map Some vs) -> Forall (fun v => zlen v = embeddingDimension) vs.
Proof.
  induction vs as [|v vs IH]; simpl; intros H; [constructor |].
  inversion H as [|? ? Hv Hvs]; subst. constructor; [by apply Hv | auto].
Qed.

Lemma reassemble_shape n data vs :
  reassemble n data = Ok vs ->
  length vs = n /\ Forall (fun v => zlen v = embeddingDimension) vs.
Proof.
  unfold reassemble. simpl.
  destruct (place (replicate n None) data) as [slots|] eqn:Hp; [|discriminate].
  intros Hc. apply check_all_ok in Hc as ->.
  apply place_slots in Hp as [Hl Hs].
  - rewrite length_map, length_replicate in Hl. split; [exact Hl |].
    by apply slots_some.
  - apply Forall_replicate. intros v [=].
Qed.

(** ** The batch loop *)

Lemma wrap_ok {A} g (m : M A) st a st' : m st = (Ok a, st') -> wrap g m st = (Ok a, st').
Proof. intros H. unfold wrap. by rewrite H. Qed.

Lemma batching_nil_inv reqs : batching reqs [] -> reqs = [].
Proof.
  intros [Hc [Hl _]]. destruct reqs as [|b reqs]; [done |].
  apply Forall_cons in Hl as [Hb _]. simpl in Hc. apply app_eq_nil in Hc as [-> _].
  simpl in Hb. lia.
Qed.

Lemma batching_last b : (0 < length b <= maxBatchSize)%nat -> batching [b] b.
Proof.
  intros Hb. split; [apply app_nil_r |]. split; [by constructor | constructor].
Qed.

Lemma batching_cons b reqs texts :
  length b = maxBatchSize -> texts <> [] -> batching reqs texts -> batching (b :: reqs) (b ++ texts).
Proof.
  intros Hb Ht [Hc [Hl Hr]]. destruct reqs as [|b' reqs]; [by destruct Ht, Hc |].
  split; [by rewrite <- Hc |]. split.
  - constructor; [unfold maxBatchSize in *; lia | exact Hl].
  - simpl. constructor; assumption.
Qed.

Lemma drop_split {A} (xs : list A) i n : take n (drop i xs) ++ drop (i + n) xs = drop i xs.
Proof. rewrite <- drop_drop. apply take_drop. Qed.

Section HonestRun.
Variables (f : text -> vec) (w : World).
Hypothesis Hw : honest f w.
Hypothesis Hlive : live w.

Lemma embedBatch_honest b st : embedBatch w b st = (Ok (map f b), sent b st).
Proof using Hw.
  destruct (honest_reply _ _ Hw (length (requests st)) b) as [data [Hp Hperm]].
  unfold embedBatch. erewrite bind_ok by (apply retry_pass; [exact Hp | lia]).
  unfold read_reply, lift. rewrite (reassemble_ref f b data (honest_dim _ _ Hw) Hperm).
  reflexivity.
Qed.

Lemma embed_loop_honest texts i acc st : exists reqs,
  embed_loop w texts i acc st =
    (Ok (acc ++ map f (drop i texts)),
     mkEState (requests st ++ reqs) (waits st ++ replicate (length reqs - 1) 100)) /\
  batching reqs (drop i texts).
Proof using Hw Hlive.
  remember (length texts - i)%nat as m eqn:Hm. revert i acc st Hm.
  induction m as [m IH] using lt_wf_ind. intros i acc st Hm.
  rewrite embed_loop_equation_1. destruct (lt_dec i (length texts)) as [Hlt|Hge]; simpl.
  2:{ exists []. rewrite drop_ge by lia. destruct st. simpl. rewrite !app_nil_r.
      split; [reflexivity | repeat split; constructor]. }
  set (stop := Nat.min (i + maxBatchSize) (length texts)).
  set (batch := take (stop - i) (drop i texts)).
  erewrite bind_ok by (apply wrap_ok, embedBatch_honest).
  assert (Hsplit : batch ++ drop (i + maxBatchSize) texts = drop i texts).
  { unfold batch, stop. destruct (Nat.min_spec (i + maxBatchSize) (length texts)) as [[Hm1 ->]|[Hm1 ->]].
    - replace (i + maxBatchSize - i)%nat with maxBatchSize by lia. apply drop_split.
    - rewrite take_ge, (drop_ge _ (i + _)), app_nil_r by (rewrite ?length_drop; lia). done. }
  destruct (decide (stop < length texts)%nat) as [Hs|Hs].
  - erewrite bind_ok by (apply wait_live, Hlive).
    destruct (IH (length texts - (i + maxBatchSize))%nat ltac:(unfold maxBatchSize in *; lia)
      (i + maxBatchSize)%nat (acc ++ map f batch)
      (mkEState (requests (sent batch st)) (waits (sent batch st) ++ [100])) eq_refl)
      as [reqs [Hrun Hb]].
    assert (Hne : drop (i + maxBatchSize) texts <> []).
    { intros Hd. apply (f_equal length) in Hd. rewrite length_drop in Hd. simpl in Hd. lia. }
    assert (Hlen : length batch = maxBatchSize).
    { unfold batch, stop in *. rewrite length_take, length_drop. lia. }
    exists (batch :: reqs). rewrite Hrun, <- Hsplit, map_app, app_assoc. simpl.
    destruct reqs as [|r reqs]; [by destruct Hne, Hb as [<- _] |].
    rewrite <- !app_assoc. split; [simpl; by rewrite !Nat.sub_0_r |]. by apply batching_cons.
  - erewrite bind_ok by reflexivity.
    destruct (IH (length texts - (i + maxBatchSize))%nat ltac:(unfold maxBatchSize in *; lia)
      (i + maxBatchSize)%nat (acc ++ map f batch) (sent batch st) eq_refl) as [reqs [Hrun Hb]].
    rewrite drop_ge in Hb by (unfold stop in Hs; lia).
    apply batching_nil_inv in Hb as ->.
    rewrite drop_ge in Hsplit by (unfold stop in Hs; lia). rewrite app_nil_r in Hsplit.
    exists [batch]. rewrite Hrun, <- Hsplit, drop_ge, app_nil_r, app_nil_r by (unfold stop in Hs; lia).
    split; [reflexivity |]. apply batching_last.
    unfold batch, stop. rewrite length_take, length_drop. unfold maxBatchSize in *. lia.
Qed.

End HonestRun.

(** ** Retries *)

Lemma read_reply_state b r st : snd (read_reply b r st) = st.
Proof. destruct r as [[s bd] cl]. simpl. repeat case_match; reflexivity. Qed.

(** ** Any reply: the shape of a successful result *)

Lemma bind_ok_inv {A B} (m : M A) (k : A -> M B) st b st' :
  (m ≫= k) st = (Ok b, st') -> exists a st1, m st = (Ok a, st1) /\ k a st1 = (Ok b, st').
Proof. unfold mbind, M_bind. destruct (m st) as [[a|e] st1]; [eauto | discriminate]. Qed.

Lemma wrap_ok_inv {A} g (m : M A) st a st' : wrap g m st = (Ok a, st') -> m st = (Ok a, st').
Proof. unfold wrap. destruct (m st) as [[a'|[]] s']; congruence. Qed.

Lemma embedBatch_shape w b st vs st' :
  embedBatch w b st = (Ok vs, st') ->
  length vs = length b /\ Forall (fun v => zlen v = embeddingDimension) vs.
Proof.
  unfold embedBatch. intros H. apply bind_ok_inv in H as ([[s bd] cl] & st1 & _ & H).
  unfold read_reply in H. destruct bd as [| | |data [e|]], cl; try discriminate.
  destruct (negb _); [discriminate |]. injection H as H _. by apply (reassemble_shape _ data).
Qed.

Lemma embed_loop_shape w texts i acc st vs st' :
  embed_loop w texts i acc st = (Ok vs, st') ->
  length vs = (length acc + (length texts - i))%nat /\
  (Forall (fun v => zlen v = embeddingDimension) acc ->
   Forall (fun v => zlen v = embeddingDimension) vs).
Proof.
  remember (length texts - i)%nat as m eqn:Hm. revert i acc st Hm.
  induction m as [m IH] using lt_wf_ind. intros i acc st Hm H.
  rewrite embed_loop_equation_1 in H. destruct (lt_dec i (length texts)) as [Hlt|Hge]; simpl in H.
  - apply bind_ok_inv in H as (es & st1 & Hb & H).
    apply wrap_ok_inv, embedBatch_shape in Hb as [Hl Hd].
    apply bind_ok_inv in H as (u & st2 & _ & H).
    apply (IH (length texts - (i + maxBatchSize))%nat) in H as [Hl' Hd'];
      [| unfold maxBatchSize in *; lia | reflexivity].
    rewrite length_app, Hl, length_take, length_drop in Hl'.
    split; [unfold maxBatchSize in *; lia |].
    intros Ha. apply Hd'. by apply Forall_app_2.
  - injection H as <- _. split; [lia | done].
Qed.

(** ** Replies the reassembly rejects *)

Lemma place_app slots pre rest :
  Forall (item_ok (length slots)) pre -> place slots (pre ++ rest) = place (foldl put slots pre) rest.
Proof.
  induction pre as [|it pre IH] in slots |- *; intros Hok; [reflexivity |].
  apply Forall_cons in Hok as [[Hi Hd] Hrest]. simpl.
  rewrite (proj2 (Z.leb_gt _ _)) by (unfold zlen; lia). rewrite Hd, Z.eqb_refl.
  rewrite (proj2 (Z.ltb_ge _ _)) by lia.
  apply IH. unfold put. rewrite length_insert. exact Hrest.
Qed.

Lemma lookup_foldl_put_ne slots data k :
  (forall it, it ∈ data -> key it <> k) -> foldl put slots data !! k = slots !! k.
Proof.
  induction data as [|it data IH] in slots |- *; intros Hk; [reflexivity |]. simpl.
  rewrite IH by (intros; apply Hk; set_solver).
  apply list_lookup_insert_ne. apply Hk. set_solver.
Qed.

Lemma lookup_foldl_put_filled slots data k v :
  slots !! k = Some (Some v) -> exists v', foldl put slots data !! k = Some (Some v').
Proof.
  induction data as [|it data IH] in slots, v |- *; simpl; intros Hk; [eauto |].
  destruct (decide (key it = k)) as [<-|Hne].
  - eapply IH. unfold put. apply list_lookup_insert_eq. by eapply lookup_lt_Some.
  - eapply IH. unfold put. rewrite list_lookup_insert_ne by done. exact Hk.
Qed.

Lemma lookup_foldl_put_key slots data it :
  it ∈ data -> (key it < length slots)%nat ->
  exists v, foldl put slots data !! key it = Some (Some v).
Proof.
  induction data as [|it' data IH] in slots |- *; intros Hin Hlt; [set_solver |]. simpl.
  apply elem_of_cons in Hin as [->|Hin].
  - eapply lookup_foldl_put_filled. unfold put. by apply list_lookup_insert_eq.
  - apply IH; [exact Hin |]. unfold put. by rewrite length_insert.
Qed.

(** The check loop stops at the first empty slot. *)
Lemma check_all_none i slots k :
  slots !! k = Some None -> exists k', check_all i slots = Err (ErrMissing (i + k')) /\ slots !! k' = Some None.
Proof.
  induction slots as [|[v|] slots IH] in i, k |- *; intros Hk; [discriminate | |].
  - destruct k as [|k]; [discriminate |]. simpl in Hk.
    destruct (IH (S i) k Hk) as [k' [Hc Hk']]. exists (S k'). simpl. rewrite Hc.
    rewrite Nat.add_succ_r. split; [reflexivity | exact Hk'].
  - exists 0%nat. split; [simpl; by rewrite Nat.add_0_r | reflexivity].
Qed.

Lemma place_negative slots it rest :
  item_index it < 0 -> zlen (item_embedding it) = embeddingDimension ->
  place slots (it :: rest) = Err (PanicIndexOutOfRange (item_index it)).
Proof.
  intros Hi Hd. simpl. pose proof (zlen_nonneg slots).
  rewrite (proj2 (Z.leb_gt _ _)) by lia. rewrite Hd, Z.eqb_refl.
  rewrite (proj2 (Z.ltb_lt _ _)) by lia. reflexivity.
Qed.

Lemma wrap_panic {A} g (m : M A) st i st' :
  m st = (Err (PanicIndexOutOfRange i), st') -> wrap g m st = (Err (PanicIndexOutOfRange i), st').
Proof. intros H. unfold wrap. by rewrite H. Qed.

Lemma embedBatch_ok_reply w b st data :
  provider w (length (requests st)) b = HttpResponse 200 (BodyJSON data None) ->
  embedBatch w b st = (reassemble (length b) data, sent b st).
Proof.
  intros Hp. unfold embedBatch. erewrite bind_ok by (apply retry_pass; [exact Hp | lia]).
  reflexivity.
Qed.


Lemma Embed_loop w texts : texts <> [] -> Embed w texts = embed_loop w texts 0 [].
Proof. by destruct texts. Qed.

(** ** The client's properties *)

(** A run of [Embed] against an honest provider in a live context. *)
Lemma Embed_honest_run f w texts st :
  honest f w -> live w ->
  exists reqs,
    Embed w texts st =
      (Ok (map f texts),
       mkEState (requests st ++ reqs) (waits st ++ replicate (length reqs - 1) 100)) /\
    batching reqs texts.
Proof.
  intros Hw Hl. destruct texts as [|t ts].
  - exists []. destruct st. simpl. rewrite !app_nil_r.
    split; [reflexivity | repeat split; constructor].
  - destruct (embed_loop_honest f w Hw Hl (t :: ts) 0 [] st) as [reqs [Hrun Hb]].
    exists reqs. split; [exact Hrun | exact Hb].
Qed.

(** C2: [Embed] refines the spec's [embed]: with a provider that embeds
    each text as [f t] and answers in any order, and a live context, the
    result is [map f texts] in input order; the requests sent are the
    texts cut into batches of at most 100 (all but the last full), and
    the client waits 100 ms between consecutive batches and nowhere else.
    The empty input sends nothing. *)
Theorem Embed_refines f w texts st :
  honest f w -> live w ->
  exists reqs,
    Embed w texts st =
      (Ok (map f texts),
       mkEState (requests st ++ reqs) (waits st ++ replicate (length reqs - 1) 100)) /\
    batching reqs texts.
Proof. exact (Embed_honest_run f w texts st). Qed.

(** The shape of a successful [Embed]. *)
Lemma Embed_ok_shape w texts st vs st' :
  Embed w texts st = (Ok vs, st') ->
  length vs = length texts /\ Forall (fun v => zlen v = embeddingDimension) vs.
Proof.
  destruct texts as [|t ts]; simpl; intros H.
  - by injection H as <- _.
  - apply embed_loop_shape in H as [Hl Hd]. split; [simpl in *; lia | by apply Hd].
Qed.

(** C19: whatever the provider answers, a successful [Embed] returns one
    vector per input text, each of dimension 1536. *)
Theorem Embed_shape w texts st vs st' :
  Embed w texts st = (Ok vs, st') ->
  length vs = length texts /\ Forall (fun v => zlen v = embeddingDimension) vs.
Proof. exact (Embed_ok_shape w texts st vs st'). Qed.


(** A first reply that is not a 429 (a transport error, an API
    error, any other status) is never retried: one request, no wait. *)
Theorem embedBatch_no_retry w b st :
  (forall bd, provider w (length (requests st)) b <> HttpResponse 429 bd) ->
  snd (embedBatch w b st) = sent b st.
Proof.
  intros Hn. unfold embedBatch.
  destruct (provider w (length (requests st)) b) as [|s bd] eqn:Hp.
  - by erewrite bind_err by (apply retry_transport; exact Hp).
  - assert (s <> 429) by (intros ->; by apply (Hn bd)).
    erewrite bind_ok by (apply retry_pass; [exact Hp | done]). apply read_reply_state.
Qed.

(** An error object in the reply is surfaced with the provider's
    message and type, after a single attempt. *)
Theorem embedBatch_api_error w b st s data e :
  provider w (length (requests st)) b = HttpResponse s (BodyJSON data (Some e)) -> s <> 429 ->
  embedBatch w b st = (Err (ErrAPI (err_message e) (err_type e)), sent b st).
Proof.
  intros Hp Hs. unfold embedBatch.
  by erewrite bind_ok by (apply retry_pass; [exact Hp | done]).
Qed.

(** When a position of the batch is missing from an otherwise
    valid reply, reassembly fails with "missing embedding for index k"
    for a position [k] that is indeed missing. *)
Theorem reassemble_missing n data k :
  Forall (item_ok n) data -> (k < n)%nat -> (forall it, it ∈ data -> key it <> k) ->
  exists k', reassemble n data = Err (ErrMissing k') /\ (k' < n)%nat /\
             forall it, it ∈ data -> key it <> k'.
Proof.
  intros Hok Hk Hmiss. unfold reassemble.
  rewrite place_fold by (by rewrite length_replicate). simpl.
  assert (Hnone : foldl put (replicate n None) data !! k = Some None).
  { rewrite lookup_foldl_put_ne by exact Hmiss. by apply lookup_replicate_2. }
  destruct (check_all_none 0 _ _ Hnone) as [k' [Hc Hk']]. rewrite Hc.
  exists k'. split; [reflexivity |].
  pose proof (lookup_lt_Some _ _ _ Hk') as Hlt. rewrite length_foldl_put, length_replicate in Hlt.
  split; [exact Hlt |]. intros it Hin Heq. subst k'.
  destruct (lookup_foldl_put_key (replicate n None) data it Hin) as [v Hv].
  - rewrite length_replicate. exact Hlt.
  - congruence.
Qed.

(** A vector of the wrong dimension, met before any other error,
    fails the reassembly with the dimension it has. *)
Theorem reassemble_dimension n pre it post :
  Forall (item_ok n) pre -> 0 <= item_index it < Z.of_nat n ->
  zlen (item_embedding it) <> embeddingDimension ->
  reassemble n (pre ++ it :: post) = Err (ErrDimension (zlen (item_embedding it))).
Proof.
  intros Hpre Hi Hd. unfold reassemble.
  rewrite place_app by (by rewrite length_replicate). simpl.
  rewrite (proj2 (Z.leb_gt _ _)) by (unfold zlen; rewrite length_foldl_put, length_replicate; lia).
  apply Z.eqb_neq in Hd. by rewrite Hd.
Qed.

(** C27: a reply item with a negative index passes both checks of the
    loop and makes [embeddings[item.Index]] panic; [Embed] does not turn
    the panic into an error. *)
Theorem Embed_negative_index_panics w texts st it rest :
  texts <> [] ->
  (forall b, provider w (length (requests st)) b = HttpResponse 200 (BodyJSON (it :: rest) None)) ->
  item_index it < 0 -> zlen (item_embedding it) = embeddingDimension ->
  fst (Embed w texts st) = Err (PanicIndexOutOfRange (item_index it)).
Proof.
  intros Hne Hp Hi Hd. rewrite Embed_loop by exact Hne.
  rewrite embed_loop_equation_1. destruct (lt_dec 0 (length texts)) as [Hlt|Hge];
    [| destruct texts; [done | simpl in Hge; lia]]. simpl.
  erewrite bind_err; [reflexivity |].
  apply wrap_panic. rewrite (embedBatch_ok_reply _ _ _ (it :: rest)) by apply Hp.
  unfold reassemble. by rewrite place_negative.
Qed.

(** A cancellation during the pause between two batches aborts
    [Embed] with the context's error, unwrapped, after the first batch. *)
Theorem Embed_pause_cancelled f w texts st :
  honest f w -> cancelled w (length (waits st)) = true -> (maxBatchSize < length texts)%nat ->
  Embed w texts st =
    (Err ErrContext, mkEState (requests st ++ [take maxBatchSize texts]) (waits st ++ [100])).
Proof.
  intros Hw Hc Hlen. rewrite Embed_loop by (intros ->; simpl in Hlen; lia).
  rewrite embed_loop_equation_1. destruct (lt_dec 0 (length texts)) as [Hlt|Hge];
    [| lia]. cbn -[Nat.min maxBatchSize]. rewrite Nat.min_l by lia.
  erewrite bind_ok by (apply wrap_ok, (embedBatch_honest f w Hw)).
  rewrite decide_True by lia.
  erewrite bind_err by (apply wait_cancelled; exact Hc).
  rewrite Nat.sub_0_r. reflexivity.
Qed.

(** ** Examples *)

Lemma sample_honest c : honest sample_f (mkWorld sample_provider c).
Proof.
  split.
  - intros n b. eexists. split; [reflexivity | apply reverse_Permutation].
  - intros t. unfold zlen, sample_f. by rewrite length_replicate.
Qed.

Lemma Embed_refines_witness :
  honest sample_f sample_world /\ live sample_world /\
  exists reqs,
    Embed sample_world sample_texts st0 =
      (Ok (map sample_f sample_texts),
       mkEState (requests st0 ++ reqs) (waits st0 ++ replicate (length reqs - 1) 100)) /\
    batching reqs sample_texts.
Proof.
  assert (Hw : honest sample_f sample_world) by apply sample_honest.
  assert (Hl : live sample_world) by (intros n; reflexivity).
  split; [exact Hw | split; [exact Hl |]].
  exact (Embed_refines sample_f sample_world sample_texts st0 Hw Hl).
Defined.

Lemma Embed_shape_witness :
  Embed sample_world [[1]; [2; 3]] st0 = (Ok (map sample_f [[1]; [2; 3]]), mkEState [[[1]; [2; 3]]] []) /\
  length (map sample_f [[1]; [2; 3]]) = length [[1]; [2; 3]] /\
  Forall (fun v => zlen v = embeddingDimension) (map sample_f [[1]; [2; 3]]).
Proof.
  assert (E : Embed sample_world [[1]; [2; 3]] st0 =
              (Ok (map sample_f [[1]; [2; 3]]), mkEState [[[1]; [2; 3]]] [])) by (vm_compute; reflexivity).
  split; [exact E |]. exact (Embed_shape _ _ _ _ _ E).
Defined.


Lemma embedBatch_no_retry_witness :
  snd (embedBatch (mkWorld (fun _ _ => HttpResponse 500 BodyMalformed) (fun _ => false)) [[1]] st0) =
  sent [[1]] st0.
Proof. apply embedBatch_no_retry. intros bd. discriminate. Defined.

Lemma embedBatch_api_error_witness :
  embedBatch (mkWorld (fun _ _ => HttpResponse 401 (BodyJSON [] (Some (mkApiError
      "Incorrect API key provided" "invalid_request_error" "invalid_api_key")))) (fun _ => false))
    [[1]] st0 =
  (Err (ErrAPI "Incorrect API key provided" "invalid_request_error"), sent [[1]] st0).
Proof.
  apply (embedBatch_api_error _ _ _ 401 [] (mkApiError
    "Incorrect API key provided" "invalid_request_error" "invalid_api_key"));
    [reflexivity | discriminate].
Defined.

Lemma reassemble_missing_witness :
  exists k', reassemble 2 [mkItem (sample_f [7]) 0] = Err (ErrMissing k') /\ (k' < 2)%nat /\
    forall it, it ∈ [mkItem (sample_f [7]) 0] -> key it <> k'.
Proof.
  apply (reassemble_missing 2 [mkItem (sample_f [7]) 0] 1).
  - repeat constructor; vm_compute; discriminate.
  - lia.
  - intros it Hin. apply list_elem_of_singleton in Hin as ->. vm_compute. lia.
Defined.

Lemma reassemble_dimension_witness :
  reassemble 1 ([] ++ mkItem [1; 2; 3] 0 :: []) = Err (ErrDimension 3).
Proof.
  apply (reassemble_dimension 1 [] (mkItem [1; 2; 3] 0) []).
  - constructor.
  - simpl. lia.
  - vm_compute. discriminate.
Defined.

Lemma Embed_negative_index_panics_witness :
  fst (Embed (mkWorld (fun _ _ => HttpResponse 200 (BodyJSON [mkItem (sample_f [7]) (-1)] None))
                      (fun _ => false)) [[7]] st0) =
  Err (PanicIndexOutOfRange (-1)).
Proof.
  apply (Embed_negative_index_panics _ _ _ (mkItem (sample_f [7]) (-1)) []).
  - discriminate.
  - intros b. reflexivity.
  - simpl. lia.
  - vm_compute. reflexivity.
Defined.

Lemma Embed_pause_cancelled_witness :
  Embed cancelled_world sample_texts st0 =
    (Err ErrContext, mkEState (requests st0 ++ [take maxBatchSize sample_texts]) (waits st0 ++ [100])).
Proof.
  apply (Embed_pause_cancelled sample_f).
  - apply sample_honest.
  - reflexivity.
  - apply Nat.ltb_lt. vm_compute. reflexivity.
Defined.

End Embeddings.
