(* ===== verification/Store.v ===== *)
(** * Store: the SQLite document store of src/internal/storage/database.go

    Module [Store] models the two tables the code creates in
    [runMigrations] as lists of rows in rowid order ([documents] and
    [chunks] of [DB]), with the AUTOINCREMENT counters of
    [sqlite_sequence] and the [foreign_keys] pragma of the connection
    (the code declares [ON DELETE CASCADE] but never enables the
    pragma, which SQLite leaves off).  Each method of [Database] is one
    definition: [IndexDocument] (one transaction: delete by source,
    insert the document, insert each chunk with its serialised
    embedding, commit), [Search], [ListDocuments], [DeleteDocument] and
    [DocumentExists].  The failures of the driver (a busy database, a
    full disk, ...) are a fault oracle [fail : db_op -> bool] naming
    the statements that fail; a failed transaction is rolled back,
    which restores the state.  SQLite's [vec_distance_cosine] is the
    section variable [score_of] (the score [1 - distance] of a stored
    blob against the query blob), [CURRENT_TIMESTAMP] the argument
    [now].

    The abstract view [abs] maps each source to what a reader can see
    of its document: the metadata row and, through the join of
    [Search], the chunk rows that point at it.  The theorems prove the
    well-formedness invariant [wf] preserved by every operation, the
    refinement of [IndexDocument] and [DeleteDocument] into
    [insert]/[delete] on that view (whatever fails), and the
    functional behaviour of [Search] (filter, ordering, limit, then
    the minimum score). *)

From Stdlib Require Import QArith Sorted Lqa.
From stdpp Require Import strings gmap.
From S2P Require Import Prelude Text Codec.
Open Scope Z_scope.

Module Store.
Import Codec.

(** [type Document struct]: one row of the [documents] table. *)
Record Document := mkDocument {
  ID : Z;
  Source : string;
  SourceType : string;
  IndexedAt : Z;
  ContentSize : Z;
  ChunkCount : Z;
  Title : string
}.

(** [type Chunk struct]: what the caller hands to [IndexDocument]. *)
Record Chunk := mkChunk {
  cID : Z;
  DocumentID : Z;
  ChunkIndex : Z;
  Content : list rune;
  StartOffset : Z;
  EndOffset : Z;
  Embedding : list float32
}.

(** One row of the [chunks] table: the embedding is stored as a blob. *)
Record ChunkRow := mkChunkRow {
  row_id : Z;
  row_document_id : Z;
  row_chunk_index : Z;
  row_content : list rune;
  row_start_offset : Z;
  row_end_offset : Z;
  row_embedding : list byte
}.

(** [type SearchResult struct]. *)
Record SearchResult := mkSearchResult {
  rContent : list rune;
  rSource : string;
  rChunkIndex : Z;
  rScore : Q
}.

(** The database: both tables in rowid order, the AUTOINCREMENT
    counters, and the [foreign_keys] pragma of the connection. *)
Record DB := mkDB {
  documents : list Document;
  chunks : list ChunkRow;
  doc_seq : Z;
  chunk_seq : Z;
  foreign_keys : bool
}.

(** What [NewDatabase] leaves after [runMigrations] on a fresh file:
    empty tables, and the pragma at SQLite's default (off). *)
Definition empty_db : DB := mkDB [] [] 0 0 false.

(** The statements of the code, for the fault oracle. *)
Inductive db_op :=
| OpBegin | OpDeleteExisting | OpInsertDocument | OpLastInsertId
| OpPrepareChunkInsert | OpInsertChunk (i : nat) | OpCommit
| OpSearchQuery | OpListQuery | OpDeleteDocument | OpRowsAffected | OpExistsQuery.

#[export] Instance db_op_eq_dec : EqDecision db_op.
Proof. solve_decision. Defined.

(** The errors the methods return (by the message they wrap). *)
Inductive store_error :=
| ErrBeginTransaction | ErrDeleteExisting | ErrInsertDocument | ErrGetDocumentID
| ErrPrepareChunkInsert | ErrSerializeEmbedding | ErrInsertChunk | ErrCommit
| ErrQueryDimension (got : Z) | ErrSerializeQuery | ErrSearchQuery
| ErrListDocuments | ErrDeleteDocument | ErrRowsAffected | ErrNotFound (source : string)
| ErrExists.

Definition guard {A} (fail : db_op -> bool) (op : db_op) (err : store_error) (x : A)
  : result store_error A := if fail op then Err err else Ok x.

(** [DELETE FROM documents WHERE source = ?], with the cascade to
    [chunks] only when the pragma enforces foreign keys. *)
Definition delete_by_source (source : string) (db : DB) : DB * nat :=
  let gone := filter (fun d => Source d = source) (documents db) in
  let kept := filter (fun d => Source d <> source) (documents db) in
  let chunks' := if foreign_keys db
                 then filter (fun c => row_document_id c ∉ map ID gone) (chunks db)
                 else chunks db in
  (mkDB kept chunks' (doc_seq db) (chunk_seq db) (foreign_keys db), length gone).

(** [INSERT INTO documents (...) VALUES (...)]: the new rowid comes from
    the AUTOINCREMENT counter. *)
Definition insert_document (now : Z) (source sourceType : string) (contentSize chunkCount : Z)
    (title : string) (db : DB) : Z * DB :=
  let id := doc_seq db + 1 in
  (id, mkDB (documents db ++ [mkDocument id source sourceType now contentSize chunkCount title])
            (chunks db) id (chunk_seq db) (foreign_keys db)).

(** [stmt.Exec(documentID, ...)] for one chunk. *)
Definition insert_chunk_row (documentID : Z) (ch : Chunk) (blob : list byte) (db : DB) : DB :=
  let id := chunk_seq db + 1 in
  mkDB (documents db)
       (chunks db ++ [mkChunkRow id documentID (ChunkIndex ch) (Content ch)
                                  (StartOffset ch) (EndOffset ch) blob])
       (doc_seq db) id (foreign_keys db).

(** The [for _, chunk := range chunks] loop of [IndexDocument]. *)
Fixpoint insert_chunks (fail : db_op -> bool) (documentID : Z) (i : nat) (chs : list Chunk)
    (db : DB) : result store_error DB :=
  match chs with
  | [] => Ok db
  | ch :: chs =>
      match serializeEmbedding (Embedding ch) with
      | Err _ => Err ErrSerializeEmbedding
      | Ok blob =>
          db ← guard fail (OpInsertChunk i) ErrInsertChunk (insert_chunk_row documentID ch blob db);
          insert_chunks fail documentID (S i) chs db
      end
  end.

(** [contentSize += len(chunk.Content)]: [len] counts UTF-8 bytes. *)
Definition content_size (chs : list Chunk) : Z :=
  fold_right (fun ch n => str_len (Content ch) + n) 0 chs.

(** [IndexDocument]: the transaction runs on a working copy of the
    state; an error rolls it back ([defer tx.Rollback()]). *)
Definition IndexDocument (fail : db_op -> bool) (now : Z) (source sourceType title : string)
    (chs : list Chunk) (db : DB) : result store_error unit * DB :=
  let tx :=
    tx ← guard fail OpBegin ErrBeginTransaction db;
    tx ← guard fail OpDeleteExisting ErrDeleteExisting (delete_by_source source tx).1;
    '(documentID, tx) ← guard fail OpInsertDocument ErrInsertDocument
        (insert_document now source sourceType (content_size chs) (zlen chs) title tx);
    _ ← guard fail OpLastInsertId ErrGetDocumentID tt;
    _ ← guard fail OpPrepareChunkInsert ErrPrepareChunkInsert tt;
    tx ← insert_chunks fail documentID 0 chs tx;
    guard fail OpCommit ErrCommit tx in
  match tx with
  | Ok db' => (Ok tt, db')
  | Err e => (Err e, db)
  end.

Definition DocumentExists (fail : db_op -> bool) (source : string) (db : DB) : result store_error bool :=
  guard fail OpExistsQuery ErrExists (bool_decide (source ∈ map Source (documents db))).

(** [DeleteDocument]: one autocommitted statement. *)
Definition DeleteDocument (fail : db_op -> bool) (source : string) (db : DB) : result store_error unit * DB :=
  if fail OpDeleteDocument then (Err ErrDeleteDocument, db)
  else
    let '(db', rowsAffected) := delete_by_source source db in
    if fail OpRowsAffected then (Err ErrRowsAffected, db')
    else if decide (rowsAffected = 0%nat) then (Err (ErrNotFound source), db')
    else (Ok tt, db').

Section Query.

(** [1 - vec_distance_cosine(c.embedding, ?)] computed by sqlite-vec. *)
Variable score_of : list byte -> list byte -> Q.

(** [JOIN documents d ON c.document_id = d.id]. *)
Definition doc_of (db : DB) (c : ChunkRow) : option Document :=
  List.find (fun d => bool_decide (ID d = row_document_id c)) (documents db).

(** The rows of the join, with the optional [AND d.source = ?]. *)
Definition candidates (queryBlob : list byte) (sourceFilter : string) (db : DB) : list SearchResult :=
  omap (fun c =>
          match doc_of db c with
          | Some d =>
              if bool_decide (sourceFilter = "" \/ Source d = sourceFilter)
              then Some (mkSearchResult (row_content c) (Source d) (row_chunk_index c)
                                        (score_of (row_embedding c) queryBlob))
              else None
          | None => None
          end) (chunks db).

(** [ORDER BY score DESC], as a stable insertion sort (SQLite leaves
    the order of equal scores unspecified). *)
Fixpoint insert_desc (r : SearchResult) (l : list SearchResult) : list SearchResult :=
  match l with
  | [] => [r]
  | r' :: l' => if Qle_bool (rScore r') (rScore r) then r :: r' :: l' else r' :: insert_desc r l'
  end.

Definition sort_desc (l : list SearchResult) : list SearchResult := fold_right insert_desc [] l.

(** [LIMIT ?]: SQLite reads a negative limit as no limit. *)
Definition limit {A} (n : Z) (l : list A) : list A := if n <? 0 then l else take (Z.to_nat n) l.

(** [Search]. *)
Definition Search (fail : db_op -> bool) (queryEmbedding : list float32) (topK : Z)
    (minScore : Q) (sourceFilter : string) (db : DB) : result store_error (list SearchResult) :=
  if negb (zlen queryEmbedding =? embeddingDimension)
  then Err (ErrQueryDimension (zlen queryEmbedding))
  else
    match serializeEmbedding queryEmbedding with
    | Err _ => Err ErrSerializeQuery
    | Ok queryBlob =>
        rows ← guard fail OpSearchQuery ErrSearchQuery
                 (limit topK (sort_desc (candidates queryBlob sourceFilter db)));
        Ok (filter (fun r => Qle_bool minScore (rScore r) = true) rows)
    end.

End Query.

(** [ORDER BY indexed_at DESC], stable on equal timestamps. *)
Fixpoint insert_by_time (d : Document) (l : list Document) : list Document :=
  match l with
  | [] => [d]
  | d' :: l' => if IndexedAt d' <=? IndexedAt d then d :: d' :: l' else d' :: insert_by_time d l'
  end.

(** [ListDocuments]. *)
Definition ListDocuments (fail : db_op -> bool) (sourceTypeFilter : string) (db : DB)
    : result store_error (list Document) :=
  guard fail OpListQuery ErrListDocuments
    (fold_right insert_by_time []
       (filter (fun d => sourceTypeFilter = "" \/ SourceType d = sourceTypeFilter) (documents db))).

(** ** The abstract view *)

(** The chunk rows a join on [documents.id = id] reaches. *)
Definition chunks_of (db : DB) (id : Z) : list ChunkRow :=
  filter (fun c => row_document_id c = id) (chunks db).

(** What a reader sees of one document. *)
Record AbsDoc := mkAbsDoc {
  a_type : string;
  a_indexed_at : Z;
  a_size : Z;
  a_count : Z;
  a_title : string;
  a_chunks : list (Z * list rune * Z * Z * list byte)
}.

Definition chunk_view (c : ChunkRow) : Z * list rune * Z * Z * list byte :=
  (row_chunk_index c, row_content c, row_start_offset c, row_end_offset c, row_embedding c).

Definition abs_doc (db : DB) (d : Document) : AbsDoc :=
  mkAbsDoc (SourceType d) (IndexedAt d) (ContentSize d) (ChunkCount d) (Title d)
           (map chunk_view (chunks_of db (ID d))).

Definition abs (db : DB) : gmap string AbsDoc :=
  list_to_map (map (fun d => (Source d, abs_doc db d)) (documents db)).

(** How an input chunk is seen once stored. *)
Definition input_view (ch : Chunk) : Z * list rune * Z * Z * list byte :=
  (ChunkIndex ch, Content ch, StartOffset ch, EndOffset ch, List.concat (map put_uint32 (Embedding ch))).

(** The document [IndexDocument] promises to make visible. *)
Definition indexed_doc (now : Z) (sourceType title : string) (chs : list Chunk) : AbsDoc :=
  mkAbsDoc sourceType now (content_size chs) (zlen chs) title (map input_view chs).

(** Sample data for the concrete runs: two documents indexed in turn,
    and a score that only looks at the blob length. *)
Definition sample_db : DB :=
  (IndexDocument (fun _ => false) 6 "b.md" "content" ""
        [mkChunk 0 0 0 (of_ascii "beta") 0 4 (replicate 1536 2)]
        (IndexDocument (fun _ => false) 5 "a.txt" "file" ""
           [mkChunk 0 0 0 (of_ascii "alpha") 0 5 (replicate 1536 1);
            mkChunk 0 0 1 (of_ascii "gamma") 5 10 (replicate 1536 3)] empty_db).2).2.

Definition sample_score (blob query : list byte) : Q := Z.of_nat (length blob) # 7000.

(** The well-formedness invariant: sources are unique, row ids below
    their counters, and live document ids distinct. *)
Definition wf (db : DB) : Prop :=
  NoDup (map Source (documents db)) /\
  NoDup (map ID (documents db)) /\
  Forall (fun d => 0 < ID d <= doc_seq db) (documents db) /\
  Forall (fun c => row_document_id c <= doc_seq db) (chunks db) /\
  0 <= doc_seq db.

#[export] Instance wf_dec db : Decision (wf db).
Proof. unfold wf. apply _. Defined.

(** ** Maps built from document lists *)

Section AbsLemmas.

Lemma list_to_map_snoc {V} (l : list (string * V)) k v :
  k ∉ l.*1 -> (list_to_map (l ++ [(k, v)]) : gmap string V) = <[k:=v]> (list_to_map l).
Proof.
  induction l as [|[k' v'] l IH]; intros Hk; simpl; [reflexivity |].
  simpl in Hk. rewrite not_elem_of_cons in Hk. destruct Hk as [Hne Hk].
  rewrite IH by exact Hk. apply insert_insert_ne. done.
Qed.

Lemma list_to_map_filter_ne {V} (l : list (string * V)) k :
  (list_to_map (filter (fun p => p.1 <> k) l) : gmap string V) = delete k (list_to_map l).
Proof.
  induction l as [|[k' v'] l IH]; simpl; [by rewrite delete_empty |].
  rewrite filter_cons. simpl. case_decide as Hk.
  - simpl. rewrite IH. by rewrite delete_insert_ne.
  - subst k'. by rewrite IH, delete_insert_eq.
Qed.

(** [abs] depends only on the documents and on the chunks each one
    reaches. *)
Lemma abs_ext db1 db2 :
  documents db1 = documents db2 ->
  (forall d, d ∈ documents db1 -> chunks_of db1 (ID d) = chunks_of db2 (ID d)) ->
  abs db1 = abs db2.
Proof.
  intros Hd Hc. unfold abs. rewrite <- Hd. f_equal. apply map_ext_in.
  intros d Hin. unfold abs_doc. rewrite (Hc d); [reflexivity |]. by apply list_elem_of_In.
Qed.

Lemma nodup_map_eq {A B} (f : A -> B) (l : list A) x y :
  NoDup (map f l) -> x ∈ l -> y ∈ l -> f x = f y -> x = y.
Proof.
  induction l as [|z l IH]; intros Hnd Hx Hy Hf; [set_solver |].
  simpl in Hnd. apply NoDup_cons in Hnd as [Hz Hnd].
  apply elem_of_cons in Hx as [-> | Hx]; apply elem_of_cons in Hy as [-> | Hy]; auto.
  - exfalso. apply Hz. rewrite Hf. apply list_elem_of_In, in_map, list_elem_of_In, Hy.
  - exfalso. apply Hz. rewrite <- Hf. apply list_elem_of_In, in_map, list_elem_of_In, Hx.
Qed.

Lemma filter_filter_impl {A} (P Q : A -> Prop) `{forall x, Decision (P x)} `{forall x, Decision (Q x)}
    (l : list A) :
  (forall x, x ∈ l -> P x -> Q x) -> filter P (filter Q l) = filter P l.
Proof.
  induction l as [|x l IH]; intros Himp; [reflexivity |].
  rewrite !filter_cons. destruct (decide (Q x)) as [Hq | Hq].
  - rewrite filter_cons. case_decide; rewrite IH by (intros; apply Himp; set_solver); reflexivity.
  - case_decide as Hp; [exfalso; apply Hq, Himp; set_solver |]. apply IH. intros; apply Himp; set_solver.
Qed.

Lemma abs_filter_docs (docs : list Document) (f : Document -> AbsDoc) s :
  (list_to_map (map (fun d => (Source d, f d)) (filter (fun d => Source d <> s) docs)) : gmap string AbsDoc)
  = delete s (list_to_map (map (fun d => (Source d, f d)) docs)).
Proof.
  induction docs as [|d docs IH]; simpl; [by rewrite delete_empty |].
  rewrite filter_cons. case_decide as Hk.
  - simpl. rewrite IH. by rewrite delete_insert_ne.
  - rewrite IH, Hk. by rewrite delete_insert_eq.
Qed.

End AbsLemmas.

(** ** The steps of the transaction *)

Lemma delete_by_source_docs s db :
  documents (delete_by_source s db).1 = filter (fun d => Source d <> s) (documents db).
Proof. reflexivity. Qed.

(** Deleting by source removes exactly that source from the view, with
    or without the cascade: the rows left behind point at an id no
    remaining document has. *)
Lemma delete_by_source_abs s db :
  wf db -> abs (delete_by_source s db).1 = delete s (abs db).
Proof.
  intros (Hsrc & Hid & _). unfold abs. rewrite delete_by_source_docs.
  rewrite <- abs_filter_docs. f_equal. apply map_ext_in. intros d Hd.
  apply list_elem_of_In, list_elem_of_filter in Hd as [Hne Hd].
  f_equal. unfold abs_doc. do 2 f_equal. unfold chunks_of, delete_by_source. simpl.
  destruct (foreign_keys db); [| reflexivity].
  apply filter_filter_impl. intros c _ Hc Hin.
  apply list_elem_of_fmap in Hin as (g & Hg & Hgin).
  apply list_elem_of_filter in Hgin as [Hgs Hgin].
  assert (g = d) as -> by (apply (nodup_map_eq ID (documents db)); auto; congruence).
  contradiction.
Qed.



Lemma nodup_map_filter {A B} (f : A -> B) (P : A -> Prop) `{forall x, Decision (P x)} (l : list A) :
  NoDup (map f l) -> NoDup (map f (filter P l)).
Proof.
  induction l as [|x l IH]; intros Hnd; [constructor |].
  simpl in Hnd. apply NoDup_cons in Hnd as [Hx Hnd].
  rewrite filter_cons. case_decide; [| auto]. simpl. constructor; [| auto].
  intros Hin. apply Hx. apply list_elem_of_In in Hin. apply list_elem_of_In.
  apply in_map_iff in Hin as (y & Hy & Hyin). apply in_map_iff. exists y.
  split; [exact Hy |]. apply list_elem_of_In in Hyin. apply list_elem_of_filter in Hyin.
  apply list_elem_of_In. tauto.
Qed.

Lemma delete_by_source_wf s db : wf db -> wf (delete_by_source s db).1.
Proof.
  intros (Hsrc & Hid & Hb & Hc & Hseq). unfold delete_by_source. simpl.
  split; [by apply nodup_map_filter |]. split; [by apply nodup_map_filter |].
  split; [apply Forall_filter_sub; exact Hb |]. split; [| exact Hseq].
  destruct (foreign_keys db); [apply Forall_filter_sub |]; exact Hc.
Qed.

(** The row [insert_document] appends. *)
Definition new_document (db : DB) (now : Z) (source sourceType : string) (cs n : Z) (title : string) :=
  mkDocument (doc_seq db + 1) source sourceType now cs n title.

(** The loop of chunk inserts, when it succeeds, appends one row per
    chunk, all pointing at [documentID], and touches nothing else. *)
Lemma insert_chunks_ok fail documentID i chs db db' :
  insert_chunks fail documentID i chs db = Ok db' ->
  documents db' = documents db /\ doc_seq db' = doc_seq db /\ foreign_keys db' = foreign_keys db /\
  exists rows, chunks db' = chunks db ++ rows /\ map chunk_view rows = map input_view chs /\
               Forall (fun r => row_document_id r = documentID) rows.
Proof.
  revert i db. induction chs as [|ch chs IH]; intros i db Hins; simpl in Hins.
  - injection Hins as <-. repeat split; auto. exists []. rewrite app_nil_r. auto.
  - unfold guard in Hins. destruct (fail (OpInsertChunk i)); [discriminate |].
    cbn in Hins. apply IH in Hins as (Hd & Hs & Hf & rows & Hc & Hv & Hr).
    simpl in Hd, Hs, Hf, Hc. repeat split; auto.
    exists (mkChunkRow (chunk_seq db + 1) documentID (ChunkIndex ch) (Content ch)
              (StartOffset ch) (EndOffset ch) (List.concat (map put_uint32 (Embedding ch))) :: rows).
    rewrite Hc, <- app_assoc. split; [reflexivity |]. split; [simpl; rewrite Hv; reflexivity |].
    constructor; [reflexivity | exact Hr].
Qed.

(** Without faults the loop of chunk inserts succeeds. *)
Lemma insert_chunks_nofail documentID i chs db :
  exists db', insert_chunks (fun _ => false) documentID i chs db = Ok db'.
Proof.
  revert i db. induction chs as [|ch chs IH]; intros i db; simpl; [eauto |]. apply IH.
Qed.

(** Without faults [IndexDocument] commits. *)
Lemma IndexDocument_nofail now s st t chs db :
  exists db', IndexDocument (fun _ => false) now s st t chs db = (Ok tt, db').
Proof.
  unfold IndexDocument, guard. cbn.
  destruct (insert_chunks_nofail (doc_seq (delete_by_source s db).1 + 1) 0 chs
    (insert_document now s st (content_size chs) (zlen chs) t (delete_by_source s db).1).2)
    as [db' Hins].
  simpl in Hins |- *. rewrite Hins. eauto.
Qed.

(** Appending a document under a fresh source and a fresh id, and rows
    pointing at that id, inserts the document into the view. *)
Lemma abs_append_doc db db' d rows :
  wf db -> ID d = doc_seq db + 1 -> Source d ∉ map Source (documents db) ->
  documents db' = documents db ++ [d] -> chunks db' = chunks db ++ rows ->
  Forall (fun r => row_document_id r = ID d) rows ->
  abs db' = <[Source d := mkAbsDoc (SourceType d) (IndexedAt d) (ContentSize d) (ChunkCount d)
                                    (Title d) (map chunk_view rows)]> (abs db).
Proof.
  intros (Hsrc & Hid & Hb & Hc & Hseq) Hd Hfresh Hdocs Hchunks Hrows.
  unfold abs. rewrite Hdocs, map_app. simpl.
  rewrite list_to_map_snoc.
  2: { intros Hin. apply Hfresh. apply list_elem_of_fmap in Hin as ([k v] & -> & Hin).
       apply list_elem_of_In, in_map_iff in Hin as (d' & Hd' & Hin). injection Hd' as <- _. simpl.
       apply list_elem_of_In, in_map, Hin. }
  rewrite Forall_forall in Hb. rewrite Forall_forall in Hc. rewrite Forall_forall in Hrows.
  f_equal.
  - unfold abs_doc, chunks_of. rewrite Hchunks, filter_app.
    rewrite filter_none by (intros c Hin Heq; specialize (Hc c Hin); lia).
    rewrite filter_all by (intros r Hin; apply Hrows, Hin). reflexivity.
  - f_equal. apply map_ext_in. intros d' Hin. apply list_elem_of_In in Hin.
    f_equal. unfold abs_doc, chunks_of. rewrite Hchunks, filter_app.
    rewrite (filter_none _ rows) by (intros r Hr Heq; rewrite (Hrows r Hr) in Heq; specialize (Hb d' Hin); lia).
    rewrite app_nil_r. reflexivity.
Qed.


(** A source is in the view exactly when a document row has it. *)
Lemma abs_lookup_is_Some db s : is_Some (abs db !! s) <-> s ∈ map Source (documents db).
Proof.
  unfold abs. induction (documents db) as [|d ds IH]; simpl.
  - rewrite lookup_empty. split; [intros [? ?]; discriminate | set_solver].
  - rewrite lookup_insert. case_decide as Hs; [subst; split; [set_solver | eauto] |].
    rewrite IH. set_solver.
Qed.

Lemma delete_by_source_count s db :
  (delete_by_source s db).2 = 0%nat <-> s ∉ map Source (documents db).
Proof.
  unfold delete_by_source. simpl. rewrite length_zero_iff_nil.
  split.
  - intros Hnil Hin. apply list_elem_of_In, in_map_iff in Hin as (d & Hd & Hin).
    apply (filter_nil_not_elem_of _ _ d Hnil Hd). by apply list_elem_of_In.
  - intros Hn. apply filter_none. intros d Hd Hs. apply Hn. subst s.
    apply list_elem_of_In, in_map, list_elem_of_In, Hd.
Qed.

(** Nothing is deleted when no row has the source. *)
Lemma delete_by_source_absent s db :
  s ∉ map Source (documents db) -> (delete_by_source s db).1 = db.
Proof.
  intros Hn. pose proof (proj2 (delete_by_source_count s db) Hn) as H0.
  unfold delete_by_source in *. simpl in *. apply length_zero_iff_nil in H0. rewrite H0.
  rewrite filter_all.
  2: { intros d Hd Hs. apply Hn. rewrite <- Hs. apply list_elem_of_In, in_map, list_elem_of_In, Hd. }
  destruct db as [docs chs seq cseq []]; simpl; [| reflexivity].
  rewrite filter_all by (intros c _; simpl; set_solver). reflexivity.
Qed.

Lemma delete_by_source_fresh s db : s ∉ map Source (documents (delete_by_source s db).1).
Proof.
  rewrite delete_by_source_docs. intros Hin.
  apply list_elem_of_In, in_map_iff in Hin as (d & Hd & Hin).
  apply list_elem_of_In, list_elem_of_filter in Hin as [Hne _]. contradiction.
Qed.

(** The outcomes of the [IndexDocument] transaction: committed, with
    the document deleted by source then appended with one row per
    chunk, or rolled back. *)
Lemma IndexDocument_cases fail now s st t chs db r db' :
  IndexDocument fail now s st t chs db = (r, db') ->
  (r = Ok tt /\ doc_seq db' = doc_seq db + 1 /\
   exists rows,
     documents db' = documents (delete_by_source s db).1 ++
                     [new_document db now s st (content_size chs) (zlen chs) t] /\
     chunks db' = chunks (delete_by_source s db).1 ++ rows /\
     map chunk_view rows = map input_view chs /\
     Forall (fun row => row_document_id row = doc_seq db + 1) rows) \/
  (exists e, r = Err e /\ db' = db).
Proof.
  unfold IndexDocument, guard.
  destruct (fail OpBegin); [intros [= <- <-]; right; eauto |]. cbn.
  destruct (fail OpDeleteExisting); [intros [= <- <-]; right; eauto |]. cbn.
  destruct (fail OpInsertDocument); [intros [= <- <-]; right; eauto |]. cbn.
  destruct (fail OpLastInsertId); [intros [= <- <-]; right; eauto |]. cbn.
  destruct (fail OpPrepareChunkInsert); [intros [= <- <-]; right; eauto |]. cbn.
  destruct (insert_chunks _ _ _ _ _) as [db1 | e] eqn:Hins; cbn; [| intros [= <- <-]; right; eauto].
  destruct (fail OpCommit); cbn; [intros [= <- <-]; right; eauto |].
  intros [= <- <-]. left. split; [reflexivity |].
  apply insert_chunks_ok in Hins as (Hd & Hs & _ & rows & Hc & Hv & Hr).
  simpl in Hd, Hs, Hc. split; [exact Hs |]. exists rows. auto.
Qed.

(** The view after [IndexDocument]: committed, or rolled back. *)
Lemma IndexDocument_view fail now s st t chs db r db' :
  wf db -> IndexDocument fail now s st t chs db = (r, db') ->
  (r = Ok tt /\ abs db' = <[s := indexed_doc now st t chs]> (abs db)) \/
  (exists e, r = Err e /\ db' = db).
Proof.
  intros Hwf Hix.
  destruct (IndexDocument_cases _ _ _ _ _ _ _ _ _ Hix) as [(-> & _ & rows & Hd & Hc & Hv & Hr) | Herr];
    [left | right; exact Herr].
  split; [reflexivity |].
  rewrite (abs_append_doc (delete_by_source s db).1 db'
             (new_document db now s st (content_size chs) (zlen chs) t) rows
             (delete_by_source_wf s db Hwf) eq_refl (delete_by_source_fresh s db) Hd Hc Hr).
  rewrite delete_by_source_abs by exact Hwf. rewrite insert_delete_eq.
  unfold indexed_doc. simpl. rewrite Hv. reflexivity.
Qed.

(** C1: [IndexDocument] commits exactly "replace the document of this
    source by the new one, with exactly the given chunks", or fails and
    leaves the database as it was: a reindex is never half done,
    whichever statement fails. *)
Theorem IndexDocument_refines fail now s st t chs db r db' :
  wf db -> IndexDocument fail now s st t chs db = (r, db') ->
  (r = Ok tt /\ abs db' = <[s := indexed_doc now st t chs]> (abs db)) \/
  (exists e, r = Err e /\ db' = db).
Proof. exact (IndexDocument_view fail now s st t chs db r db'). Qed.

(** [IndexDocument] keeps [wf]. *)
Lemma IndexDocument_inv fail now s st t chs db :
  wf db -> wf (IndexDocument fail now s st t chs db).2.
Proof.
  intros Hwf. destruct (IndexDocument fail now s st t chs db) as [r db'] eqn:Hix. simpl.
  destruct (IndexDocument_cases _ _ _ _ _ _ _ _ _ Hix) as [(_ & Hseq & rows & Hd & Hc & _ & Hr) | (e & _ & ->)];
    [| exact Hwf].
  pose proof (delete_by_source_wf s db Hwf) as (Hsrc & Hid & Hb & Hcb & Hs0).
  simpl in Hb, Hcb, Hs0.
  pose proof (delete_by_source_fresh s db) as Hfresh.
  assert (Hidf : doc_seq db + 1 ∉ map ID (documents (delete_by_source s db).1)).
  { intros Hin. apply list_elem_of_In, in_map_iff in Hin as (d & Hd' & Hin).
    apply list_elem_of_In in Hin. rewrite Forall_forall in Hb. specialize (Hb d Hin). lia. }
  split; [| split; [| split; [| split]]]; rewrite ?Hd, ?Hc, ?Hseq, ?map_app; simpl.
  - apply NoDup_app. split; [exact Hsrc |]. split; [| apply NoDup_singleton].
    intros x Hx Hx'. apply list_elem_of_singleton in Hx'. subst. contradiction.
  - apply NoDup_app. split; [exact Hid |]. split; [| apply NoDup_singleton].
    intros x Hx Hx'. apply list_elem_of_singleton in Hx'. subst. contradiction.
  - apply Forall_app. split; [| constructor; [simpl; lia | constructor]].
    eapply Forall_impl; [exact Hb | simpl; lia].
  - apply Forall_app. split; [eapply Forall_impl; [exact Hcb | simpl; lia] |].
    eapply Forall_impl; [exact Hr | simpl; lia].
  - lia.
Qed.

(** C24: [IndexDocument] preserves the invariant, whatever fails. *)
Theorem IndexDocument_wf fail now s st t chs db :
  wf db -> wf (IndexDocument fail now s st t chs db).2.
Proof. exact (IndexDocument_inv fail now s st t chs db). Qed.

(** The view after [DeleteDocument], by outcome. *)
Lemma DeleteDocument_view fail s db r db' :
  wf db -> DeleteDocument fail s db = (r, db') ->
  (r = Ok tt /\ is_Some (abs db !! s) /\ abs db' = delete s (abs db)) \/
  (r = Err (ErrNotFound s) /\ abs db !! s = None /\ db' = db) \/
  (r = Err ErrDeleteDocument /\ db' = db) \/
  (r = Err ErrRowsAffected /\ abs db' = delete s (abs db)).
Proof.
  intros Hwf. unfold DeleteDocument.
  destruct (fail OpDeleteDocument); [intros [= <- <-]; right; right; left; auto |].
  destruct (delete_by_source s db) as [db1 n] eqn:Hdel.
  pose proof (delete_by_source_abs s db Hwf) as Habs. rewrite Hdel in Habs. simpl in Habs.
  destruct (fail OpRowsAffected); [intros [= <- <-]; right; right; right; auto |].
  pose proof (delete_by_source_count s db) as Hcount. rewrite Hdel in Hcount. simpl in Hcount.
  case_decide as Hn; intros [= <- <-].
  - right; left. apply Hcount in Hn. split; [reflexivity |].
    split; [destruct (abs db !! s) eqn:E; [| reflexivity]; exfalso; apply Hn, abs_lookup_is_Some; eauto |].
    pose proof (delete_by_source_absent s db Hn) as Hid. rewrite Hdel in Hid. exact Hid.
  - left. split; [reflexivity |]. split; [| exact Habs].
    apply abs_lookup_is_Some. destruct (decide (s ∈ map Source (documents db))); [assumption |].
    exfalso. apply Hn, Hcount. assumption.
Qed.

(** C17: [DeleteDocument] removes an existing source from the view and
    reports [ErrNotFound] (changing nothing) for an absent one; a
    failure of the statement itself changes nothing either. *)
Theorem DeleteDocument_refines fail s db r db' :
  wf db -> DeleteDocument fail s db = (r, db') ->
  (r = Ok tt /\ is_Some (abs db !! s) /\ abs db' = delete s (abs db)) \/
  (r = Err (ErrNotFound s) /\ abs db !! s = None /\ db' = db) \/
  (r = Err ErrDeleteDocument /\ db' = db) \/
  (r = Err ErrRowsAffected /\ abs db' = delete s (abs db)).
Proof. exact (DeleteDocument_view fail s db r db'). Qed.

(** [DeleteDocument] keeps [wf]. *)
Lemma DeleteDocument_inv fail s db : wf db -> wf (DeleteDocument fail s db).2.
Proof.
  intros Hwf. unfold DeleteDocument. destruct (fail OpDeleteDocument); [exact Hwf |].
  pose proof (delete_by_source_wf s db Hwf) as Hw.
  destruct (delete_by_source s db) as [db1 n]. simpl in Hw.
  destruct (fail OpRowsAffected); [exact Hw |]. case_decide; exact Hw.
Qed.

(** [DeleteDocument] preserves the invariant. *)
Theorem DeleteDocument_wf fail s db : wf db -> wf (DeleteDocument fail s db).2.
Proof. exact (DeleteDocument_inv fail s db). Qed.

(** ** Ranking *)

Definition desc (a b : SearchResult) : Prop := (rScore b <= rScore a)%Q.

Lemma insert_desc_perm r l : insert_desc r l ≡ₚ r :: l.
Proof.
  induction l as [|r' l IH]; simpl; [reflexivity |].
  destruct (Qle_bool _ _); [reflexivity |]. rewrite IH. apply Permutation_swap.
Qed.

Lemma sort_desc_perm l : sort_desc l ≡ₚ l.
Proof. induction l as [|r l IH]; simpl; [reflexivity |]. rewrite insert_desc_perm, IH. reflexivity. Qed.

Lemma insert_desc_sorted r l : StronglySorted desc l -> StronglySorted desc (insert_desc r l).
Proof.
  induction 1 as [|r' l Hl IH Hf]; simpl; [repeat constructor |].
  destruct (Qle_bool (rScore r') (rScore r)) eqn:Hq.
  - apply Qle_bool_iff in Hq. constructor; [constructor; assumption |].
    constructor; [exact Hq |]. eapply Forall_impl; [exact Hf |]. unfold desc. intros x Hx. lra.
  - constructor; [exact IH |].
    apply Forall_forall. intros x Hx. rewrite (insert_desc_perm r l) in Hx.
    apply elem_of_cons in Hx as [-> | Hx].
    + unfold desc. destruct (Qlt_le_dec (rScore r) (rScore r')) as [? | Hle]; [lra |].
      apply Qle_bool_iff in Hle. congruence.
    + rewrite Forall_forall in Hf. apply Hf, Hx.
Qed.

Lemma sort_desc_sorted l : StronglySorted desc (sort_desc l).
Proof. induction l as [|r l IH]; simpl; [constructor | apply insert_desc_sorted, IH]. Qed.

Lemma sorted_take {A} (R : A -> A -> Prop) n l : StronglySorted R l -> StronglySorted R (take n l).
Proof.
  intros Hs. revert n. induction Hs as [|a l Hl IH Hf]; intros [|n]; simpl; try constructor.
  - apply IH.
  - apply Forall_forall. intros x Hx. rewrite Forall_forall in Hf. apply Hf.
    by apply (subseteq_take n).
Qed.

Lemma sorted_filter {A} (R : A -> A -> Prop) (P : A -> Prop) `{forall x, Decision (P x)} l :
  StronglySorted R l -> StronglySorted R (filter P l).
Proof.
  induction 1 as [|a l Hl IH Hf]; [constructor |]. rewrite filter_cons.
  case_decide; [| exact IH]. constructor; [exact IH |]. by apply Forall_filter_sub.
Qed.

(** In a list ranked by decreasing score, a prefix holds every element
    scoring strictly more than one of its members. *)
Lemma sorted_prefix_closed n l x y :
  StronglySorted desc l -> x ∈ take n l -> y ∈ l -> (rScore x < rScore y)%Q -> y ∈ take n l.
Proof.
  intros Hs. revert n. induction Hs as [|a l Hl IH Hf]; intros [|n] Hx Hy Hlt; simpl in *;
    try (inversion Hx; fail).
  apply elem_of_cons in Hy as [-> | Hy]; [left |].
  apply elem_of_cons. right.
  apply elem_of_cons in Hx as [-> | Hx].
  - rewrite Forall_forall in Hf. specialize (Hf y Hy). unfold desc in Hf. lra.
  - apply IH; assumption.
Qed.

Lemma limit_sorted {A} (R : A -> A -> Prop) n l : StronglySorted R l -> StronglySorted R (limit n l).
Proof. unfold limit. destruct (n <? 0); [auto | apply sorted_take]. Qed.

Lemma limit_prefix_closed n l x y :
  StronglySorted desc l -> x ∈ limit n l -> y ∈ l -> (rScore x < rScore y)%Q -> y ∈ limit n l.
Proof. unfold limit. destruct (n <? 0); [auto | apply sorted_prefix_closed]. Qed.

Lemma limit_subseteq {A} n (l : list A) x : x ∈ limit n l -> x ∈ l.
Proof. unfold limit. destruct (n <? 0); [auto | apply subseteq_take]. Qed.

(** [Search], when it succeeds, ranks the join of [queryBlob]. *)
Lemma Search_ok score_of fail q topK minScore sf db rs :
  Search score_of fail q topK minScore sf db = Ok rs ->
  zlen q = embeddingDimension /\
  rs = filter (fun r => Qle_bool minScore (rScore r) = true)
         (limit topK (sort_desc (candidates score_of (List.concat (map put_uint32 q)) sf db))).
Proof.
  unfold Search, guard. destruct (Z.eqb_spec (zlen q) embeddingDimension); simpl; [| discriminate].
  destruct (fail OpSearchQuery); simpl; [discriminate |]. intros [= <-]. auto.
Qed.

Lemma candidates_spec score_of qb sf db x :
  x ∈ candidates score_of qb sf db ->
  exists c d, c ∈ chunks db /\ doc_of db c = Some d /\ rSource x = Source d /\
              (sf = "" \/ Source d = sf) /\ d ∈ documents db.
Proof.
  unfold candidates. intros Hx. apply list_elem_of_omap in Hx as (c & Hc & Hx).
  destruct (doc_of db c) as [d|] eqn:Hd; [| discriminate].
  case_bool_decide as Hf; [| discriminate]. injection Hx as <-.
  exists c, d. split; [exact Hc |]. split; [exact Hd |]. split; [reflexivity |].
  split; [exact Hf |]. unfold doc_of in Hd. apply find_some in Hd as [Hin _].
  by apply list_elem_of_In.
Qed.

(** A document of the table is what the view shows at its source. *)
Lemma abs_lookup_doc db d : wf db -> d ∈ documents db -> abs db !! Source d = Some (abs_doc db d).
Proof.
  intros (Hnd & _) Hd. unfold abs. apply elem_of_list_to_map.
  - rewrite <- (map_fmap fst), map_map. exact Hnd.
  - rewrite map_fmap. exact (list_elem_of_fmap_2 (fun d => (Source d, abs_doc db d)) _ d Hd).
Qed.

(** Every row of the join is a chunk of the document the view shows at
    its source. *)
Lemma candidates_in_view score_of qb sf db x :
  wf db -> x ∈ candidates score_of qb sf db ->
  exists a, abs db !! rSource x = Some a /\
    exists c, c ∈ a_chunks a /\ c.1.1.1.1 = rChunkIndex x /\ c.1.1.1.2 = rContent x.
Proof.
  intros Hwf Hx. unfold candidates in Hx. apply list_elem_of_omap in Hx as (c & Hc & Hx).
  destruct (doc_of db c) as [d|] eqn:Hd; [| discriminate].
  case_bool_decide; [| discriminate]. injection Hx as <-. simpl.
  unfold doc_of in Hd. apply find_some in Hd as [Hin Hid]. apply bool_decide_eq_true in Hid.
  exists (abs_doc db d). split; [apply abs_lookup_doc; [exact Hwf | by apply list_elem_of_In] |].
  exists (chunk_view c). split; [| split; reflexivity].
  unfold abs_doc, chunks_of. simpl. rewrite map_fmap. apply list_elem_of_fmap_2.
  apply list_elem_of_filter. split; [symmetry; exact Hid | exact Hc].
Qed.

(** Every result of [Search] is a chunk of the document the view shows
    at its source. *)
Lemma Search_in_view score_of fail q topK minScore sf db rs x :
  wf db -> Search score_of fail q topK minScore sf db = Ok rs -> x ∈ rs ->
  exists a, abs db !! rSource x = Some a /\
    exists c, c ∈ a_chunks a /\ c.1.1.1.1 = rChunkIndex x /\ c.1.1.1.2 = rContent x.
Proof.
  intros Hwf H Hx. apply Search_ok in H as [_ ->].
  apply list_elem_of_filter in Hx as [_ Hx]. apply limit_subseteq in Hx. rewrite (sort_desc_perm _) in Hx.
  exact (candidates_in_view _ _ _ _ _ Hwf Hx).
Qed.

(** What a caller may rely on: at most [topK] results, each reaching
    the minimum score. *)
Lemma Search_bounded score_of fail q topK minScore sf db rs :
  Search score_of fail q topK minScore sf db = Ok rs -> 0 <= topK ->
  (length rs <= Z.to_nat topK)%nat /\ Forall (fun r => (minScore <= rScore r)%Q) rs.
Proof.
  intros H Hk. apply Search_ok in H as [_ ->]. split.
  - unfold limit. destruct (Z.ltb_spec topK 0); [lia |].
    etransitivity; [apply length_filter |]. rewrite length_take. lia.
  - apply Forall_forall. intros r Hr. apply list_elem_of_filter in Hr as [Hr _].
    by apply Qle_bool_iff.
Qed.

(** C25: the results of [Search] come in decreasing score order. *)
Theorem Search_sorted score_of fail q topK minScore sf db rs :
  Search score_of fail q topK minScore sf db = Ok rs -> StronglySorted desc rs.
Proof.
  intros H. apply Search_ok in H as [_ ->].
  apply sorted_filter, limit_sorted, sort_desc_sorted.
Qed.

(** A non-negative [topK] bounds the number of results. *)
Theorem Search_limit score_of fail q topK minScore sf db rs :
  0 <= topK -> Search score_of fail q topK minScore sf db = Ok rs -> (length rs <= Z.to_nat topK)%nat.
Proof.
  intros Hk H. apply Search_ok in H as [_ ->]. unfold limit.
  destruct (Z.ltb_spec topK 0); [lia |].
  etransitivity; [apply length_filter |]. rewrite length_take. lia.
Qed.

(** C26: every result reaches the minimum score, comes from a live
    document, and from the filtered source when a filter is given. *)
Theorem Search_results score_of fail q topK minScore sf db rs :
  Search score_of fail q topK minScore sf db = Ok rs ->
  forall x, x ∈ rs ->
  (minScore <= rScore x)%Q /\ rSource x ∈ map Source (documents db) /\
  (sf <> "" -> rSource x = sf).
Proof.
  intros H x Hx. apply Search_ok in H as [_ ->].
  apply list_elem_of_filter in Hx as [Hmin Hx]. apply Qle_bool_iff in Hmin.
  apply limit_subseteq in Hx. rewrite (sort_desc_perm _) in Hx.
  destruct (candidates_spec _ _ _ _ _ Hx) as (c & d & _ & _ & Hs & Hf & Hd).
  split; [exact Hmin |]. split.
  - rewrite Hs. apply list_elem_of_In, in_map, list_elem_of_In, Hd.
  - intros Hne. destruct Hf; [contradiction | congruence].
Qed.

(** C10: the minimum score only trims the end of the ranking: a row of
    the join scoring strictly more than a returned result is returned
    too.  (A row ranked past [topK] is never returned, even above the
    minimum score: the filter runs after the limit.) *)
Theorem Search_prefix score_of fail q topK minScore sf db rs x y :
  Search score_of fail q topK minScore sf db = Ok rs ->
  x ∈ rs -> y ∈ candidates score_of (List.concat (map put_uint32 q)) sf db ->
  (rScore x < rScore y)%Q -> y ∈ rs.
Proof.
  intros H Hx Hy Hlt. apply Search_ok in H as [_ ->].
  apply list_elem_of_filter in Hx as [Hmin Hx]. apply list_elem_of_filter.
  split.
  - apply Qle_bool_iff. apply Qle_bool_iff in Hmin. lra.
  - apply (limit_prefix_closed _ _ x); [apply sort_desc_sorted | exact Hx | | exact Hlt].
    by rewrite (sort_desc_perm _).
Qed.

(** a query vector of the wrong dimension is rejected before any
    statement runs. *)
Theorem Search_dimension score_of fail q topK minScore sf db :
  zlen q <> embeddingDimension ->
  Search score_of fail q topK minScore sf db = Err (ErrQueryDimension (zlen q)).
Proof. intros Hq. unfold Search. destruct (Z.eqb_spec (zlen q) embeddingDimension); [lia | reflexivity]. Qed.

(** C31: once [DeleteDocument] succeeds, no search returns a chunk of
    that source, whether or not its chunk rows were removed. *)
Theorem Search_after_delete score_of fail fail' s db db' q topK minScore sf rs :
  wf db -> DeleteDocument fail s db = (Ok tt, db') ->
  Search score_of fail' q topK minScore sf db' = Ok rs ->
  forall x, x ∈ rs -> rSource x <> s.
Proof.
  intros Hwf Hdel Hs x Hx Heq.
  destruct (Search_results _ _ _ _ _ _ _ _ Hs x Hx) as (_ & Hsrc & _).
  assert (Hgone : s ∉ map Source (documents db')).
  { unfold DeleteDocument in Hdel. destruct (fail OpDeleteDocument); [discriminate |].
    pose proof (delete_by_source_fresh s db) as Hf.
    destruct (delete_by_source s db) as [db1 n]. destruct (fail OpRowsAffected); [discriminate |].
    case_decide; [discriminate |]. injection Hdel as <-. exact Hf. }
  rewrite Heq in Hsrc. contradiction.
Qed.

(** C32: the code relies on [ON DELETE CASCADE] but never enables
    [PRAGMA foreign_keys]; on a connection where it is off (SQLite's
    default) deleting a document leaves every chunk row in place. *)
Theorem DeleteDocument_orphans fail s db r db' :
  foreign_keys db = false -> DeleteDocument fail s db = (r, db') -> chunks db' = chunks db.
Proof.
  intros Hfk. unfold DeleteDocument. destruct (fail OpDeleteDocument); [intros [= _ <-]; reflexivity |].
  unfold delete_by_source. rewrite Hfk. simpl.
  destruct (fail OpRowsAffected); [intros [= _ <-]; reflexivity |].
  case_decide; intros [= _ <-]; reflexivity.
Qed.

(** [DocumentExists] reads the view. *)
Lemma DocumentExists_view fail s db b :
  DocumentExists fail s db = Ok b -> (b = true <-> is_Some (abs db !! s)).
Proof.
  unfold DocumentExists, guard. destruct (fail OpExistsQuery); [discriminate |].
  intros [= <-]. rewrite abs_lookup_is_Some. apply bool_decide_eq_true.
Qed.

(** [DocumentExists] answers whether the source is in the view. *)
Theorem DocumentExists_spec fail s db b :
  DocumentExists fail s db = Ok b -> (b = true <-> is_Some (abs db !! s)).
Proof. exact (DocumentExists_view fail s db b). Qed.



(** ** Witnesses *)

Lemma IndexDocument_refines_witness :
  let '(r, db') := IndexDocument (fun _ => false) 5 "notes.txt" "file" ""
                     [mkChunk 0 0 0 (of_ascii "hello") 0 5 (replicate 1536 7)] empty_db in
  (r = Ok tt /\ abs db' = <["notes.txt" := indexed_doc 5 "file" ""
                              [mkChunk 0 0 0 (of_ascii "hello") 0 5 (replicate 1536 7)]]> (abs empty_db)) \/
  (exists e, r = Err e /\ db' = empty_db).
Proof.
  destruct (IndexDocument _ _ _ _ _ _ _) as [r db'] eqn:E.
  eapply IndexDocument_refines; [| exact E]. apply (bool_decide_unpack _). vm_compute. reflexivity.
Defined.

Lemma IndexDocument_wf_witness :
  wf (IndexDocument (fun op => bool_decide (op = OpInsertChunk 1)) 5 "notes.txt" "file" ""
        [mkChunk 0 0 0 (of_ascii "hello") 0 5 (replicate 1536 7)] empty_db).2.
Proof. apply IndexDocument_wf. apply (bool_decide_unpack _). vm_compute. reflexivity. Defined.

Lemma DeleteDocument_refines_witness :
  let db := (IndexDocument (fun _ => false) 5 "notes.txt" "file" ""
               [mkChunk 0 0 0 (of_ascii "hello") 0 5 (replicate 1536 7)] empty_db).2 in
  let '(r, db') := DeleteDocument (fun _ => false) "notes.txt" db in
  (r = Ok tt /\ is_Some (abs db !! "notes.txt") /\ abs db' = delete "notes.txt" (abs db)) \/
  (r = Err (ErrNotFound "notes.txt") /\ abs db !! "notes.txt" = None /\ db' = db) \/
  (r = Err ErrDeleteDocument /\ db' = db) \/
  (r = Err ErrRowsAffected /\ abs db' = delete "notes.txt" (abs db)).
Proof.
  intros db. destruct (DeleteDocument _ _ _) as [r db'] eqn:E.
  eapply DeleteDocument_refines; [| exact E]. apply (bool_decide_unpack _). vm_compute. reflexivity.
Defined.

Lemma DeleteDocument_wf_witness :
  wf (DeleteDocument (fun _ => false) "notes.txt"
        (IndexDocument (fun _ => false) 5 "notes.txt" "file" ""
           [mkChunk 0 0 0 (of_ascii "hello") 0 5 (replicate 1536 7)] empty_db).2).2.
Proof. apply DeleteDocument_wf. apply (bool_decide_unpack _). vm_compute. reflexivity. Defined.

Lemma DocumentExists_spec_witness :
  true = true <-> is_Some (abs (IndexDocument (fun _ => false) 5 "notes.txt" "file" ""
           [mkChunk 0 0 0 (of_ascii "hello") 0 5 (replicate 1536 7)] empty_db).2 !! "notes.txt").
Proof. eapply (DocumentExists_spec (fun _ => false)). vm_compute. reflexivity. Defined.

Lemma Search_sorted_witness :
  exists rs, Search sample_score (fun _ => false) (replicate 1536 0) 2 (3 # 10) "" sample_db = Ok rs /\
             StronglySorted desc rs.
Proof.
  eexists; split; [vm_compute; reflexivity |].
  apply (Search_sorted sample_score (fun _ => false) (replicate 1536 0) 2 (3 # 10) "" sample_db). vm_compute. reflexivity.
Defined.

Lemma Search_limit_witness :
  exists rs, Search sample_score (fun _ => false) (replicate 1536 0) 2 (3 # 10) "" sample_db = Ok rs /\
             (length rs <= Z.to_nat 2)%nat.
Proof.
  eexists; split; [vm_compute; reflexivity |].
  apply (Search_limit sample_score (fun _ => false) (replicate 1536 0) 2 (3 # 10) "" sample_db); [lia | vm_compute; reflexivity].
Defined.

Lemma Search_results_witness :
  exists rs, Search sample_score (fun _ => false) (replicate 1536 0) 5 (3 # 10) "a.txt" sample_db = Ok rs /\
  forall x, x ∈ rs ->
  ((3 # 10) <= rScore x)%Q /\ rSource x ∈ map Source (documents sample_db) /\ ("a.txt" <> "" -> rSource x = "a.txt").
Proof.
  eexists; split; [vm_compute; reflexivity |].
  apply (Search_results sample_score (fun _ => false) (replicate 1536 0) 5 (3 # 10) "a.txt" sample_db). vm_compute. reflexivity.
Defined.

Lemma Search_prefix_witness :
  exists rs, Search sample_score (fun _ => false) (replicate 1536 0) 1 (3 # 10) "" sample_db = Ok rs /\
  forall x y, x ∈ rs -> y ∈ candidates sample_score (List.concat (map put_uint32 (replicate 1536 0))) "" sample_db ->
  (rScore x < rScore y)%Q -> y ∈ rs.
Proof.
  eexists; split; [vm_compute; reflexivity |].
  intros x y. apply (Search_prefix sample_score (fun _ => false) (replicate 1536 0) 1 (3 # 10) "" sample_db). vm_compute. reflexivity.
Defined.

Lemma Search_dimension_witness :
  Search sample_score (fun _ => false) [1; 2; 3] 5 (3 # 10) "" sample_db = Err (ErrQueryDimension 3).
Proof. apply (Search_dimension sample_score (fun _ => false) [1; 2; 3]). vm_compute. discriminate. Defined.

Lemma Search_after_delete_witness :
  exists rs, Search sample_score (fun _ => false) (replicate 1536 0) 5 0 ""
               (DeleteDocument (fun _ => false) "a.txt" sample_db).2 = Ok rs /\
  forall x, x ∈ rs -> rSource x <> "a.txt".
Proof.
  eexists; split; [vm_compute; reflexivity |].
  eapply (Search_after_delete sample_score (fun _ => false) (fun _ => false) "a.txt" sample_db
     (DeleteDocument (fun _ => false) "a.txt" sample_db).2 (replicate 1536 0) 5 0 "").
  - apply (bool_decide_unpack _). vm_compute. reflexivity.
  - vm_compute. reflexivity.
  - vm_compute. reflexivity.
Defined.

Lemma DeleteDocument_orphans_witness :
  chunks (DeleteDocument (fun _ => false) "a.txt" sample_db).2 = chunks sample_db.
Proof.
  apply (DeleteDocument_orphans (fun _ => false) "a.txt"
sample_db
           (DeleteDocument (fun _ => false) "a.txt" sample_db).1); [vm_compute; reflexivity |].
  destruct (DeleteDocument _ _ _); reflexivity.
Defined.

End Store.
