(* ===== verification/Listing.v ===== *)
(** * Listing: [ListDocuments] of src/internal/storage/database.go

    [ListDocuments] is one query: the documents of the requested source
    type (all of them for the empty filter), [ORDER BY indexed_at DESC].
    [Store.ListDocuments] models the [WHERE] clause as a filter and the
    ordering as the insertion sort [insert_by_time].  The lemmas relate
    the result to the abstract view [Store.abs]: on a well-formed
    database the query either fails, or lists exactly the documents a
    reader sees under the filter, each once, newest first.  [Service]
    makes this the store's list law, which the list tool's theorem
    ([Tools.handleList_refines]) is proved from. *)

From stdpp Require Import strings gmap sorting.
From S2P Require Import Prelude Text Codec Store.
Open Scope Z_scope.

Module Listing.
Import Store.

(** The order [ORDER BY indexed_at DESC] promises. *)
Definition newer (a b : Document) : Prop := IndexedAt b <= IndexedAt a.

(** The filter of the [WHERE] clause, on the view. *)
Definition listed (sourceTypeFilter : string) (sd : string * AbsDoc) : Prop :=
  sourceTypeFilter = "" \/ a_type sd.2 = sourceTypeFilter.

#[export] Instance listed_dec f sd : Decision (listed f sd).
Proof. unfold listed. apply _. Defined.

(** What a [documents] row says of its document: the view without the
    chunk rows. *)
Definition doc_meta (d : Document) : AbsDoc :=
  mkAbsDoc (SourceType d) (IndexedAt d) (ContentSize d) (ChunkCount d) (Title d) [].

Definition strip (a : AbsDoc) : AbsDoc :=
  mkAbsDoc (a_type a) (a_indexed_at a) (a_size a) (a_count a) (a_title a) [].

(** ** Lemmas *)

Lemma insert_by_time_perm d l : insert_by_time d l ≡ₚ d :: l.
Proof.
  induction l as [|d' l IH]; simpl; [reflexivity |].
  destruct (_ <=? _); [reflexivity |]. rewrite IH. apply Permutation_swap.
Qed.

Lemma insert_by_time_sorted d l : StronglySorted newer l -> StronglySorted newer (insert_by_time d l).
Proof.
  induction 1 as [|d' l Hl IH Hf]; simpl; [repeat constructor |].
  destruct (Z.leb_spec (IndexedAt d') (IndexedAt d)) as [Hle | Hgt].
  - constructor; [constructor; assumption |].
    constructor; [exact Hle |]. eapply Forall_impl; [exact Hf |]. unfold newer. intros x Hx. lia.
  - constructor; [exact IH |].
    apply Forall_forall. intros x Hx. rewrite (insert_by_time_perm d l) in Hx.
    apply elem_of_cons in Hx as [-> | Hx]; [unfold newer; lia |].
    rewrite Forall_forall in Hf. exact (Hf x Hx).
Qed.

Lemma sort_by_time l :
  fold_right insert_by_time [] l ≡ₚ l /\ StronglySorted newer (fold_right insert_by_time [] l).
Proof.
  induction l as [|d l [Hp Hs]]; simpl; [split; constructor |].
  split; [rewrite insert_by_time_perm, Hp; reflexivity | exact (insert_by_time_sorted d _ Hs)].
Qed.

(** [list_to_map] commutes with a filter when the keys are distinct. *)
Lemma list_to_map_filter {V} (P : string * V -> Prop) `{forall x, Decision (P x)} (l : list (string * V)) :
  NoDup l.*1 -> (list_to_map (filter P l) : gmap string V) = filter P (list_to_map l).
Proof.
  induction l as [|[k v] l IH]; intros Hn; simpl; [by rewrite map_filter_empty |].
  apply NoDup_cons in Hn as [Hk Hn]. rewrite filter_cons, map_filter_insert.
  case_decide; simpl; rewrite IH by exact Hn; [reflexivity |].
  rewrite delete_id; [reflexivity |]. by apply not_elem_of_list_to_map.
Qed.

Lemma filter_map_comm {A B} (f : A -> B) (P : B -> Prop) `{forall x, Decision (P x)} (l : list A) :
  filter P (map f l) = map f (filter (fun a => P (f a)) l).
Proof.
  induction l as [|a l IH]; simpl; [reflexivity |].
  rewrite !filter_cons. case_decide; simpl; rewrite IH; reflexivity.
Qed.

Lemma fst_map_docs db (l : list Document) : (map (fun d => (Source d, abs_doc db d)) l).*1 = map Source l.
Proof. induction l as [|d l IH]; simpl; [reflexivity | rewrite <- IH; reflexivity]. Qed.

(** ** Theorems *)

(** [ListDocuments] either fails as its query does, or returns exactly
    the documents a reader sees under the source-type filter (the empty
    filter keeps all): each once, with what the view records of it,
    newest first. *)
Lemma ListDocuments_abs fail filt db :
  wf db ->
  (fail OpListQuery = true /\ ListDocuments fail filt db = Err ErrListDocuments) \/
  (exists docs, ListDocuments fail filt db = Ok docs /\
     NoDup (map Source docs) /\ StronglySorted newer docs /\
     list_to_map (map (fun d => (Source d, abs_doc db d)) docs) = filter (listed filt) (abs db)).
Proof.
  intros (Hnd & _). unfold ListDocuments, guard.
  destruct (fail OpListQuery); [left; split; reflexivity | right].
  set (P := fun d : Document => filt = "" \/ SourceType d = filt).
  set (docs := filter P (documents db)).
  destruct (sort_by_time docs) as [Hp Hs].
  assert (Hnd' : NoDup (map Source docs)) by (apply nodup_map_filter; exact Hnd).
  eexists. split; [reflexivity |]. split; [| split; [exact Hs |]].
  - rewrite Hp. exact Hnd'.
  - rewrite (list_to_map_proper _ (map (fun d => (Source d, abs_doc db d)) docs)).
    + unfold abs. rewrite <- list_to_map_filter by (rewrite fst_map_docs; exact Hnd).
      rewrite filter_map_comm. reflexivity.
    + rewrite fst_map_docs, Hp. exact Hnd'.
    + rewrite Hp. reflexivity.
Qed.

(** The same, as the rows say it: the [documents] rows listed are the
    filtered view without its chunks. *)
Lemma ListDocuments_meta fail filt db docs :
  wf db -> ListDocuments fail filt db = Ok docs ->
  NoDup (map Source docs) /\ StronglySorted newer docs /\
  list_to_map (map (fun d => (Source d, doc_meta d)) docs) = strip <$> filter (listed filt) (abs db).
Proof.
  intros Hwf Hl.
  destruct (ListDocuments_abs fail filt db Hwf) as [[_ He] | (docs' & Hd & Hn & Hs & Hm)];
    rewrite Hl in *; [discriminate | simplify_eq].
  split; [exact Hn | split; [exact Hs |]].
  rewrite <- Hm, <- list_to_map_fmap. f_equal.
  rewrite <- list_fmap_compose. reflexivity.
Qed.

End Listing.
