(* ===== verification/Service.v ===== *)
(** * Service: the orchestration of src/internal/search/search.go

    [Service] holds the database, the embeddings client, the chunker
    and the fetcher, and composes them in [Index], [Search], [List] and
    [Delete].  It is modelled against two interfaces, so that its
    theorems hold for any store and any embedder that keep their
    promises:

    - [DocStore] is the store's method set ([DocumentExists],
      [IndexDocument], [Search], [ListDocuments], [DeleteDocument] of
      [*storage.Database]) and [DocStoreSpec] what the service relies
      on: an abstract view of the documents by source, an invariant,
      how each write moves the view and what each read returns of it;
    - [Embedder] is [Embed] of [*embeddings.Client] and [EmbedderSpec]
      its promise: one vector per text on success.

    The instances [sqlite_store] and [openai_embedder] discharge the
    specs with the theorems of [Store] and [Embeddings].  The state of
    the service is the pair [Sys] of a store and an embedder state.
    [os.ReadFile] and [fetcher.FetchURL] are the section variables
    [read_file] and [fetch_url] (I/O; their failure is [None]), the
    chunker configuration is the variable [ck], and a call of
    [ChunkText] that does not return (see [Chunker.ChunkText_diverges])
    is the outcome [ChunkerHangs].  The messages built by [fmt.Sprintf]
    are not modelled; the structured fields of the responses are. *)

From Stdlib Require Import QArith.
From stdpp Require Import strings gmap sorting.
From S2P Require Import Prelude Text TimeFormat Chunker Codec Embeddings Store Listing.
Open Scope Z_scope.

Module Service.
Import Codec Embeddings Store Listing.

(** ** The interfaces *)

(** The methods of [*storage.Database] the service calls. *)
Class DocStore (S : Type) := {
  doc_exists : string -> S -> result store_error bool;
  index_document : string -> string -> string -> list Store.Chunk -> S -> result store_error unit * S;
  search_chunks : list float32 -> Z -> Q -> string -> S -> result store_error (list SearchResult);
  list_documents : string -> S -> result store_error (list Document);
  delete_document : string -> S -> result store_error unit * S
}.

(** What the service relies on: [view] is what readers see, by source;
    [indexed_at] the timestamp a new document gets. *)
Class DocStoreSpec (S : Type) `{!DocStore S} := {
  view : S -> gmap string AbsDoc;
  store_inv : S -> Prop;
  indexed_at : Z;
  doc_exists_view : forall s x b,
    doc_exists s x = Ok b -> (b = true <-> is_Some (view x !! s));
  index_document_view : forall src ty t chs x r x',
    store_inv x -> index_document src ty t chs x = (r, x') ->
    (r = Ok tt /\ view x' = <[src := indexed_doc indexed_at ty t chs]> (view x)) \/
    (exists e, r = Err e /\ x' = x);
  index_document_inv : forall src ty t chs x,
    store_inv x -> store_inv (index_document src ty t chs x).2;
  delete_document_view : forall s x r x',
    store_inv x -> delete_document s x = (r, x') ->
    (r = Ok tt /\ is_Some (view x !! s) /\ view x' = delete s (view x)) \/
    (exists e, r = Err e /\ (view x' = view x \/ view x' = delete s (view x)));
  delete_document_inv : forall s x, store_inv x -> store_inv (delete_document s x).2;
  list_documents_view : forall f x docs,
    store_inv x -> list_documents f x = Ok docs ->
    NoDup (map Source docs) /\ StronglySorted newer docs /\
    list_to_map (map (fun d => (Source d, doc_meta d)) docs) = strip <$> filter (listed f) (view x);
  search_chunks_bounded : forall q k m sf x rs,
    search_chunks q k m sf x = Ok rs -> 0 <= k ->
    (length rs <= Z.to_nat k)%nat /\ Forall (fun r => (m <= rScore r)%Q) rs;
  search_chunks_view : forall q k m sf x rs r,
    store_inv x -> search_chunks q k m sf x = Ok rs -> r ∈ rs ->
    exists a, view x !! rSource r = Some a /\
      exists c, c ∈ a_chunks a /\ c.1.1.1.1 = rChunkIndex r /\ c.1.1.1.2 = rContent r
}.

(** [Embed] of the embeddings client. *)
Class Embedder (E : Type) := embed : list text -> E -> result embed_error (list vec) * E.

Class EmbedderSpec (E : Type) `{!Embedder E} := {
  embed_length : forall texts e vs e',
    embed texts e = (Ok vs, e') -> length vs = length texts;
  embed_dim : forall texts e vs e',
    embed texts e = (Ok vs, e') -> Forall (fun v => zlen v = embeddingDimension) vs
}.

(** ** Requests, responses, errors *)

Record SearchRequest := mkSearchRequest {
  Query : list rune; TopK : Z; MinScore : Q; SourceFilter : string
}.

Record SearchResultItem := mkSearchResultItem {
  item_content : list rune; item_source : string; item_chunk_index : Z; item_score : Q
}.

Record SearchResponse := mkSearchResponse { Results : list SearchResultItem; Count : Z }.

Record IndexRequest := mkIndexRequest {
  FilePath : string; URL : string; req_content : list rune; req_source : string; Reindex : bool
}.

Record IndexResponse := mkIndexResponse {
  resp_source : string; resp_source_type : string; resp_chunk_count : Z
}.

Record DocumentInfo := mkDocumentInfo {
  info_source : string; info_source_type : string; info_chunk_count : Z;
  info_content_size : Z; info_indexed_at : string; info_title : string
}.

Record ListRequest := mkListRequest { lreq_source_type : string }.

Record ListResponse := mkListResponse { Documents : list DocumentInfo; list_count : Z }.

Record DeleteRequest := mkDeleteRequest { dreq_source : string }.

(** The [Message] of a [DeleteResponse]: success, or the error it
    formats. *)
Inductive delete_message := DeletedOk | FailedToDelete (e : store_error).

Record DeleteResponse := mkDeleteResponse {
  del_source : string; Deleted : bool; del_message : delete_message
}.

Inductive service_error :=
| ErrNoSource                          (* "must provide exactly one of ..." *)
| ErrManySources                       (* "provide exactly one of ..." *)
| ErrReadFile                          (* "failed to read file: %w" *)
| ErrFetchURL                          (* "failed to fetch URL: %w" *)
| ErrCheckExists (e : store_error)     (* "failed to check if document exists: %w" *)
| ErrAlreadyIndexed (source : string)  (* "document already indexed: %s ..." *)
| ChunkerHangs                         (* [ChunkText] does not return *)
| ErrNoChunks                          (* "no chunks generated from content ..." *)
| ErrEmbedChunks (e : embed_error)     (* "failed to embed chunks: %w" *)
| ErrEmbeddingCount (got expected : Z) (* "embedding count mismatch: ..." *)
| ErrStoreDocument (e : store_error)   (* "failed to store document: %w" *)
| ErrEmbedQuery (e : embed_error)      (* "failed to embed query: %w" *)
| ErrNoQueryEmbedding                  (* "no embedding returned for query" *)
| ErrSearchDatabase (e : store_error)  (* "failed to search database: %w" *)
| ErrListDocuments (e : store_error)   (* "failed to list documents: %w" *)
| ServicePanic (i : Z).                (* a panic of the embeddings client *)

(** [fmt.Errorf("...: %w", err)] around an embedder error: a panic is
    not a value and passes through. *)
Definition wrap_embed (f : embed_error -> service_error) (e : embed_error) : service_error :=
  match e with
  | PanicIndexOutOfRange i => ServicePanic i
  | e => f e
  end.

(** The state of the service: the store and the embeddings client. *)
Record Sys (S E : Type) := mkSys { sys_store : S; sys_emb : E }.
Arguments mkSys {S E} _ _.
Arguments sys_store {S E} _.
Arguments sys_emb {S E} _.

(** ** The service *)

Section Service.
Context {S E : Type} `{!DocStore S} `{!Embedder E}.
Variable ck : Chunker.Chunker.
Variable read_file : string -> option (list rune).
Variable fetch_url : string -> option (list rune * string).

(** The three source checks of [Index]. *)
Definition source_count (req : IndexRequest) : nat :=
  (if bool_decide (FilePath req <> "") then 1 else 0) +
  (if bool_decide (URL req <> "") then 1 else 0) +
  (if bool_decide (req_content req <> [] /\ req_source req <> "") then 1 else 0).

(** [source], [sourceType], [content] and [title] from the request. *)
Definition resolve (req : IndexRequest) : result service_error (string * string * list rune * string) :=
  if bool_decide (FilePath req <> "") then
    match read_file (FilePath req) with
    | None => Err ErrReadFile
    | Some content => Ok (FilePath req, "file", content, "")
    end
  else if bool_decide (URL req <> "") then
    match fetch_url (URL req) with
    | None => Err ErrFetchURL
    | Some (content, title) => Ok (URL req, "url", content, title)
    end
  else Ok (req_source req, "content", req_content req, "").

(** The [storageChunks] loop. *)
Definition to_storage (chs : list Chunker.Chunk) (vs : list vec) : list Store.Chunk :=
  zip_with (fun ch v => Store.mkChunk 0 0 (Chunker.Index ch) (Chunker.Content ch)
                                      (Chunker.StartOffset ch) (Chunker.EndOffset ch) v) chs vs.

(** The first phase of [Index]: the source checks, reading the content
    and, unless [reindex], [DocumentExists]. *)
Definition index_begin (req : IndexRequest) (st : S)
    : result service_error (string * string * list rune * string) :=
  let n := source_count req in
  if decide (n = 0%nat) then Err ErrNoSource
  else if decide (1 < n)%nat then Err ErrManySources
  else
    match resolve req with
    | Err e => Err e
    | Ok (source, sourceType, content, title) =>
        match (if Reindex req then Ok false else doc_exists source st) with
        | Err e => Err (ErrCheckExists e)
        | Ok true => Err (ErrAlreadyIndexed source)
        | Ok false => Ok (source, sourceType, content, title)
        end
    end.

(** The second phase: [ChunkText], then [Embed] of the chunk texts and
    the count check. *)
Definition index_embed (content : list rune) (em : E)
    : result service_error (list Chunker.Chunk * list vec) * E :=
  match Chunker.ChunkText ck content with
  | None => (Err ChunkerHangs, em)
  | Some [] => (Err ErrNoChunks, em)
  | Some chs =>
      match embed (map Chunker.Content chs) em with
      | (Err e, em') => (Err (wrap_embed ErrEmbedChunks e), em')
      | (Ok vs, em') =>
          if negb (length vs =? length chs)%nat
          then (Err (ErrEmbeddingCount (zlen vs) (zlen chs)), em')
          else (Ok (chs, vs), em')
      end
  end.

(** The last phase: [IndexDocument] with the storage chunks. *)
Definition index_store (source sourceType title : string) (chs : list Chunker.Chunk) (vs : list vec)
    (st : S) : result service_error IndexResponse * S :=
  match index_document source sourceType title (to_storage chs vs) st with
  | (Err e, st') => (Err (ErrStoreDocument e), st')
  | (Ok _, st') => (Ok (mkIndexResponse source sourceType (zlen chs)), st')
  end.

(** [Index]: the three phases in a row. *)
Definition Index (req : IndexRequest) (x : Sys S E) : result service_error IndexResponse * Sys S E :=
  match index_begin req (sys_store x) with
  | Err e => (Err e, x)
  | Ok (source, sourceType, content, title) =>
      match index_embed content (sys_emb x) with
      | (Err e, em) => (Err e, mkSys (sys_store x) em)
      | (Ok (chs, vs), em) =>
          let '(r, st) := index_store source sourceType title chs vs (sys_store x) in (r, mkSys st em)
      end
  end.

Definition to_item (r : SearchResult) : SearchResultItem :=
  mkSearchResultItem (rContent r) (rSource r) (rChunkIndex r) (rScore r).

(** [Search]. *)
Definition Search (req : SearchRequest) (x : Sys S E) : result service_error SearchResponse * Sys S E :=
  let topK := if TopK req <=? 0 then 5 else TopK req in
  match embed [Query req] (sys_emb x) with
  | (Err e, em) => (Err (wrap_embed ErrEmbedQuery e), mkSys (sys_store x) em)
  | (Ok [], em) => (Err ErrNoQueryEmbedding, mkSys (sys_store x) em)
  | (Ok (q :: _), em) =>
      match search_chunks q topK (MinScore req) (SourceFilter req) (sys_store x) with
      | Err e => (Err (ErrSearchDatabase e), mkSys (sys_store x) em)
      | Ok results =>
          let items := map to_item results in
          (Ok (mkSearchResponse items (zlen items)), mkSys (sys_store x) em)
      end
  end.

Definition to_info (d : Document) : DocumentInfo :=
  mkDocumentInfo (Source d) (SourceType d) (ChunkCount d) (ContentSize d)
    (TimeFormat.Format (IndexedAt d)) (Title d).

(** A document of the view as [List] reports it. *)
Definition info_of (src : string) (a : AbsDoc) : DocumentInfo :=
  mkDocumentInfo src (a_type a) (a_count a) (a_size a) (TimeFormat.Format (a_indexed_at a)) (a_title a).

(** [List]. *)
Definition List (req : ListRequest) (x : Sys S E) : result service_error ListResponse :=
  match list_documents (lreq_source_type req) (sys_store x) with
  | Err e => Err (ErrListDocuments e)
  | Ok docs => let infos := map to_info docs in Ok (mkListResponse infos (zlen infos))
  end.

(** [Delete]: a failure of the store is reported in the response, not
    as an error. *)
Definition Delete (req : DeleteRequest) (x : Sys S E) : result service_error DeleteResponse * Sys S E :=
  match delete_document (dreq_source req) (sys_store x) with
  | (Err e, st) => (Ok (mkDeleteResponse (dreq_source req) false (FailedToDelete e)), mkSys st (sys_emb x))
  | (Ok _, st) => (Ok (mkDeleteResponse (dreq_source req) true DeletedOk), mkSys st (sys_emb x))
  end.

(** ** Theorems against the interfaces *)

Context `{SP : !DocStoreSpec S} `{EP : !EmbedderSpec E}.

Ltac fail_path := intros [= <- <-]; right; eexists; split; reflexivity.

(** A document [list_documents] returns is one of the view, listed
    under the filter, with the metadata the view records. *)
Lemma list_documents_elem f x docs d :
  store_inv x -> list_documents f x = Ok docs -> d ∈ docs ->
  exists a, view x !! Source d = Some a /\ listed f (Source d, a) /\ doc_meta d = strip a.
Proof.
  intros Hinv Hd Hdi. destruct (list_documents_view f x docs Hinv Hd) as (Hn & _ & Hm).
  assert (Hk : NoDup (map (fun d => (Source d, doc_meta d)) docs).*1)
    by (rewrite <- (map_fmap fst), map_map; exact Hn).
  assert (Hl : (strip <$> filter (listed f) (view x)) !! Source d = Some (doc_meta d)).
  { rewrite <- Hm. apply elem_of_list_to_map; [exact Hk |]. rewrite map_fmap.
    exact (list_elem_of_fmap_2 (fun d => (Source d, doc_meta d)) docs d Hdi). }
  rewrite lookup_fmap, fmap_Some in Hl. destruct Hl as (a & Ha & Hma).
  apply map_lookup_filter_Some in Ha as [Ha Hf]. by exists a.
Qed.

(** The instants a store may record: those of SQLite's date range. *)
Definition dated (v : gmap string AbsDoc) : Prop :=
  map_Forall (fun _ a => TimeFormat.min_time <= a_indexed_at a < TimeFormat.max_time) v.

(** What a successful [List] returns: one entry per listed document of
    the view, with its metadata, each source once, and their count;
    when the view's instants are in SQLite's range, the entries'
    [IndexedAt] strings are newest first. *)
Lemma List_view f x resp :
  store_inv (sys_store x) -> List (mkListRequest f) x = Ok resp ->
  list_count resp = zlen (Documents resp) /\
  NoDup (map info_source (Documents resp)) /\
  (forall i, i ∈ Documents resp <->
     exists a, view (sys_store x) !! info_source i = Some a /\ listed f (info_source i, a) /\
               i = info_of (info_source i) a) /\
  (dated (view (sys_store x)) ->
   StronglySorted (fun i j => String.compare (info_indexed_at i) (info_indexed_at j) <> Lt) (Documents resp)).
Proof.
  intros Hinv HL. unfold List in HL. cbn [lreq_source_type] in HL.
  destruct (list_documents f (sys_store x)) as [docs|e] eqn:Hd; [| discriminate]. injection HL as <-.
  destruct (list_documents_view f (sys_store x) docs Hinv Hd) as (Hn & Hs & Hm). simpl.
  assert (Hsrc : map info_source (map to_info docs) = map Source docs) by (rewrite map_map; reflexivity).
  assert (Hk : NoDup (map (fun d => (Source d, doc_meta d)) docs).*1)
    by (rewrite <- (map_fmap fst), map_map; exact Hn).
  split; [reflexivity | split; [by rewrite Hsrc | split]].
  - intros i. rewrite map_fmap, list_elem_of_fmap. split.
    + intros (d & -> & Hdi).
      destruct (list_documents_elem f _ docs d Hinv Hd Hdi) as (a & Ha & Hf & Hma).
      exists a. split; [exact Ha | split; [exact Hf | exact (f_equal (info_of (Source d)) Hma)]].
    + intros (a & Ha & Hf & Hi).
      assert (Hv : filter (listed f) (view (sys_store x)) !! info_source i = Some a)
        by (by apply map_lookup_filter_Some).
      assert (Hl : list_to_map (map (fun d => (Source d, doc_meta d)) docs) !! info_source i = Some (strip a))
        by (rewrite Hm, lookup_fmap, Hv; reflexivity).
      apply elem_of_list_to_map in Hl; [| exact Hk]. rewrite map_fmap in Hl.
      apply list_elem_of_fmap_1 in Hl as (d & Hsd & Hdd). apply pair_equal_spec in Hsd as [Hs' Hm'].
      exists d. split; [| exact Hdd]. rewrite Hi, Hs'. exact (f_equal (info_of (Source d)) Hm').
  - intros Hdt. apply (StronglySorted_map_in newer _
      (fun d => TimeFormat.min_time <= IndexedAt d < TimeFormat.max_time)); [| | exact Hs].
    + intros d1 d2 H1 H2 H12. simpl. unfold newer in H12.
      destruct (proj1 (Z.lt_eq_cases _ _) H12) as [Hlt | He].
      * rewrite String.compare_antisym, (TimeFormat.Format_mono (IndexedAt d2) (IndexedAt d1)) by lia.
        discriminate.
      * rewrite He, TimeFormat.string_compare_refl. discriminate.
    + apply Forall_forall. intros d Hdi.
      destruct (list_documents_elem f _ docs d Hinv Hd Hdi) as (a & Ha & _ & Hma).
      pose proof (Hdt _ _ Ha) as Hr. simpl in Hr.
      apply (f_equal a_indexed_at) in Hma. simpl in Hma. rewrite Hma. exact Hr.
Qed.

(** The one path on which [Index] writes to the store. *)
Lemma Index_ok_path req x src ty content title chs vs em r st :
  source_count req = 1%nat -> resolve req = Ok (src, ty, content, title) ->
  (if Reindex req then Ok false else doc_exists src (sys_store x)) = Ok false ->
  Chunker.ChunkText ck content = Some chs -> chs <> [] ->
  embed (map Chunker.Content chs) (sys_emb x) = (Ok vs, em) -> length vs = length chs ->
  index_document src ty title (to_storage chs vs) (sys_store x) = (Ok r, st) ->
  Index req x = (Ok (mkIndexResponse src ty (zlen chs)), mkSys st em).
Proof.
  intros Hn Hres Hex Hck Hne Hemb Hlen Hix. unfold Index, index_begin, index_embed, index_store.
  rewrite Hn. simpl. rewrite Hres, Hex, Hck.
  destruct chs as [|ch chs']; [done |]. rewrite Hemb, Hlen, Nat.eqb_refl. cbn -[to_storage]. rewrite Hix.
  reflexivity.
Qed.

(** The outcomes of [Index]. *)
Lemma Index_cases req x r x' :
  store_inv (sys_store x) -> Index req x = (r, x') ->
  (exists src ty content title chs vs,
     resolve req = Ok (src, ty, content, title) /\
     Chunker.ChunkText ck content = Some chs /\ chs <> [] /\
     embed (map Chunker.Content chs) (sys_emb x) = (Ok vs, sys_emb x') /\
     r = Ok (mkIndexResponse src ty (zlen chs)) /\
     view (sys_store x') = <[src := indexed_doc indexed_at ty title (to_storage chs vs)]> (view (sys_store x))) \/
  (exists e, r = Err e /\ sys_store x' = sys_store x).
Proof.
  intros Hinv. unfold Index, index_begin, index_embed, index_store.
  case_decide; [fail_path |]. case_decide; [fail_path |].
  destruct (resolve req) as [[[[src ty] content] title]|e] eqn:Hres; [| fail_path].
  destruct (if Reindex req then _ else _) as [[]|e]; [fail_path | | fail_path].
  destruct (Chunker.ChunkText ck content) as [[|ch chs]|] eqn:Hck; [fail_path | | fail_path].
  destruct (embed _ (sys_emb x)) as [[vs|e] em] eqn:Hemb; [| fail_path].
  destruct (negb _); [fail_path |].
  destruct (index_document _ _ _ _ _) as [[[]|e] st] eqn:Hix.
  - intros [= <- <-]. left.
    apply index_document_view in Hix as [[_ Hv]|(e & Hr & _)]; [| discriminate | exact Hinv].
    exists src, ty, content, title, (ch :: chs), vs. by repeat split.
  - intros [= <- <-]. right. exists (ErrStoreDocument e). split; [reflexivity |].
    apply index_document_view in Hix as [[Hr _]|(e' & _ & ->)]; [discriminate | reflexivity | exact Hinv].
Qed.

(** C11: [Index] either stores exactly the chunker's chunks of the
    resolved content, each paired with the vector the embedder returned
    for its text, under the resolved source (replacing any previous
    document of that source), or fails and leaves the store as it was. *)
Theorem Index_refines req x r x' :
  store_inv (sys_store x) -> Index req x = (r, x') ->
  (exists src ty content title chs vs,
     resolve req = Ok (src, ty, content, title) /\
     Chunker.ChunkText ck content = Some chs /\ chs <> [] /\
     embed (map Chunker.Content chs) (sys_emb x) = (Ok vs, sys_emb x') /\
     r = Ok (mkIndexResponse src ty (zlen chs)) /\
     view (sys_store x') = <[src := indexed_doc indexed_at ty title (to_storage chs vs)]> (view (sys_store x))) \/
  (exists e, r = Err e /\ sys_store x' = sys_store x).
Proof. exact (Index_cases req x r x'). Qed.

(** C18: without [reindex], a request for a source the store already
    holds is refused before anything else happens: no chunking, no
    request to the embedding provider, no write. *)
Theorem Index_conflict req x src ty content title r x' :
  source_count req = 1%nat -> Reindex req = false -> resolve req = Ok (src, ty, content, title) ->
  is_Some (view (sys_store x) !! src) -> Index req x = (r, x') ->
  x' = x /\ (r = Err (ErrAlreadyIndexed src) \/ exists e, r = Err (ErrCheckExists e)).
Proof.
  intros Hn Hre Hres Hin. unfold Index, index_begin. rewrite Hn. simpl. rewrite Hres, Hre.
  destruct (doc_exists src (sys_store x)) as [[]|e] eqn:He.
  - intros [= <- <-]. auto.
  - apply doc_exists_view in He. apply He in Hin. discriminate.
  - intros [= <- <-]. eauto.
Qed.

(** What a successful [Search] returns, and that it only reads the store. *)
Lemma Search_bounded_items req x r x' :
  Search req x = (r, x') ->
  sys_store x' = sys_store x /\
  forall resp, r = Ok resp ->
    (length (Results resp) <= Z.to_nat (if TopK req <=? 0 then 5 else TopK req)%Z)%nat /\
    Forall (fun it => (MinScore req <= item_score it)%Q) (Results resp) /\
    Count resp = zlen (Results resp).
Proof using SP.
  unfold Search. destruct (embed [Query req] (sys_emb x)) as [[[|q qs]|e] em].
  - intros [= <- <-]. split; [reflexivity | discriminate].
  - destruct (search_chunks _ _ _ _ _) as [rs|e] eqn:Hs; intros [= <- <-];
      split; try reflexivity; [| discriminate].
    intros resp [= <-]. simpl.
    apply search_chunks_bounded in Hs as [Hl Hm]; [| destruct (Z.leb_spec (TopK req) 0); lia].
    rewrite length_map. split; [exact Hl |]. split; [| reflexivity].
    apply Forall_map. exact Hm.
  - intros [= <- <-]. split; [reflexivity | discriminate].
Qed.

(** Every item of a successful [Search] is a chunk of the document the
    view shows at its source, with its index and content. *)
Lemma Search_items_view req x resp x' it :
  store_inv (sys_store x) -> Search req x = (Ok resp, x') -> it ∈ Results resp ->
  exists a, view (sys_store x) !! item_source it = Some a /\
    exists c, c ∈ a_chunks a /\ c.1.1.1.1 = item_chunk_index it /\ c.1.1.1.2 = item_content it.
Proof using SP.
  intros Hinv. unfold Search. destruct (embed [Query req] (sys_emb x)) as [[[|q qs]|e] em]; [discriminate | | discriminate].
  destruct (search_chunks _ _ _ _ _) as [rs|e] eqn:Hs; [| discriminate]. intros [= <- _]. simpl.
  rewrite map_fmap. intros (r & -> & Hr)%list_elem_of_fmap_1.
  exact (search_chunks_view _ _ _ _ _ _ _ Hinv Hs Hr).
Qed.

(** [Search] only reads the store, and a successful answer holds
    at most [topK] items ([5] when [topK <= 0]), each reaching the
    minimum score, with [Count] its length. *)
Theorem Search_bounds req x r x' :
  Search req x = (r, x') ->
  sys_store x' = sys_store x /\
  forall resp, r = Ok resp ->
    (length (Results resp) <= Z.to_nat (if TopK req <=? 0 then 5 else TopK req)%Z)%nat /\
    Forall (fun it => (MinScore req <= item_score it)%Q) (Results resp) /\
    Count resp = zlen (Results resp).
Proof using SP. exact (Search_bounded_items req x r x'). Qed.

(** [Delete] never fails: a store error, an unknown source
    included, is reported as [Deleted = false] with the error in the
    message; [Deleted = true] means the source was indexed and is gone
    from the view. *)
Theorem Delete_reports s x r x' :
  store_inv (sys_store x) -> Delete (mkDeleteRequest s) x = (r, x') ->
  sys_emb x' = sys_emb x /\
  exists resp, r = Ok resp /\ del_source resp = s /\
    ((Deleted resp = true /\ del_message resp = DeletedOk /\ is_Some (view (sys_store x) !! s) /\
      view (sys_store x') = delete s (view (sys_store x))) \/
     (Deleted resp = false /\ exists e, del_message resp = FailedToDelete e)).
Proof.
  intros Hinv. unfold Delete. cbn [dreq_source].
  destruct (delete_document s (sys_store x)) as [[[]|e] st] eqn:Hd; intros [= <- <-];
    (split; [reflexivity |]); eexists; (split; [reflexivity |]); (split; [reflexivity |]).
  - left. apply delete_document_view in Hd as [(_ & Hs & Hv)|(e & Hr & _)]; [| discriminate | exact Hinv].
    by repeat split.
  - right. eauto.
Qed.

End Service.

(** ** The implementations *)

(** The SQLite store of [Store] behind a connection whose driver fails
    as [fail] says, stamps [now] and scores with [score_of]. *)
Definition sqlite (fail : db_op -> bool) (now : Z) (score_of : list byte -> list byte -> Q) : Type := DB.

#[export] Instance sqlite_store fail now score_of : DocStore (sqlite fail now score_of) := {|
  doc_exists := DocumentExists fail;
  index_document := IndexDocument fail now;
  search_chunks := Store.Search score_of fail;
  list_documents := ListDocuments fail;
  delete_document := DeleteDocument fail
|}.

#[export] Program Instance sqlite_spec fail now score_of : DocStoreSpec (sqlite fail now score_of) := {|
  view := abs; store_inv := wf; indexed_at := now
|}.
Next Obligation. intros * H. simpl in H. by eapply DocumentExists_view. Qed.
Next Obligation. intros * Hwf H. simpl in H. by eapply IndexDocument_view. Qed.
Next Obligation. intros * Hwf. by apply IndexDocument_inv. Qed.
Next Obligation.
  intros fail now score_of s x r x' Hwf Hd. simpl in *.
  apply DeleteDocument_view in Hd as [H|[(-> & Hn & ->)|[(-> & ->)|(-> & Hv)]]]; [by left | | | | exact Hwf];
    right; eexists; (split; [reflexivity |]); auto.
Qed.
Next Obligation. intros * Hwf. by apply DeleteDocument_inv. Qed.
Next Obligation. intros * Hwf H. simpl in H. by eapply ListDocuments_meta. Qed.
Next Obligation. intros * H Hk. simpl in H. by eapply Search_bounded. Qed.
Next Obligation. intros * Hwf H Hr. simpl in H. by eapply Search_in_view. Qed.

(** The OpenAI client of [Embeddings] in the world [w]. *)
Definition openai (w : World) : Type := EState.

#[export] Instance openai_embedder w : Embedder (openai w) := Embed w.

#[export] Instance openai_spec w : EmbedderSpec (openai w).
Proof. split; intros texts e vs e' H; by apply (Embed_ok_shape w texts e vs e'). Qed.

Definition no_faults : db_op -> bool := fun _ => false.

(** A deployment for the examples: the sample database without faults,
    the sample provider, the default chunker, no files and no URLs. *)
Definition sample_ck : Chunker.Chunker := Chunker.NewChunker 1000 100.
Definition no_files : string -> option (list rune) := fun _ => None.
Definition no_urls : string -> option (list rune * string) := fun _ => None.
Definition sample_sys : Sys (sqlite no_faults 7 sample_score) (openai sample_world) :=
  mkSys sample_db st0.
Definition sample_req (src : string) (reindex : bool) : IndexRequest :=
  mkIndexRequest "" "" (of_ascii "hello world") src reindex.


(** ** The program as deployed *)

(** C3: end to end, with the SQLite store without faults, a provider
    that embeds each text as [f t] (in any reply order), a live
    context and a chunker that satisfies the progress condition,
    indexing inline content under a new source returns, and the store
    then maps that source to exactly the chunker's chunks of the
    content, each with the embedding of its own text. *)
Theorem Index_end_to_end now score_of f w ck rf fu db em content src :
  wf db -> honest f w -> live w -> Chunker.valid ck -> Chunker.progress_ok ck = true ->
  content <> [] -> src <> "" -> abs db !! src = None ->
  exists chs db' em',
    Chunker.ChunkText ck content = Some chs /\
    @Index (sqlite no_faults now score_of) (openai w) _ _ ck rf fu
      (mkIndexRequest "" "" content src false) (mkSys db em) =
      (Ok (mkIndexResponse src "content" (zlen chs)), mkSys db' em') /\
    abs db' = <[src := indexed_doc now "content" ""
                        (to_storage chs (map f (map Chunker.Content chs)))]> (abs db).
Proof.
  intros Hwf Hw Hl Hc Hp Hne Hsrc Hfresh.
  destruct (Chunker.ChunkText_total ck content Hc Hp) as [chs Hck].
  destruct (Embed_honest_run f w (map Chunker.Content chs) em Hw Hl) as [reqs [Hemb _]].
  set (vs := map f (map Chunker.Content chs)).
  destruct (IndexDocument_nofail now src "content" "" (to_storage chs vs) db) as [db' Hix].
  eexists chs, db', _. split; [exact Hck |]. split.
  - apply (Index_ok_path ck rf fu _ _ src "content" content "" chs vs _ tt db').
    + unfold source_count. simpl. repeat case_bool_decide; naive_solver.
    + unfold resolve. simpl. repeat case_bool_decide; naive_solver.
    + simpl. unfold DocumentExists, guard. simpl. do 2 f_equal.
      apply bool_decide_eq_false_2. rewrite <- abs_lookup_is_Some, Hfresh. apply is_Some_None.
    + exact Hck.
    + exact (Chunker.ChunkText_nonempty ck content chs Hc Hne Hck).
    + exact Hemb.
    + unfold vs. by rewrite !length_map.
    + exact Hix.
  - apply IndexDocument_view in Hix as [[_ Hv]|(e & He & _)]; [exact Hv | discriminate | exact Hwf].
Qed.

(** C33: deleting a source the store does not hold is not an error: the
    response says [Deleted = false] with the not-found error in its
    message, and nothing changes. *)
Theorem Delete_unknown_source fail now score_of w db em s :
  fail OpDeleteDocument = false -> fail OpRowsAffected = false -> abs db !! s = None ->
  @Delete (sqlite fail now score_of) (openai w) _ (mkDeleteRequest s) (mkSys db em) =
    (Ok (mkDeleteResponse s false (FailedToDelete (ErrNotFound s))), mkSys db em).
Proof.
  intros Hd Hr Hs. assert (Hn : s ∉ map Source (documents db)).
  { rewrite <- abs_lookup_is_Some, Hs. apply is_Some_None. }
  unfold Delete. simpl. unfold DeleteDocument. rewrite Hd.
  pose proof (proj2 (delete_by_source_count s db) Hn) as H0.
  pose proof (delete_by_source_absent s db Hn) as H1.
  destruct (delete_by_source s db) as [db1 k]. simpl in H0, H1. subst.
  rewrite Hr. reflexivity.
Qed.

(** ** Examples *)

Lemma sample_db_wf : wf sample_db.
Proof. apply (bool_decide_unpack _). vm_compute. reflexivity. Qed.

Lemma Index_refines_witness :
  let '(r, x') := Index sample_ck no_files no_urls (sample_req "a.txt" true) sample_sys in
  (exists src ty content title chs vs,
     resolve no_files no_urls (sample_req "a.txt" true) = Ok (src, ty, content, title) /\
     Chunker.ChunkText sample_ck content = Some chs /\ chs <> [] /\
     embed (map Chunker.Content chs) (sys_emb sample_sys) = (Ok vs, sys_emb x') /\
     r = Ok (mkIndexResponse src ty (zlen chs)) /\
     view (sys_store x') =
       <[src := indexed_doc 7 ty title (to_storage chs vs)]> (view (sys_store sample_sys))) \/
  (exists e, r = Err e /\ sys_store x' = sys_store sample_sys).
Proof.
  destruct (Index _ _ _ _ _) as [r x'] eqn:E.
  eapply Index_refines; [exact sample_db_wf | exact E].
Defined.

Lemma Index_conflict_witness :
  let '(r, x') := Index sample_ck no_files no_urls (sample_req "a.txt" false) sample_sys in
  x' = sample_sys /\ (r = Err (ErrAlreadyIndexed "a.txt") \/ exists e, r = Err (ErrCheckExists e)).
Proof.
  destruct (Index _ _ _ _ _) as [r x'] eqn:E.
  apply (Index_conflict sample_ck no_files no_urls (sample_req "a.txt" false) sample_sys
           "a.txt" "content" (of_ascii "hello world") "" r x');
    [reflexivity | reflexivity | reflexivity | | exact E].
  change (is_Some (abs sample_db !! "a.txt")).
  apply abs_lookup_is_Some, (bool_decide_unpack _). vm_compute. reflexivity.
Defined.

Lemma Search_bounds_witness :
  let req := mkSearchRequest (of_ascii "alpha") 0 (1 # 10) "" in
  let '(r, x') := Search req sample_sys in
  sys_store x' = sys_store sample_sys /\
  forall resp, r = Ok resp ->
    (length (Results resp) <= Z.to_nat (if TopK req <=? 0 then 5 else TopK req)%Z)%nat /\
    Forall (fun it => (MinScore req <= item_score it)%Q) (Results resp) /\
    Count resp = zlen (Results resp).
Proof.
  intros req. destruct (Search _ _) as [r x'] eqn:E. exact (Search_bounds _ _ _ _ E).
Defined.

Lemma Delete_reports_witness :
  let '(r, x') := Delete (mkDeleteRequest "b.md") sample_sys in
  sys_emb x' = sys_emb sample_sys /\
  exists resp, r = Ok resp /\ del_source resp = "b.md" /\
    ((Deleted resp = true /\ del_message resp = DeletedOk /\ is_Some (view (sys_store sample_sys) !! "b.md") /\
      view (sys_store x') = delete "b.md" (view (sys_store sample_sys))) \/
     (Deleted resp = false /\ exists e, del_message resp = FailedToDelete e)).
Proof.
  destruct (Delete _ _) as [r x'] eqn:E. eapply Delete_reports; [exact sample_db_wf | exact E].
Defined.

Lemma Index_end_to_end_witness :
  exists chs db' em',
    Chunker.ChunkText sample_ck (of_ascii "hello world") = Some chs /\
    @Index (sqlite no_faults 7 sample_score) (openai sample_world) _ _ sample_ck no_files no_urls
      (mkIndexRequest "" "" (of_ascii "hello world") "c.txt" false) (mkSys sample_db st0) =
      (Ok (mkIndexResponse "c.txt" "content" (zlen chs)), mkSys db' em') /\
    abs db' = <["c.txt" := indexed_doc 7 "content" ""
                  (to_storage chs (map sample_f (map Chunker.Content chs)))]> (abs sample_db).
Proof.
  apply Index_end_to_end.
  - exact sample_db_wf.
  - apply sample_honest.
  - intros n. reflexivity.
  - unfold Chunker.valid. simpl. lia.
  - reflexivity.
  - discriminate.
  - discriminate.
  - vm_compute. reflexivity.
Defined.

Lemma Delete_unknown_source_witness :
  @Delete (sqlite no_faults 7 sample_score) (openai sample_world) _ (mkDeleteRequest "c.txt") (mkSys sample_db st0) =
    (Ok (mkDeleteResponse "c.txt" false (FailedToDelete (ErrNotFound "c.txt"))), mkSys sample_db st0).
Proof. apply Delete_unknown_source; [reflexivity | reflexivity | vm_compute; reflexivity]. Defined.

End Service.
