(* ===== verification/Tools.v ===== *)
(** * Tools: the MCP tool handlers of src/pkg/server/tools.go

    Each handler validates its arguments (the argument structs of
    src/pkg/server/types.go), builds the service request with the
    defaults of the tool ([top_k] 5, [min_score] 0.3) and calls the
    service of [Service].  The JSON encoding of the response
    ([json.MarshalIndent] of structs of strings, integers and finite
    floats) and the MCP envelope are library I/O and not modelled: a
    handler returns the response value.  The handlers are generic in
    the store and the embedder, like the service. *)

From Stdlib Require Import QArith String.
From stdpp Require Import strings gmap sorting.
From S2P Require Import Prelude Text Chunker Codec Embeddings Store Listing Service.
Open Scope Z_scope.

Module Tools.
Import Embeddings Store Listing Service.

(** [SearchArgs]: [MinScore] is a pointer, [None] when omitted. *)
Record SearchArgs := mkSearchArgs {
  sa_query : list rune; sa_top_k : Z; sa_min_score : option Q; sa_source_filter : string
}.

(** [IndexArgs]. *)
Record IndexArgs := mkIndexArgs {
  ia_file_path : string; ia_url : string; ia_content : list rune; ia_source : string; ia_reindex : bool
}.

Inductive tool_error :=
| ErrQueryRequired                      (* "query is required" *)
| ErrSourceRequired                     (* "source is required" *)
| ErrNoSourceArg                        (* "must provide exactly one of ..." *)
| ErrManySourceArgs                     (* "provide exactly one of ..." *)
| ErrSearchFailed (e : service_error)   (* "search failed: %w" *)
| ErrIndexingFailed (e : service_error) (* "indexing failed: %w" *)
| ErrListFailed (e : service_error)     (* "list failed: %w" *)
| ErrDeleteFailed (e : service_error)   (* "delete failed: %w" *)
| ToolPanic (i : Z).                    (* a panic of the embeddings client *)

(** [fmt.Errorf("...: %w", err)] around a service error. *)
Definition wrap_service (f : service_error -> tool_error) (e : service_error) : tool_error :=
  match e with
  | ServicePanic i => ToolPanic i
  | e => f e
  end.

(** The default [min_score] of the search tool. *)
Definition defaultMinScore : Q := 3 # 10.

Section Handlers.
Context {S E : Type} `{!DocStore S} `{!Embedder E}.
Variable ck : Chunker.Chunker.
Variable read_file : string -> option (list rune).
Variable fetch_url : string -> option (list rune * string).

(** [handleSearch]. *)
Definition handleSearch (args : SearchArgs) (x : Sys S E) : result tool_error SearchResponse * Sys S E :=
  if bool_decide (sa_query args = []) then (Err ErrQueryRequired, x)
  else
    let topK := if sa_top_k args <=? 0 then 5 else sa_top_k args in
    let minScore := match sa_min_score args with Some m => m | None => defaultMinScore end in
    match Service.Search (mkSearchRequest (sa_query args) topK minScore (sa_source_filter args)) x with
    | (Err e, x') => (Err (wrap_service ErrSearchFailed e), x')
    | (Ok resp, x') => (Ok resp, x')
    end.

(** The request [handleIndex] hands to the service. *)
Definition index_request (args : IndexArgs) : IndexRequest :=
  mkIndexRequest (ia_file_path args) (ia_url args) (ia_content args) (ia_source args) (ia_reindex args).

(** [handleIndex]: the same source check as the service, first. *)
Definition handleIndex (args : IndexArgs) (x : Sys S E) : result tool_error IndexResponse * Sys S E :=
  let n := source_count (index_request args) in
  if decide (n = 0%nat) then (Err ErrNoSourceArg, x)
  else if decide (1 < n)%nat then (Err ErrManySourceArgs, x)
  else
    match Index ck read_file fetch_url (index_request args) x with
    | (Err e, x') => (Err (wrap_service ErrIndexingFailed e), x')
    | (Ok resp, x') => (Ok resp, x')
    end.

(** [handleList]. *)
Definition handleList (sourceType : string) (x : Sys S E) : result tool_error ListResponse :=
  match List (mkListRequest sourceType) x with
  | Err e => Err (wrap_service ErrListFailed e)
  | Ok resp => Ok resp
  end.

(** [handleDelete]. *)
Definition handleDelete (source : string) (x : Sys S E) : result tool_error DeleteResponse * Sys S E :=
  if bool_decide (source = "") then (Err ErrSourceRequired, x)
  else
    match Delete (mkDeleteRequest source) x with
    | (Err e, x') => (Err (wrap_service ErrDeleteFailed e), x')
    | (Ok resp, x') => (Ok resp, x')
    end.

(** ** Theorems *)

Context `{SP : !DocStoreSpec S}.

(** Past the source check, [Index] never reports a source-count error. *)
Lemma Index_validated req x e x' :
  source_count req = 1%nat -> Index ck read_file fetch_url req x = (Err e, x') ->
  e <> ErrNoSource /\ e <> ErrManySources.
Proof.
  intros Hn H. unfold Index, index_begin, index_embed, index_store in H. rewrite Hn in H. simpl in H.
  repeat case_match; simplify_eq; unfold wrap_embed, resolve in *; repeat case_match; simplify_eq;
    split; congruence.
Qed.

(** With [top_k] omitted (or not positive) and [min_score]
    omitted, the search tool answers with at most 5 results, each
    scoring at least 0.3, and does not write to the store. *)
Theorem handleSearch_defaults args x r x' :
  sa_top_k args <= 0 -> sa_min_score args = None -> handleSearch args x = (r, x') ->
  sys_store x' = sys_store x /\
  forall resp, r = Ok resp ->
    (length (Results resp) <= 5)%nat /\
    Forall (fun it => (defaultMinScore <= item_score it)%Q) (Results resp).
Proof using SP.
  intros Hk Hm. unfold handleSearch. case_bool_decide.
  { intros [= <- <-]. split; [reflexivity | discriminate]. }
  rewrite Hm, (proj2 (Z.leb_le _ _) Hk).
  destruct (Service.Search _ _) as [[resp|e] x''] eqn:Hs; intros [= <- <-];
    apply Search_bounded_items in Hs as [Hst Hb]; (split; [exact Hst |]); [| discriminate].
  intros resp' [= <-]. destruct (Hb resp eq_refl) as (Hl & Hf & _). split; [exact Hl | exact Hf].
Qed.

(** The handler's own source check agrees with the service's: the
    index tool behaves exactly as [Index], with the two source-count
    errors renamed and every other error wrapped. *)
Theorem handleIndex_agrees args x :
  handleIndex args x =
    match Index ck read_file fetch_url (index_request args) x with
    | (Ok resp, x') => (Ok resp, x')
    | (Err ErrNoSource, x') => (Err ErrNoSourceArg, x')
    | (Err ErrManySources, x') => (Err ErrManySourceArgs, x')
    | (Err e, x') => (Err (wrap_service ErrIndexingFailed e), x')
    end.
Proof.
  unfold handleIndex. case_decide as H0.
  { unfold Index, index_begin. rewrite decide_True by exact H0. reflexivity. }
  case_decide as H1.
  { unfold Index, index_begin. rewrite decide_False, decide_True by assumption. reflexivity. }
  assert (Hn : source_count (index_request args) = 1%nat) by lia.
  destruct (Index _ _ _ _ _) as [[resp|e] x'] eqn:Hix; [reflexivity |].
  destruct (Index_validated _ _ _ _ Hn Hix) as [Hn0 Hn1].
  destruct e; done.
Qed.

(** C22: against the store interface, the list tool either fails
    exactly when the store's query fails, with that error wrapped, or
    answers with the count of its entries and one entry per document a
    reader sees under the source-type filter (the empty filter keeps
    all), each source once, carrying what the view records of it with
    the instant formatted; when the instants are in SQLite's range, the
    entries are newest first in the order of their [indexed_at]
    strings. *)
Theorem handleList_refines filt x :
  store_inv (sys_store x) ->
  (exists e, list_documents filt (sys_store x) = Err e /\
             handleList filt x = Err (ErrListFailed (ErrListDocuments e))) \/
  (exists resp, handleList filt x = Ok resp /\
     list_count resp = zlen (Documents resp) /\
     NoDup (map info_source (Documents resp)) /\
     (forall i, i ∈ Documents resp <->
        exists a, view (sys_store x) !! info_source i = Some a /\ listed filt (info_source i, a) /\
                  i = info_of (info_source i) a) /\
     (dated (view (sys_store x)) ->
      StronglySorted (fun i j => String.compare (info_indexed_at i) (info_indexed_at j) <> Lt)
        (Documents resp))).
Proof using SP.
  intros Hinv. unfold handleList. destruct (List (mkListRequest filt) x) as [resp|e] eqn:HL.
  - right. exists resp. split; [reflexivity | exact (List_view filt x resp Hinv HL)].
  - left. unfold List in HL. cbn [lreq_source_type] in HL. destruct (list_documents filt (sys_store x)) as [docs|e'];
      [discriminate | injection HL as <-]. by exists e'.
Qed.

End Handlers.

(** ** Examples *)

Lemma handleSearch_defaults_witness :
  let args := mkSearchArgs (of_ascii "alpha") 0 None "" in
  let '(r, x') := handleSearch args sample_sys in
  sys_store x' = sys_store sample_sys /\
  forall resp, r = Ok resp ->
    (length (Results resp) <= 5)%nat /\
    Forall (fun it => (defaultMinScore <= item_score it)%Q) (Results resp).
Proof.
  intros args. destruct (handleSearch _ _) as [r x'] eqn:E.
  apply (handleSearch_defaults args sample_sys r x'); [reflexivity | reflexivity | exact E].
Defined.

Lemma handleList_refines_witness :
  store_inv (sys_store sample_sys) /\
  ((exists e, list_documents "file" (sys_store sample_sys) = Err e /\
              handleList "file" sample_sys = Err (ErrListFailed (ErrListDocuments e))) \/
   (exists resp, handleList "file" sample_sys = Ok resp /\
      list_count resp = zlen (Documents resp) /\
      NoDup (map info_source (Documents resp)) /\
      (forall i, i ∈ Documents resp <->
         exists a, view (sys_store sample_sys) !! info_source i = Some a /\
                   listed "file" (info_source i, a) /\ i = info_of (info_source i) a) /\
      (dated (view (sys_store sample_sys)) ->
       StronglySorted (fun i j => String.compare (info_indexed_at i) (info_indexed_at j) <> Lt)
         (Documents resp)))).
Proof.
  assert (H : store_inv (sys_store sample_sys)) by (apply (bool_decide_unpack _); vm_compute; reflexivity).
  split; [exact H | exact (handleList_refines "file" sample_sys H)].
Defined.

End Tools.
