(* ===== verification/Config.v ===== *)
(** * Config: LoadConfig of src/internal/config/config.go

    [LoadConfig] reads four environment variables, falls back to
    defaults for the unset or unparsable ones, and checks the API key,
    the chunk size and the overlap.  The environment is a function from
    names to values ([os.Getenv] gives [""] for an unset variable);
    [strconv.Atoi] is modelled by its definition for base 10: an
    optional sign, then at least one decimal digit and nothing else,
    within the range of a 64-bit [int].  main.go hands [ChunkSize] and
    [Overlap] to [chunker.NewChunker]; the theorems relate what
    [LoadConfig] accepts to what the chunker needs. *)

From Stdlib Require Import Ascii String.
From S2P Require Import Prelude Text Chunker.
Open Scope Z_scope.

Module Config.

(** [type Config struct]. *)
Record Config := mkConfig {
  OpenAIAPIKey : string; DBPath : string; ChunkSize : Z; Overlap : Z
}.

(** [os.Getenv]. *)
Definition env := string -> string.

Inductive config_error :=
| ErrMissingAPIKey                       (* "OPENAI_API_KEY environment variable is required" *)
| ErrChunkSizeNotPositive (got : Z)      (* "CHUNK_SIZE must be positive, got %d" *)
| ErrOverlapNegative (got : Z)           (* "OVERLAP must be non-negative, got %d" *)
| ErrOverlapTooLarge (overlap size : Z). (* "OVERLAP must be less than CHUNK_SIZE ..." *)

Definition digit_of (a : ascii) : option Z :=
  let n := Z.of_nat (nat_of_ascii a) in
  if (48 <=? n) && (n <=? 57) then Some (n - 48) else None.

(** The digits loop of [strconv.ParseUint] in base 10. *)
Fixpoint digits (acc : Z) (s : string) : option Z :=
  match s with
  | EmptyString => Some acc
  | String a s' =>
      match digit_of a with
      | Some d => digits (acc * 10 + d) s'
      | None => None
      end
  end.

(** [strconv.Atoi]: [None] is a syntax or a range error. *)
Definition Atoi (s : string) : option Z :=
  let '(neg, body) :=
    match s with
    | String "-"%char rest => (true, rest)
    | String "+"%char rest => (false, rest)
    | _ => (false, s)
    end in
  match body with
  | EmptyString => None
  | _ =>
      match digits 0 body with
      | None => None
      | Some n =>
          let v := if neg then - n else n in
          if (int_min <=? v) && (v <=? int_max) then Some v else None
      end
  end.

(** [getEnvOrDefault]. *)
Definition getEnvOrDefault (e : env) (key default : string) : string :=
  if String.eqb (e key) ""%string then default else e key.

(** [getEnvAsIntOrDefault]. *)
Definition getEnvAsIntOrDefault (e : env) (key : string) (default : Z) : Z :=
  if String.eqb (e key) ""%string then default
  else match Atoi (e key) with Some v => v | None => default end.

(** [LoadConfig]. *)
Definition LoadConfig (e : env) : result config_error Config :=
  let cfg := mkConfig (e "OPENAI_API_KEY"%string) (getEnvOrDefault e "DB_PATH"%string "db_data/doc_search.db"%string)
                      (getEnvAsIntOrDefault e "CHUNK_SIZE"%string 1000) (getEnvAsIntOrDefault e "OVERLAP"%string 100) in
  if String.eqb (OpenAIAPIKey cfg) ""%string then Err ErrMissingAPIKey
  else if ChunkSize cfg <=? 0 then Err (ErrChunkSizeNotPositive (ChunkSize cfg))
  else if Overlap cfg <? 0 then Err (ErrOverlapNegative (Overlap cfg))
  else if ChunkSize cfg <=? Overlap cfg then Err (ErrOverlapTooLarge (Overlap cfg) (ChunkSize cfg))
  else Ok cfg.

(** The chunker main.go builds from a configuration. *)
Definition chunker_of (cfg : Config) : Chunker.Chunker :=
  Chunker.NewChunker (ChunkSize cfg) (Overlap cfg).

(** An environment for the examples: the key and the two chunker
    settings of the finding. *)
Definition sample_env (size overlap : string) : env := fun k =>
  if String.eqb k "OPENAI_API_KEY"%string then "sk-test"%string
  else if String.eqb k "CHUNK_SIZE"%string then size
  else if String.eqb k "OVERLAP"%string then overlap
  else ""%string.

(** The configuration [LoadConfig] builds from [sample_env "50" "10"]. *)
Definition cfg_50_10 : Config := mkConfig "sk-test"%string "db_data/doc_search.db"%string 50 10.

(** ** Theorems *)

Lemma LoadConfig_ok e cfg :
  LoadConfig e = Ok cfg -> OpenAIAPIKey cfg <> ""%string /\ 0 < ChunkSize cfg /\ 0 <= Overlap cfg < ChunkSize cfg.
Proof.
  unfold LoadConfig. simpl.
  destruct (String.eqb_spec (e "OPENAI_API_KEY"%string) ""%string); [discriminate |].
  repeat match goal with |- context [if ?a <=? ?b then _ else _] => destruct (Z.leb_spec a b) end;
  try discriminate;
  destruct (Z.ltb_spec (getEnvAsIntOrDefault e "OVERLAP"%string 100) 0); try discriminate;
  intros [= <-]; simpl; split; [assumption | lia].
Qed.

(** The chunker of an accepted configuration. *)
Lemma accepted_chunker e cfg :
  LoadConfig e = Ok cfg ->
  chunker_of cfg = Chunker.mkChunker (ChunkSize cfg) (Overlap cfg) /\ Chunker.valid (chunker_of cfg).
Proof.
  intros H. apply LoadConfig_ok in H as (_ & Hcs & Hov).
  assert (E : chunker_of cfg = Chunker.mkChunker (ChunkSize cfg) (Overlap cfg)).
  { unfold chunker_of, Chunker.NewChunker.
    rewrite (proj2 (Z.leb_gt _ _)), (proj2 (Z.ltb_ge _ _)), (proj2 (Z.leb_gt _ _)) by lia.
    reflexivity. }
  split; [exact E |]. rewrite E. unfold Chunker.valid. simpl. lia.
Qed.

(** Whatever the environment, an accepted configuration reaches the
    chunker unchanged ([NewChunker]'s fallbacks never fire) and valid. *)
Theorem LoadConfig_chunker e cfg :
  LoadConfig e = Ok cfg ->
  chunker_of cfg = Chunker.mkChunker (ChunkSize cfg) (Overlap cfg) /\ Chunker.valid (chunker_of cfg).
Proof. exact (accepted_chunker e cfg). Qed.

(** What the chunker of an accepted configuration does on every text. *)
Lemma accepted_termination e cfg :
  LoadConfig e = Ok cfg ->
  (forall text, Chunker.ChunkText (chunker_of cfg) text <> None) <->
  Overlap cfg <= ChunkSize cfg - Z.min 100 (ChunkSize cfg).
Proof.
  intros H. pose proof (accepted_chunker e cfg H) as [E Hv].
  assert (Hp : Chunker.progress_ok (chunker_of cfg) = (Overlap cfg <=? ChunkSize cfg - Z.min 100 (ChunkSize cfg))).
  { rewrite E. reflexivity. }
  split.
  - intros Hall. destruct (Z.leb_spec (Overlap cfg) (ChunkSize cfg - Z.min 100 (ChunkSize cfg))) as [|Hgt];
      [assumption | exfalso].
    apply (Hall (Chunker.stall_text (chunker_of cfg))).
    apply Chunker.stall_text_hangs; [exact Hv |]. exact Hp.
  - intros Hle text Hn. apply Z.leb_le in Hle. rewrite <- Hp in Hle.
    destruct (Chunker.ChunkText_total _ text Hv Hle) as [l Hl]. congruence.
Qed.

(** A [CHUNK_SIZE] that is set but does not parse is not an error:
    [getEnvAsIntOrDefault] silently falls back to 1000. *)
Lemma LoadConfig_unparsable_size e cfg :
  e "CHUNK_SIZE"%string <> ""%string -> Atoi (e "CHUNK_SIZE"%string) = None ->
  LoadConfig e = Ok cfg -> ChunkSize cfg = 1000.
Proof.
  intros Hset Hbad H. pose proof H as Hc. unfold LoadConfig in Hc.
  repeat (case_match; try discriminate). injection Hc as <-. simpl.
  unfold getEnvAsIntOrDefault. destruct (String.eqb_spec (e "CHUNK_SIZE"%string) ""%string); [contradiction |].
  rewrite Hbad. reflexivity.
Qed.

(** C5: the checks of [LoadConfig] are weaker than what the chunker
    needs: for an accepted configuration, [ChunkText] returns on every
    text exactly when [OVERLAP <= CHUNK_SIZE - min 100 CHUNK_SIZE].
    Every accepted configuration outside that bound (CHUNK_SIZE=50 with
    OVERLAP=10, say) makes indexing hang on some text. *)
Theorem LoadConfig_termination e cfg :
  LoadConfig e = Ok cfg ->
  (forall text, Chunker.ChunkText (chunker_of cfg) text <> None) <->
  Overlap cfg <= ChunkSize cfg - Z.min 100 (ChunkSize cfg).
Proof. exact (accepted_termination e cfg). Qed.

(** ** Examples *)

Lemma LoadConfig_chunker_witness :
  LoadConfig (sample_env "50"%string "10"%string) = Ok cfg_50_10 /\
  chunker_of cfg_50_10 = Chunker.mkChunker (ChunkSize cfg_50_10) (Overlap cfg_50_10) /\
  Chunker.valid (chunker_of cfg_50_10).
Proof.
  assert (H : LoadConfig (sample_env "50"%string "10"%string) = Ok cfg_50_10) by reflexivity.
  split; [exact H | exact (LoadConfig_chunker _ _ H)].
Defined.

(** CHUNK_SIZE=50, OVERLAP=10 is accepted, and the bound fails: some
    text hangs the chunker. *)
Lemma LoadConfig_termination_witness :
  LoadConfig (sample_env "50"%string "10"%string) = Ok cfg_50_10 /\
  ((forall text, Chunker.ChunkText (chunker_of cfg_50_10) text <> None) <->
   Overlap cfg_50_10 <= ChunkSize cfg_50_10 - Z.min 100 (ChunkSize cfg_50_10)).
Proof.
  assert (H : LoadConfig (sample_env "50"%string "10"%string) = Ok cfg_50_10) by reflexivity.
  split; [exact H | exact (LoadConfig_termination _ _ H)].
Defined.

End Config.
