(* ===== verification/Fetcher.v ===== *)
(** * Fetcher: FetchURL of src/internal/fetcher/fetcher.go

    [FetchURL] checks the URL scheme, sends a GET, checks the status
    and the content type ([isTextContent]), reads the body and, for an
    HTML content type, reduces the page to its visible text with
    [extractHTMLText].  The network and golang.org/x/net/html are not
    modelled: [url.Parse] is the section variable [parse_scheme],
    [httpClient.Do] with [io.ReadAll] the variable [http_get], and
    [html.Parse] the variable [parse_html], which yields the node tree
    that [extractHTMLText] traverses.  The traversal, [strings.Fields],
    [strings.TrimSpace] and [normalizeWhitespace] are modelled on code
    points, with Go's [unicode.IsSpace] of [Text].  Header values and
    URLs are byte strings ([string]); [strings.ToLower] on them is
    modelled on ASCII, which is all that can create or remove the
    letters of ["text/"]. *)

From Stdlib Require Import Ascii String.
From S2P Require Import Prelude Text.
Open Scope Z_scope.

Module Fetcher.

(** ** Strings *)

Definition lower_ascii (a : ascii) : ascii :=
  let n := nat_of_ascii a in
  if (65 <=? n)%nat && (n <=? 90)%nat then ascii_of_nat (n + 32) else a.

(** [strings.ToLower]. *)
Fixpoint lower (s : string) : string :=
  match s with
  | EmptyString => EmptyString
  | String a s' => String (lower_ascii a) (lower s')
  end.

(** [strings.HasPrefix]. *)
Fixpoint has_prefix (p s : string) : bool :=
  match p, s with
  | EmptyString, _ => true
  | String a p', String b s' => Ascii.eqb a b && has_prefix p' s'
  | String _ _, EmptyString => false
  end.

(** [strings.Contains]. *)
Fixpoint contains (needle hay : string) : bool :=
  has_prefix needle hay ||
  match hay with
  | EmptyString => false
  | String _ hay' => contains needle hay'
  end.

(** [isTextContent]. *)
Definition isTextContent (contentType : string) : bool :=
  let contentType := lower contentType in
  contains "text/plain"%string contentType ||
  contains "text/html"%string contentType ||
  contains "text/markdown"%string contentType ||
  contains "text/"%string contentType.

(** [strings.Fields]: the maximal runs of non-space code points. *)
Fixpoint fields_from (cur : list rune) (rs : list rune) : list (list rune) :=
  match rs with
  | [] => match cur with [] => [] | _ => [cur] end
  | r :: rs' =>
      if is_space r then
        match cur with
        | [] => fields_from [] rs'
        | _ => cur :: fields_from [] rs'
        end
      else fields_from (cur ++ [r]) rs'
  end.

Definition Fields (rs : list rune) : list (list rune) := fields_from [] rs.

(** [strings.Join]. *)
Fixpoint Join (ws : list (list rune)) (sep : list rune) : list rune :=
  match ws with
  | [] => []
  | [w] => w
  | w :: ws' => w ++ sep ++ Join ws' sep
  end.

(** [normalizeWhitespace]. *)
Definition normalizeWhitespace (text : list rune) : list rune := Join (Fields text) [space].

(** [strings.TrimSpace]. *)
Definition drop_spaces (rs : list rune) : list rune :=
  (fix go rs := match rs with r :: rs' => if is_space r then go rs' else rs | [] => [] end) rs.
Definition TrimSpace (rs : list rune) : list rune := reverse (drop_spaces (reverse (drop_spaces rs))).

(** ** HTML *)

(** The node types of golang.org/x/net/html that the traversal tells
    apart. *)
Inductive node_type := TextNode | ElementNode | OtherNode.

(** An [*html.Node] with its [Type], [Data] and children in order. *)
Inductive node := Node (type : node_type) (data : list rune) (children : list node).

Definition node_kind (n : node) : node_type := let '(Node t _ _) := n in t.
Definition node_data (n : node) : list rune := let '(Node _ d _) := n in d.

(** The state of the closure: [textBuilder] and [titleText]. *)
Record builder := mkBuilder { text_sb : list rune; title_text : list rune }.

(** One visit of [traverse] before its children: the title check, then
    the text-node append. *)
Definition visit (n : node) (b : builder) : builder :=
  let '(Node t d cs) := n in
  let b :=
    match t, cs with
    | ElementNode, Node TextNode fd _ :: _ =>
        if bool_decide (d = of_ascii "title") && bool_decide (title_text b = [])
        then mkBuilder (text_sb b) (TrimSpace fd) else b
    | _, _ => b
    end in
  match t with
  | TextNode =>
      let s := TrimSpace d in
      if bool_decide (s = []) then b
      else mkBuilder (text_sb b ++ (match text_sb b with [] => [] | _ => [space] end) ++ s) (title_text b)
  | _ => b
  end.

(** [traverse]: script and style elements are skipped with their
    subtree. *)
Fixpoint traverse (n : node) (b : builder) : builder :=
  let '(Node t d cs) := n in
  match t with
  | ElementNode =>
      if bool_decide (d = of_ascii "script") || bool_decide (d = of_ascii "style") then b
      else fold_left (fun b c => traverse c b) cs (visit n b)
  | _ => fold_left (fun b c => traverse c b) cs (visit n b)
  end.

(** Induction on pages, with a hypothesis for every child. *)
Fixpoint node_ind_children (P : node -> Prop)
    (f : forall t d cs, Forall P cs -> P (Node t d cs)) (n : node) : P n :=
  let '(Node t d cs) := n in
  f t d cs ((fix go (cs : list node) : Forall P cs :=
               match cs with
               | [] => List.Forall_nil P
               | c :: cs' => @List.Forall_cons _ P c cs' (node_ind_children P f c) (go cs')
               end) cs).

(** What a reader sees of a page: the text nodes outside script and
    style, in document order. *)
Fixpoint visible (n : node) : list (list rune) :=
  let '(Node t d cs) := n in
  match t with
  | ElementNode =>
      if bool_decide (d = of_ascii "script") || bool_decide (d = of_ascii "style") then []
      else List.concat (map visible cs)
  | TextNode => d :: List.concat (map visible cs)
  | OtherNode => List.concat (map visible cs)
  end.

(** The trees [html.Parse] builds for two pages of the package tests
    (fetcher_test.go, TestExtractHTMLText). *)
Definition el (tag : string) (cs : list node) : node := Node ElementNode (of_ascii tag) cs.
Definition txt (s : string) : node := Node TextNode (of_ascii s) [].
Definition test_page : node :=
  Node OtherNode [] [el "html" [el "head" [el "title" [txt "Test Page"]];
                                el "body" [el "p" [txt "Hello World"]]]].
Definition test_page_scripts : node :=
  Node OtherNode [] [el "html" [el "head" [el "title" [txt "Page"];
                                           el "script" [txt "alert('test');"];
                                           el "style" [txt "body{color:red;}"]];
                                el "body" [el "p" [txt "Content"]]]].

(** ** FetchURL *)

(** What [httpClient.Do] and [io.ReadAll] give: the status, the
    [Content-Type] header and the body ([None]: the read failed). *)
Record http_response := mkResponse { status : Z; content_type : string; body : option (list rune) }.

Record FetchResult := mkFetchResult { fr_content : list rune; fr_title : list rune; fr_size : Z }.

Inductive fetch_error :=
| ErrInvalidURL                      (* "invalid URL: %w" *)
| ErrUnsupportedScheme (s : string)  (* "unsupported URL scheme: %s ..." *)
| ErrFetch                           (* "failed to fetch URL: %w" *)
| ErrHTTPStatus (code : Z)           (* "HTTP error: %d %s" *)
| ErrContentType (ct : string)       (* "unsupported content type: %s ..." *)
| ErrReadBody                        (* "failed to read response body: %w" *)
| ErrExtractHTML.                    (* "failed to extract HTML text: %w" *)

Section Fetch.
Variable parse_scheme : string -> option string.
Variable http_get : string -> option http_response.
Variable parse_html : list rune -> option node.

(** [extractHTMLText]. *)
Definition extractHTMLText (html : list rune) : option (list rune * list rune) :=
  match parse_html html with
  | None => None
  | Some doc =>
      let b := traverse doc (mkBuilder [] []) in
      Some (normalizeWhitespace (text_sb b), title_text b)
  end.

(** [FetchURL]. *)
Definition FetchURL (urlStr : string) : result fetch_error FetchResult :=
  match parse_scheme urlStr with
  | None => Err ErrInvalidURL
  | Some scheme =>
      if negb (String.eqb scheme "http"%string || String.eqb scheme "https"%string)
      then Err (ErrUnsupportedScheme scheme)
      else
        match http_get urlStr with
        | None => Err ErrFetch
        | Some resp =>
            if negb (status resp =? 200) then Err (ErrHTTPStatus (status resp))
            else if negb (isTextContent (content_type resp)) then Err (ErrContentType (content_type resp))
            else
              match body resp with
              | None => Err ErrReadBody
              | Some content =>
                  if contains "text/html"%string (content_type resp) then
                    match extractHTMLText content with
                    | None => Err ErrExtractHTML
                    | Some (text, title) => Ok (mkFetchResult text title (str_len text))
                    end
                  else Ok (mkFetchResult content [] (str_len content))
              end
        end
  end.

End Fetch.

(** ** Strings: lemmas *)

Definition nonspace (r : rune) : bool := negb (is_space r).

(** A word of [strings.Fields]: not empty, no white space. *)
Definition word (w : list rune) : Prop := w <> [] /\ Forall (fun r => is_space r = false) w.

Lemma has_prefix_app p q s : has_prefix (p ++ q) s = true -> has_prefix p s = true.
Proof.
  revert s. induction p as [|a p IH]; intros s; [reflexivity |].
  destruct s as [|b s]; simpl; [discriminate |].
  intros H. apply andb_prop in H as [Hab H]. rewrite Hab. simpl. by apply IH.
Qed.

Lemma contains_app p q s : contains (p ++ q) s = true -> contains p s = true.
Proof.
  induction s as [|b s IH]; simpl.
  - intros H. apply orb_prop in H as [H|H]; [| discriminate].
    apply has_prefix_app in H. simpl in H. by rewrite H.
  - intros H. apply orb_prop in H as [H|H].
    + apply has_prefix_app in H. simpl in H. by rewrite H.
    + rewrite IH by exact H. apply orb_true_r.
Qed.

Lemma fields_from_word cur w rest :
  Forall (fun r => is_space r = false) w -> fields_from cur (w ++ rest) = fields_from (cur ++ w) rest.
Proof.
  revert cur. induction w as [|r w IH]; intros cur Hw; simpl; [by rewrite app_nil_r |].
  inversion Hw as [|? ? Hr Hw']; subst. rewrite Hr, IH by exact Hw'. by rewrite <- app_assoc.
Qed.

(** [strings.Fields] inverts [strings.Join] with one space. *)
Lemma Fields_Join ws : Forall word ws -> Fields (Join ws [space]) = ws.
Proof.
  unfold Fields. induction ws as [|w ws IH]; intros Hws; [reflexivity |].
  inversion Hws as [|? ? [Hne Hw] Hws']; subst.
  destruct ws as [|w' ws'].
  - simpl. rewrite <- (app_nil_r w) at 1. rewrite fields_from_word by exact Hw.
    simpl. by destruct w.
  - change (Join (w :: w' :: ws') [space]) with (w ++ [space] ++ Join (w' :: ws') [space]).
    rewrite fields_from_word by exact Hw. simpl. destruct w as [|r w]; [done |].
    f_equal. exact (IH Hws').
Qed.

Lemma fields_from_words cur rs :
  Forall (fun r => is_space r = false) cur -> Forall word (fields_from cur rs).
Proof.
  revert cur. induction rs as [|r rs IH]; intros cur Hc; simpl.
  - destruct cur; constructor; [split; [done | exact Hc] | constructor].
  - destruct (is_space r) eqn:Hr.
    + destruct cur; [by apply IH |]. constructor; [split; [done | exact Hc] | by apply IH].
    + apply IH. apply Forall_app_2; [exact Hc | by constructor].
Qed.

Lemma Fields_words rs : Forall word (Fields rs).
Proof. apply fields_from_words. constructor. Qed.

Lemma filter_nonspace_words ws :
  Forall word ws -> filter (fun r => nonspace r = true) (Join ws [space]) = List.concat ws.
Proof.
  induction ws as [|w ws IH]; intros Hws; [reflexivity |].
  inversion Hws as [|? ? [_ Hw] Hws']; subst.
  assert (Fw : filter (fun r => nonspace r = true) w = w).
  { apply filter_all. intros r Hr. rewrite Forall_forall in Hw. unfold nonspace. by rewrite (Hw r Hr). }
  destruct ws as [|w' ws'].
  - simpl. by rewrite app_nil_r.
  - change (Join (w :: w' :: ws') [space]) with (w ++ [space] ++ Join (w' :: ws') [space]).
    rewrite !filter_app, Fw, IH by exact Hws'. reflexivity.
Qed.

Lemma concat_fields_from cur rs :
  List.concat (fields_from cur rs) = cur ++ filter (fun r => nonspace r = true) rs.
Proof.
  revert cur. induction rs as [|r rs IH]; intros cur; simpl.
  - destruct cur; simpl; by rewrite ?app_nil_r.
  - rewrite filter_cons. unfold nonspace. destruct (is_space r); simpl.
    + destruct cur; simpl; rewrite IH; reflexivity.
    + rewrite IH, <- app_assoc. reflexivity.
Qed.

Lemma filter_TrimSpace rs :
  filter (fun r => nonspace r = true) (TrimSpace rs) = filter (fun r => nonspace r = true) rs.
Proof.
  assert (Hd : forall xs, filter (fun r => nonspace r = true) (drop_spaces xs) =
                          filter (fun r => nonspace r = true) xs).
  { induction xs as [|x xs IH]; [reflexivity |]. simpl. destruct (is_space x) eqn:Hx; [| reflexivity].
    rewrite IH, filter_cons, decide_False; [reflexivity |]. unfold nonspace. rewrite Hx. discriminate. }
  unfold TrimSpace. rewrite filter_reverse, Hd, filter_reverse, Hd. apply reverse_involutive.
Qed.

Lemma TrimSpace_nil rs : TrimSpace rs = [] -> filter (fun r => nonspace r = true) rs = [].
Proof. intros H. rewrite <- filter_TrimSpace, H. reflexivity. Qed.

(** ** normalizeWhitespace *)

Lemma normalizeWhitespace_filter t :
  filter (fun r => nonspace r = true) (normalizeWhitespace t) = filter (fun r => nonspace r = true) t.
Proof.
  unfold normalizeWhitespace. rewrite filter_nonspace_words by apply Fields_words.
  unfold Fields. by rewrite concat_fields_from.
Qed.

Lemma normalizeWhitespace_idem t : normalizeWhitespace (normalizeWhitespace t) = normalizeWhitespace t.
Proof. unfold normalizeWhitespace at 1 2. by rewrite Fields_Join by apply Fields_words. Qed.

(** ** The traversal *)

Lemma visit_text n b :
  filter (fun r => nonspace r = true) (text_sb (visit n b)) =
  filter (fun r => nonspace r = true) (text_sb b) ++
  (if node_kind n is TextNode then filter (fun r => nonspace r = true) (node_data n) else []).
Proof.
  destruct n as [t d cs]. destruct t; simpl.
  - case_bool_decide as Ht.
    + by rewrite (TrimSpace_nil d Ht), app_nil_r.
    + simpl. rewrite !filter_app, filter_TrimSpace.
      assert (Hs : filter (fun r => nonspace r = true)
                     (match text_sb b with [] => [] | _ :: _ => [space] end) = []).
      { destruct (text_sb b); reflexivity. }
      by rewrite Hs.
  - rewrite app_nil_r. destruct cs as [|[[] fd fcs] cs]; try reflexivity.
    simpl. by destruct (bool_decide _ && bool_decide _).
  - by rewrite app_nil_r.
Qed.

Lemma traverse_text n : forall b,
  filter (fun r => nonspace r = true) (text_sb (traverse n b)) =
  filter (fun r => nonspace r = true) (text_sb b) ++
  filter (fun r => nonspace r = true) (List.concat (visible n)).
Proof.
  induction n as [t d cs IH] using node_ind_children. intros b.
  assert (Hfold : forall b,
    filter (fun r => nonspace r = true) (text_sb (fold_left (fun b c => traverse c b) cs b)) =
    filter (fun r => nonspace r = true) (text_sb b) ++
    filter (fun r => nonspace r = true) (List.concat (List.concat (map visible cs)))).
  { clear b. induction cs as [|c cs IHcs]; intros b; simpl; [by rewrite app_nil_r |].
    inversion IH as [|? ? Hc Hcs]; subst.
    rewrite (IHcs Hcs), Hc, List.concat_app, filter_app, app_assoc. reflexivity. }
  destruct t; cbn [traverse visible].
  - rewrite Hfold, (visit_text (Node TextNode d cs)). simpl.
    by rewrite filter_app, app_assoc.
  - destruct (bool_decide _ || bool_decide _); [by rewrite app_nil_r |].
    by rewrite Hfold, (visit_text (Node ElementNode d cs)), app_nil_r.
  - by rewrite Hfold, (visit_text (Node OtherNode d cs)), app_nil_r.
Qed.

Section FetchTheorems.
Variable parse_scheme : string -> option string.
Variable http_get : string -> option http_response.
Variable parse_html : list rune -> option node.

(** [isTextContent] is its last test. *)
Lemma isTextContent_text ct : isTextContent ct = contains "text/"%string (lower ct).
Proof.
  unfold isTextContent.
  destruct (contains "text/"%string (lower ct)) eqn:H; [by rewrite !orb_true_r |].
  rewrite !orb_false_r.
  repeat match goal with
  | |- context [contains ?p (lower ct)] =>
      match p with
      | "text/"%string => fail 1
      | _ => let E := fresh in destruct (contains p (lower ct)) eqn:E;
             [exfalso; apply (contains_app "text/"%string _ (lower ct)) in E; congruence |]
      end
  end.
  reflexivity.
Qed.

(** C35: the checks of [isTextContent] come down to its last one: a
    content type is accepted exactly when its lower-case form contains
    ["text/"], so [text/css] or [text/csv] pass as well as plain, HTML
    and markdown. *)
Theorem isTextContent_iff ct : isTextContent ct = contains "text/"%string (lower ct).
Proof. exact (isTextContent_text ct). Qed.

(** C30: HTML extraction keeps exactly the visible text: the non-space
    code points of the result are those of the text nodes outside
    [script] and [style], in document order, and the result is in
    normal form (one space between words, none at the ends). *)
Theorem extractHTMLText_visible html doc :
  parse_html html = Some doc ->
  exists text title, extractHTMLText parse_html html = Some (text, title) /\
    filter (fun r => nonspace r = true) text =
      filter (fun r => nonspace r = true) (List.concat (visible doc)) /\
    normalizeWhitespace text = text.
Proof.
  intros H. unfold extractHTMLText. rewrite H. eexists _, _. split; [reflexivity |]. split.
  - by rewrite normalizeWhitespace_filter, traverse_text.
  - apply normalizeWhitespace_idem.
Qed.

(** The HTML test of [FetchURL] is case-sensitive while
    [isTextContent] is not: a page served as [TEXT/HTML] (media types
    are case-insensitive) is accepted and returned raw, markup and
    scripts included, with no title. *)
Theorem FetchURL_raw_html u scheme ct content :
  parse_scheme u = Some scheme -> scheme = "http"%string \/ scheme = "https"%string ->
  http_get u = Some (mkResponse 200 ct (Some content)) ->
  contains "text/"%string (lower ct) = true -> contains "text/html"%string ct = false ->
  FetchURL parse_scheme http_get parse_html u = Ok (mkFetchResult content [] (str_len content)).
Proof.
  intros Hs Hsch Hg Ht Hh. unfold FetchURL. rewrite Hs.
  assert (Hok : (String.eqb scheme "http"%string || String.eqb scheme "https"%string) = true)
    by (destruct Hsch as [->| ->]; reflexivity).
  rewrite Hok, Hg. simpl. rewrite isTextContent_text, Ht, Hh. reflexivity.
Qed.

End FetchTheorems.

(** ** Examples *)

Lemma extractHTMLText_visible_witness :
  exists text title,
    extractHTMLText (fun _ => Some test_page_scripts) [] = Some (text, title) /\
    filter (fun r => nonspace r = true) text =
      filter (fun r => nonspace r = true) (List.concat (visible test_page_scripts)) /\
    normalizeWhitespace text = text.
Proof. apply (extractHTMLText_visible (fun _ => Some test_page_scripts) [] test_page_scripts). reflexivity. Defined.

Lemma FetchURL_raw_html_witness :
  FetchURL (fun _ => Some "https"%string)
           (fun _ => Some (mkResponse 200 "TEXT/HTML"%string (Some (of_ascii "<p>hi</p><script>x()</script>"))))
           (fun _ => Some test_page) "https://example.com/"%string =
  Ok (mkFetchResult (of_ascii "<p>hi</p><script>x()</script>") [] (str_len (of_ascii "<p>hi</p><script>x()</script>"))).
Proof.
  apply (FetchURL_raw_html _ _ _ _ "https"%string "TEXT/HTML"%string); try reflexivity. right. reflexivity.
Defined.

End Fetcher.
