(* ===== verification/Tests.v ===== *)
(** * Tests: the package tests of the repository, run on the model

    Each Go test function is a boolean: the conjunction of the checks it
    makes with [t.Errorf]/[t.Error]/[t.Fatalf], over the same inputs.  A
    call the model says does not return ([ChunkText] answering [None])
    makes its test fail, as a hung [go test] does; an index out of range
    ([chunks[0]] of an empty slice) fails it too.  The HTML strings of
    the fetcher tests are given as the trees [html.Parse] builds for
    them (golang.org/x/net/html inserts the [head] and [body] elements),
    and the URL parser as [net/url]'s scheme scan.  The storage test
    builds its vector with float32 arithmetic, written out as binary32
    rounding for the products it computes.  The lemmas run each test by
    evaluation. *)

From Stdlib Require Import Ascii String.
From stdpp Require Import strings.
From S2P Require Import Prelude Text Chunker Codec Embeddings Fetcher.
Open Scope Z_scope.

(** ** chunker_test.go *)

Module ChunkerTests.
Import Chunker.

(** [strings.Repeat(s, n)], as the runes the chunker reads. *)
Definition Repeat (s : string) (n : nat) : list rune := List.concat (replicate n (of_ascii s)).

(** [strings.Contains] on runes. *)
Definition contains_runes (needle hay : list rune) : bool :=
  existsb (fun i => bool_decide (take (length needle) (drop i hay) = needle)) (seq 0 (S (length hay))).

(** The checks of a test on the chunks [ChunkText] returns; a call that
    does not return fails the test. *)
Definition on_chunks (r : option (list Chunk)) (check : list Chunk -> bool) : bool :=
  match r with Some chunks => check chunks | None => false end.

Definition TestChunkerEmptyText : bool :=
  let c := NewChunker 1000 100 in
  on_chunks (ChunkText c []) (fun chunks => (length chunks =? 0)%nat).

Definition TestChunkerSmallText : bool :=
  let c := NewChunker 1000 100 in
  let text := of_ascii "Hello world" in
  on_chunks (ChunkText c text) (fun chunks =>
    (length chunks =? 1)%nat &&
    match chunks with
    | ch :: _ => bool_decide (Content ch = text) && (StartOffset ch =? 0) && (EndOffset ch =? zlen text)
    | [] => false
    end).

Definition TestChunkerWordBoundaries : bool :=
  let c := NewChunker 50 10 in
  let text := Repeat "word " 30 in
  on_chunks (ChunkText c text) (fun chunks =>
    (2 <=? length chunks)%nat &&
    forallb (fun ch => negb (contains_runes (of_ascii "wor d") (Content ch))
                       && negb (contains_runes (of_ascii "wo rd") (Content ch))) chunks).

Definition TestChunkerOverlap : bool :=
  let c := NewChunker 20 5 in
  let text := of_ascii "0123456789 0123456789 0123456789 0123456789" in
  on_chunks (ChunkText c text) (fun chunks =>
    (2 <=? length chunks)%nat &&
    forallb (fun '(a, b) => 0 <? EndOffset a - StartOffset b) (zip chunks (drop 1 chunks))).

(** ["Hello 世界 Hello 世界 Hello 世界 Hello 世界"]: 世 is U+4E16, 界 U+754C. *)
Definition unicode_text : list rune :=
  let hello_world := of_ascii "Hello " ++ [19990; 30028] in
  hello_world ++ [space] ++ hello_world ++ [space] ++ hello_world ++ [space] ++ hello_world.

Definition TestChunkerUnicode : bool :=
  let c := NewChunker 20 5 in
  on_chunks (ChunkText c unicode_text) (fun chunks =>
    negb (length chunks =? 0)%nat && forallb (fun ch => negb (bool_decide (Content ch = []))) chunks).

Definition TestChunkerNoWhitespace : bool :=
  let c := NewChunker 50 10 in
  let text := Repeat "a" 200 in
  on_chunks (ChunkText c text) (fun chunks =>
    (2 <=? length chunks)%nat && forallb (fun ch => zlen (Content ch) <=? chunkSize c + 10) chunks).

Definition TestChunkerIndexing : bool :=
  let c := NewChunker 30 5 in
  let text := Repeat "test " 40 in
  on_chunks (ChunkText c text) (fun chunks =>
    forallb (fun '(i, ch) => Index ch =? Z.of_nat i) (zip (seq 0 (length chunks)) chunks)).

Definition TestNewChunkerDefaults : bool :=
  let c := NewChunker 0 (-1) in
  let c2 := NewChunker 100 150 in
  (chunkSize c =? 1000) && (overlap c =? 0) && (overlap c2 <? chunkSize c2).

End ChunkerTests.

(** ** fetcher_test.go *)

Module FetcherTests.
Import Fetcher.

(** The scheme scan of [url.Parse] ([getScheme] of net/url): letters,
    then digits, [+], [-] or [.] after the first byte, up to a [:].
    [None] is its "missing protocol scheme" error; no [:] gives the
    empty scheme.  [url.Parse] lower-cases the scheme. *)
Fixpoint scan_scheme (i : nat) (s : string) : option (option nat) :=
  match s with
  | EmptyString => Some None
  | String c s' =>
      let n := nat_of_ascii c in
      if ((97 <=? n) && (n <=? 122) || (65 <=? n) && (n <=? 90))%nat then scan_scheme (S i) s'
      else if ((48 <=? n) && (n <=? 57) || (n =? 43) || (n =? 45) || (n =? 46))%nat then
        (if (i =? 0)%nat then Some None else scan_scheme (S i) s')
      else if (n =? 58)%nat then (if (i =? 0)%nat then None else Some (Some i))
      else Some None
  end.

Definition parse_scheme (rawURL : string) : option string :=
  match scan_scheme 0 rawURL with
  | None => None
  | Some None => Some ""%string
  | Some (Some i) => Some (lower (substring 0 i rawURL))
  end.

Definition newline : string := String (ascii_of_nat 10) "".
Definition tab : string := String (ascii_of_nat 9) "".

(** The four pages of [TestExtractHTMLText], as parsed, with the text
    and the title the test expects. *)
Definition html_cases : list (node * string * string) :=
  [(test_page, "Test Page Hello World", "Test Page");
   (test_page_scripts, "Page Content", "Page");
   (Node OtherNode [] [el "html" [el "head" [];
                                  el "body" [el "p" [txt "First paragraph"]; el "p" [txt "Second paragraph"]]]],
    "First paragraph Second paragraph", "");
   (Node OtherNode [] [el "html" [el "head" []; el "body" [el "p" [txt "Text   with    extra     spaces"]]]],
    "Text with extra spaces", "")]%string.

Definition TestExtractHTMLText : bool :=
  forallb (fun '(doc, text, title) =>
    match extractHTMLText (fun _ => Some doc) [] with
    | Some (t, ti) => bool_decide (t = of_ascii text) && bool_decide (ti = of_ascii title)
    | None => false
    end) html_cases.

Definition TestNormalizeWhitespace : bool :=
  forallb (fun '(input, expected) => bool_decide (normalizeWhitespace (of_ascii input) = of_ascii expected))
    [("hello  world", "hello world");
     ("hello" ++ newline ++ newline ++ "world", "hello world");
     ("  hello   world  ", "hello world");
     ("hello" ++ tab ++ "world", "hello world")]%string.

Definition TestIsTextContent : bool :=
  forallb (fun '(contentType, expected) => Bool.eqb (isTextContent contentType) expected)
    [("text/html; charset=utf-8", true); ("text/plain", true); ("text/markdown", true);
     ("application/json", false); ("image/png", false); ("text/html", true); ("TEXT/HTML", true)]%string.

(** The server would answer every request with a page; the errors come
    from the checks before the request. *)
Definition TestFetcherInvalidURL : bool :=
  let f := FetchURL parse_scheme (fun _ => Some (mkResponse 200 "text/plain" (Some []))) (fun _ => None) in
  negb (is_ok (f "not a valid url"%string)) && negb (is_ok (f "ftp://example.com"%string)).

End FetcherTests.

(** ** The embeddings client test (client_test.go) *)

Module EmbeddingsTests.
Import Embeddings.

(** [TestNewClient]: the client is a fresh struct (never [nil]) that
    holds the key. *)
Definition TestNewClient : bool :=
  let client := NewClient "test-api-key" in bool_decide (apiKey client = "test-api-key").

(** [TestEmbedEmptyTexts]. *)
Definition TestEmbedEmptyTexts : bool :=
  match Embed sample_world [] st0 with
  | (Ok embeddings, _) => (length embeddings =? 0)%nat
  | (Err _, _) => false
  end.

End EmbeddingsTests.

(** ** storage_test.go *)

Module StorageTests.
Import Codec.

(** The test builds its vector with [float32(i) * 0.001].  The binary32
    arithmetic it needs is written out for finite non-negative operands
    whose product is a normal number (all of the test's values lie in
    [[0.001, 1.535]]): a value [m * 2^e] is rounded to 24 significant
    bits, to nearest with ties to even, and encoded as its bit
    pattern. *)

(** The significand and exponent of a finite pattern: [m * 2^e]. *)
Definition f32_exact (x : float32) : Z * Z :=
  let be := Z.shiftr x 23 mod 256 in
  let fr := Z.land x (2 ^ 23 - 1) in
  if be =? 0 then (fr, -149) else (fr + 2 ^ 23, be - 150).

(** The pattern of [m * 2^e] for [2^23 <= m < 2^24] (a normal number). *)
Definition f32_encode (m e : Z) : float32 := (e + 150) * 2 ^ 23 + (m - 2 ^ 23).

(** Rounding [m * 2^e] ([m > 0]) to binary32, to nearest, ties to even. *)
Definition f32_round (m e : Z) : float32 :=
  let k := Z.log2 m - 23 in
  if k <=? 0 then f32_encode (m * 2 ^ (- k)) (e + k)
  else
    let q := Z.shiftr m k in
    let r := m - q * 2 ^ k in
    let half := 2 ^ (k - 1) in
    let q := if (half <? r) || ((r =? half) && Z.odd q) then q + 1 else q in
    if q =? 2 ^ 24 then f32_encode (2 ^ 23) (e + k + 1) else f32_encode q (e + k).

(** [float32(i)]. *)
Definition f32_of_nat (i : nat) : float32 := if (i =? 0)%nat then 0 else f32_round (Z.of_nat i) 0.

(** [*] on two non-negative finite float32. *)
Definition f32_mul (a b : float32) : float32 :=
  if (a =? 0) || (b =? 0) then 0
  else let '(ma, ea) := f32_exact a in let '(mb, eb) := f32_exact b in f32_round (ma * mb) (ea + eb).

(** The constant [0.001] as a float32: [0x3A83126F]. *)
Definition milli : float32 := 981668463.

(** Go's [==] on float32: never true for a NaN; [+0 == -0]. *)
Definition f32_eq (a b : float32) : bool :=
  let nan x := (Z.shiftr x 23 mod 256 =? 255) && negb (Z.land x (2 ^ 23 - 1) =? 0) in
  negb (nan a) && negb (nan b) &&
  ((a =? b) || ((Z.land a (2 ^ 31 - 1) =? 0) && (Z.land b (2 ^ 31 - 1) =? 0))).

(** [TestSerializeDeserializeEmbedding]: the blob has 6144 bytes, and
    the decoded vector has the length of the original and equals it at
    every index (an index past the decoded vector panics and fails the
    test). *)
Definition TestSerializeDeserializeEmbedding : bool :=
  let original := map (fun i => f32_mul (f32_of_nat i) milli) (seq 0 (Z.to_nat embeddingDimension)) in
  match serializeEmbedding original with
  | Err _ => false
  | Ok blob =>
      (zlen blob =? embeddingDimension * 4) &&
      match deserializeEmbedding blob with
      | Err _ => false
      | Ok deserialized =>
          (length deserialized =? length original)%nat &&
          forallb (fun i => match deserialized !! i, original !! i with
                            | Some a, Some b => f32_eq a b
                            | _, _ => false
                            end) (seq 0 (length original))
      end
  end.

End StorageTests.

(** ** The tests pass *)

Lemma chunker_tests_pass :
  forallb id [ChunkerTests.TestChunkerEmptyText; ChunkerTests.TestChunkerSmallText;
              ChunkerTests.TestChunkerWordBoundaries; ChunkerTests.TestChunkerOverlap;
              ChunkerTests.TestChunkerUnicode; ChunkerTests.TestChunkerNoWhitespace;
              ChunkerTests.TestChunkerIndexing; ChunkerTests.TestNewChunkerDefaults] = true.
Proof. vm_compute. reflexivity. Qed.

Lemma fetcher_tests_pass :
  forallb id [FetcherTests.TestExtractHTMLText; FetcherTests.TestNormalizeWhitespace;
              FetcherTests.TestIsTextContent; FetcherTests.TestFetcherInvalidURL] = true.
Proof. vm_compute. reflexivity. Qed.

Lemma embeddings_tests_pass :
  forallb id [EmbeddingsTests.TestNewClient; EmbeddingsTests.TestEmbedEmptyTexts] = true.
Proof. vm_compute. reflexivity. Qed.

(** [TestRunMigrations] calls [t.Skip]; the other test runs. *)
Lemma storage_tests_pass : StorageTests.TestSerializeDeserializeEmbedding = true.
Proof. vm_compute. reflexivity. Qed.

(** The test's vector is the binary32 [i * 0.001]: spot values. *)
Lemma storage_test_values :
  StorageTests.f32_mul (StorageTests.f32_of_nat 1) StorageTests.milli = 981668463 /\
  StorageTests.f32_mul (StorageTests.f32_of_nat 1000) StorageTests.milli = 1065353216 /\
  StorageTests.f32_mul (StorageTests.f32_of_nat 3) StorageTests.milli = 994352038 /\
  StorageTests.f32_mul (StorageTests.f32_of_nat 1535) StorageTests.milli = 1069841122.
Proof. vm_compute. repeat split. Qed.
