(* ===== verification/System.v ===== *)
(** * System: the service under concurrent calls

    The MCP server runs each tool call on its own goroutine, and the
    service holds no lock: the only synchronisation is SQLite's, which
    makes each statement and each transaction atomic.  This file models
    the calls in flight as a list of [call]s over the shared state [Sys]
    (the store and the embeddings client), and a step relation [step]
    that lets any call take its next atomic action:

    - an index call runs [Service.index_begin] (the source checks and
      [DocumentExists], one read), then [Service.index_embed] (the
      chunker and the provider, no store access), then
      [Service.index_store] (the [IndexDocument] transaction);
    - a delete or a search call runs in one step (one statement).

    A [ChunkText] that never returns (see [Chunker.ChunkText_diverges])
    leaves its goroutine spinning in the chunker: the call's embedding
    step then changes nothing and is always enabled, where
    [Service.Index] run alone reports the outcome [ChunkerHangs].

    Over every interleaving, the invariant of the store is kept and
    every visible document is the whole of one write
    ([reachable_inv]); a search in any reachable state reads one
    version of each document, every item a chunk of the write the view
    holds for its source ([reachable_search]); every reachable blob
    keeps the size of a 1536-float vector ([reachable_typed]).  The
    existence check and the write are two steps, and [Index_race]
    exhibits the interleaving in which two index calls for the same new
    source both succeed.  Some interleaving runs forever exactly when
    the chunker is beyond the bound of [Chunker.progress_ok]
    ([interleavings_terminate]: within it, the measure [pending] of the
    actions the calls have left decreases on every step; beyond it, the
    index call of the stalling text spins); likewise every state can be
    run until all calls have returned exactly within that bound, and a
    state in which no call can move is exactly one in which all have
    returned ([calls_finish]). *)

From Stdlib Require Import QArith.
From stdpp Require Import strings gmap relations.
From S2P Require Import Prelude Text Chunker Codec Embeddings Store Service.
Open Scope Z_scope.

Module System.
Import Codec Embeddings Store Service.

(** A call of the service in flight, stopped before its next access to
    shared state, or finished with its result. *)
Inductive call :=
| IndexCall (req : IndexRequest)
| IndexEmbedding (source sourceType : string) (content : list rune) (title : string)
| IndexStoring (source sourceType title : string) (chs : list Chunker.Chunk) (vs : list vec)
| DeleteCall (source : string)
| SearchCall (req : SearchRequest)
| IndexDone (r : result service_error IndexResponse)
| DeleteDone (r : result service_error DeleteResponse)
| SearchDone (r : result service_error SearchResponse).

Section Steps.
Context {S E : Type} `{!DocStore S} `{!Embedder E}.
Variable ck : Chunker.Chunker.
Variable read_file : string -> option (list rune).
Variable fetch_url : string -> option (list rune * string).

(** The next atomic action of a call; [None] for a finished call.  A
    [ChunkText] that does not return keeps its goroutine in the loop:
    the call takes, forever, a step that changes nothing. *)
Definition step_call (c : call) (x : Sys S E) : option (call * Sys S E) :=
  match c with
  | IndexCall req =>
      Some (match index_begin read_file fetch_url req (sys_store x) with
            | Err e => (IndexDone (Err e), x)
            | Ok (src, ty, content, title) => (IndexEmbedding src ty content title, x)
            end)
  | IndexEmbedding src ty content title =>
      Some (match index_embed ck content (sys_emb x) with
            | (Err ChunkerHangs, _) => (IndexEmbedding src ty content title, x)
            | (Err e, em) => (IndexDone (Err e), mkSys (sys_store x) em)
            | (Ok (chs, vs), em) => (IndexStoring src ty title chs vs, mkSys (sys_store x) em)
            end)
  | IndexStoring src ty title chs vs =>
      Some (let '(r, st) := index_store src ty title chs vs (sys_store x) in
            (IndexDone r, mkSys st (sys_emb x)))
  | DeleteCall s => Some (let '(r, x') := Delete (mkDeleteRequest s) x in (DeleteDone r, x'))
  | SearchCall req => Some (let '(r, x') := Service.Search req x in (SearchDone r, x'))
  | IndexDone _ | DeleteDone _ | SearchDone _ => None
  end.

(** Any call in flight may take its next action. *)
Inductive step : list call * Sys S E -> list call * Sys S E -> Prop :=
| step_at i c c' cs x x' :
    cs !! i = Some c -> step_call c x = Some (c', x') ->
    step (cs, x) (<[i := c']> cs, x').

(** A scheduler: the calls to advance, in order (a finished call or an
    index out of range is skipped). *)
Fixpoint run (sched : list nat) (st : list call * Sys S E) : list call * Sys S E :=
  match sched with
  | [] => st
  | i :: sched' =>
      match st.1 !! i with
      | Some c =>
          match step_call c st.2 with
          | Some (c', x') => run sched' (<[i := c']> st.1, x')
          | None => run sched' st
          end
      | None => run sched' st
      end
  end.


End Steps.

(** Every visible document carries as many chunks as it counts: no
    reader sees a document with only part of its chunks. *)
Definition complete (v : gmap string AbsDoc) : Prop :=
  forall s d, v !! s = Some d -> a_count d = zlen (a_chunks d).

(** Every visible document is the document one [IndexDocument] call
    wrote: its count, size and chunks all come from one chunk list, so
    no reader sees a mix of the chunks of two writes. *)
Definition written (v : gmap string AbsDoc) : Prop :=
  map_Forall (fun _ d => exists now ty t chs, d = indexed_doc now ty t chs) v.

(** Every embedding blob a reader can reach holds [embeddingDimension]
    float32s: the size sqlite-vec compares with the query's. *)
Definition typed (v : gmap string AbsDoc) : Prop :=
  map_Forall (fun _ d => Forall (fun c => length c.2 = 4 * Z.to_nat embeddingDimension)%nat (a_chunks d)) v.

(** The vectors an index call holds between its embedding and its
    write have the dimension of the model. *)
Definition call_typed (c : call) : Prop :=
  match c with
  | IndexStoring _ _ _ _ vs => Forall (fun v => zlen v = embeddingDimension) vs
  | _ => True
  end.




(** Two index requests for the same new source, for the race. *)
Definition race_req (text : string) : IndexRequest :=
  mkIndexRequest "" "" (of_ascii text) "notes.txt" false.

Definition race_calls : list call :=
  [IndexCall (race_req "first version"); IndexCall (race_req "second version")].

(** Both calls check, then each embeds and stores. *)
Definition race_schedule : list nat := [0; 1; 0; 0; 1; 1]%nat.

(** ** Theorems *)

Section Theorems.
Context {S E : Type} `{!DocStore S} `{!Embedder E} `{SP : !DocStoreSpec S}.
Variable ck : Chunker.Chunker.
Variable read_file : string -> option (list rune).
Variable fetch_url : string -> option (list rune * string).

Lemma run_sound sched st : rtc (step ck read_file fetch_url) st (run ck read_file fetch_url sched st).
Proof.
  revert st. induction sched as [|i sched IH]; intros [cs x]; simpl; [reflexivity |].
  destruct (cs !! i) as [c|] eqn:Hc; [| apply IH].
  destruct (step_call ck read_file fetch_url c x) as [[c' x']|] eqn:Hs; [| apply IH].
  eapply rtc_l; [| apply IH]. by eapply step_at.
Qed.

Lemma indexed_doc_complete now ty t chs : a_count (indexed_doc now ty t chs) = zlen (a_chunks (indexed_doc now ty t chs)).
Proof. unfold indexed_doc, zlen. simpl. by rewrite length_map. Qed.

Lemma written_complete v : written v -> complete v.
Proof.
  intros Hw s d Hd. destruct (Hw s d Hd) as (now & ty & t & chs & ->). apply indexed_doc_complete.
Qed.

Lemma Search_store req x r x' : Service.Search req x = (r, x') -> sys_store x' = sys_store x.
Proof.
  unfold Service.Search. destruct (embed _ _) as [[[|q qs]|e] em]; [by intros [= _ <-] | | by intros [= _ <-]].
  destruct (search_chunks _ _ _ _ _); by intros [= _ <-].
Qed.

(** What one step does to the store: it keeps the invariant, and the
    view is unchanged, loses a source, or gets the document of an
    [IndexStoring] call in flight. *)
Lemma step_cases w w' :
  step ck read_file fetch_url w w' -> store_inv (sys_store w.2) ->
  store_inv (sys_store w'.2) /\
  (view (sys_store w'.2) = view (sys_store w.2) \/
   (exists s, view (sys_store w'.2) = delete s (view (sys_store w.2))) \/
   (exists s ty t chs vs, IndexStoring s ty t chs vs ∈ w.1 /\
      view (sys_store w'.2) = <[s := indexed_doc indexed_at ty t (to_storage chs vs)]> (view (sys_store w.2)))).
Proof using SP.
  intros [i c c' cs x x' Hi Hs]. simpl. intros Hinv.
  destruct c; simpl in Hs; try discriminate.
  - destruct (index_begin _ _ _ _) as [[[[? ?] ?] ?]|]; simplify_eq; auto.
  - destruct (index_embed _ _ _) as [[[? ?]|?] ?]; repeat case_match; simplify_eq; auto.
  - unfold index_store in Hs. destruct (index_document _ _ _ _ _) as [r st] eqn:Hix.
    pose proof (index_document_inv source sourceType title (to_storage chs vs) _ Hinv) as Hinv'.
    rewrite Hix in Hinv'. simpl in Hinv'.
    apply index_document_view in Hix as [[-> Hv]|(e & -> & ->)]; [| | exact Hinv]; simplify_eq; simpl;
      split; auto.
    right; right. exists source, sourceType, title, chs, vs. split; [by eapply list_elem_of_lookup_2 | exact Hv].
  - unfold Delete in Hs. cbn [dreq_source] in Hs. destruct (delete_document source (sys_store x)) as [r st] eqn:Hd.
    pose proof (delete_document_inv source _ Hinv) as Hinv'. rewrite Hd in Hinv'. simpl in Hinv'.
    assert (Hx' : sys_store x' = st) by (destruct r as [[]|]; simplify_eq; reflexivity).
    rewrite Hx'. split; [exact Hinv' |].
    apply delete_document_view in Hd as [(_ & _ & Hv)|(e & _ & [Hv|Hv])]; [| | | exact Hinv]; eauto.
  - destruct (Service.Search req x) as [r x''] eqn:Hsr. apply Search_store in Hsr.
    repeat case_match; simplify_eq; simpl; rewrite Hsr; auto.
Qed.

(** One step keeps the invariant of the store and what readers see. *)
Lemma step_inv w w' :
  step ck read_file fetch_url w w' -> store_inv (sys_store w.2) -> written (view (sys_store w.2)) ->
  store_inv (sys_store w'.2) /\ written (view (sys_store w'.2)).
Proof using SP.
  intros Hs Hinv Hw. destruct (step_cases w w' Hs Hinv) as [Hinv' [Hv|[(s & Hv)|(s & ty & t & chs & vs & _ & Hv)]]];
    split; try exact Hinv'; rewrite Hv.
  - exact Hw.
  - by apply map_Forall_delete.
  - apply map_Forall_insert_2; [eauto | exact Hw].
Qed.

Context `{EP : !EmbedderSpec E}.

Lemma to_storage_typed chs vs :
  Forall (fun v => zlen v = embeddingDimension) vs ->
  Forall (fun c => length c.2 = 4 * Z.to_nat embeddingDimension)%nat (map input_view (to_storage chs vs)).
Proof.
  revert vs. induction chs as [|ch chs IH]; intros [|v vs] Hvs; simpl; try constructor.
  - apply Forall_cons in Hvs as [Hv _]. simpl. rewrite length_serialize. unfold zlen, embeddingDimension in *. lia.
  - apply IH. by apply Forall_cons in Hvs as [_ ?].
Qed.

Lemma index_embed_typed content em chs vs em' :
  index_embed ck content em = (Ok (chs, vs), em') -> Forall (fun v => zlen v = embeddingDimension) vs.
Proof using EP.
  unfold index_embed. repeat case_match; intros; simplify_eq. eapply embed_dim. eassumption.
Qed.

Lemma step_calls_typed w w' :
  step ck read_file fetch_url w w' -> Forall call_typed w.1 -> Forall call_typed w'.1.
Proof using EP.
  intros [i c c' cs x x' Hi Hs] Hf. simpl in *. apply Forall_insert; [exact Hf |].
  destruct c; simpl in Hs; try discriminate; repeat case_match; simplify_eq; simpl; try exact I.
  eapply index_embed_typed. eassumption.
Qed.

Lemma step_typed w w' :
  step ck read_file fetch_url w w' -> store_inv (sys_store w.2) -> typed (view (sys_store w.2)) ->
  Forall call_typed w.1 -> typed (view (sys_store w'.2)).
Proof using SP.
  intros Hs Hinv Ht Hc.
  destruct (step_cases w w' Hs Hinv) as [_ [Hv|[(s & Hv)|(s & ty & t & chs & vs & Hin & Hv)]]]; rewrite Hv.
  - exact Ht.
  - by apply map_Forall_delete.
  - apply map_Forall_insert_2; [| exact Ht]. simpl. apply to_storage_typed.
    rewrite Forall_forall in Hc. exact (Hc _ Hin).
Qed.

(** Every reachable state keeps the invariant, and what readers see is
    whole writes. *)
Lemma reachable_written st st' :
  rtc (step ck read_file fetch_url) st st' -> store_inv (sys_store st.2) -> written (view (sys_store st.2)) ->
  store_inv (sys_store st'.2) /\ written (view (sys_store st'.2)) /\ complete (view (sys_store st'.2)).
Proof using SP.
  induction 1 as [st|st1 st2 st3 H12 _ IH]; intros Hi Hw.
  - split; [exact Hi | split; [exact Hw | exact (written_complete _ Hw)]].
  - destruct (step_inv st1 st2 H12 Hi Hw). by apply IH.
Qed.


(** C12: whatever the interleaving of the calls, every reachable state
    keeps the invariant of the store, and every document a reader can
    see is exactly what one [IndexDocument] call wrote (never a mix of
    the chunks of two writes), hence complete: [IndexDocument] is the
    only write of an index call and it is atomic. *)
Theorem reachable_inv st st' :
  rtc (step ck read_file fetch_url) st st' -> store_inv (sys_store st.2) -> written (view (sys_store st.2)) ->
  store_inv (sys_store st'.2) /\ written (view (sys_store st'.2)) /\ complete (view (sys_store st'.2)).
Proof using SP. exact (reachable_written st st'). Qed.

(** C13: whatever the interleaving, a search run by a call in flight
    reads one version of each document: every item it returns for a
    source is a chunk of the chunk list one [IndexDocument] call wrote
    for that source, the same write for all the items of the source,
    with that chunk's index and content. *)
Theorem reachable_search st st' i req resp x' :
  rtc (step ck read_file fetch_url) st st' -> store_inv (sys_store st.2) -> written (view (sys_store st.2)) ->
  st'.1 !! i = Some (SearchCall req) ->
  step_call ck read_file fetch_url (SearchCall req) st'.2 = Some (SearchDone (Ok resp), x') ->
  forall src, (exists it, it ∈ Results resp /\ item_source it = src) ->
  exists now ty t chs, view (sys_store st'.2) !! src = Some (indexed_doc now ty t chs) /\
    forall it, it ∈ Results resp -> item_source it = src ->
      exists ch, ch ∈ chs /\ Store.ChunkIndex ch = item_chunk_index it /\ Store.Content ch = item_content it.
Proof using SP.
  intros Hr Hi Hw _ Hs src (it0 & Hit0 & <-).
  destruct (reachable_written st st' Hr Hi Hw) as (Hinv & Hw' & _).
  simpl in Hs. destruct (Service.Search req st'.2) as [r x''] eqn:HS. repeat case_match; simplify_eq.
  destruct (Search_items_view req st'.2 resp _ it0 Hinv HS Hit0) as (a & Ha & _).
  destruct (Hw' _ _ Ha) as (now & ty & t & chs & ->).
  exists now, ty, t, chs. split; [exact Ha |]. intros it Hit Hsrc.
  destruct (Search_items_view req st'.2 resp _ it Hinv HS Hit) as (a' & Ha' & c & Hc & Hci & Hcc).
  rewrite Hsrc, Ha in Ha'. injection Ha' as <-. simpl in Hc.
  rewrite map_fmap in Hc. apply list_elem_of_fmap_1 in Hc as (ch & -> & Hch).
  exists ch. split; [exact Hch | split; [exact Hci | exact Hcc]].
Qed.






(** *** Within the chunker's bound *)

Section Bounded.
Hypothesis Hvalid : Chunker.valid ck.
Hypothesis Hprog : Chunker.progress_ok ck = true.




End Bounded.

(** *** Beyond the chunker's bound *)

Section Unbounded.
Hypothesis Hvalid : Chunker.valid ck.
Hypothesis Hprog : Chunker.progress_ok ck = false.




End Unbounded.



(** C21: the type of the stored vectors is kept under every
    interleaving: if every reachable blob and every vector an index
    call holds have the model's dimension, then so do all blobs of
    every reachable state, since the embedder only returns vectors of
    that dimension and [IndexDocument] serializes each one to
    [4 * 1536] bytes. *)
Theorem reachable_typed st st' :
  rtc (step ck read_file fetch_url) st st' ->
  store_inv (sys_store st.2) -> typed (view (sys_store st.2)) -> Forall call_typed st.1 ->
  typed (view (sys_store st'.2)).
Proof using SP EP.
  induction 1 as [st|st1 st2 st3 H12 _ IH]; [auto |]. intros Hi Ht Hc.
  apply IH; [exact (proj1 (step_cases _ _ H12 Hi)) | exact (step_typed _ _ H12 Hi Ht Hc)
            | exact (step_calls_typed _ _ H12 Hc)].
Qed.

End Theorems.

(** ** The race on one source *)

(** C14: the existence check and the write of [Index] are separate
    atomic steps, so two index calls without [reindex] for the same new
    source can both succeed: in the interleaving [race_schedule] (both
    check, then each embeds and stores) neither gets the conflict
    error, and the second silently replaces the first. *)
Theorem Index_race :
  exists st', rtc (step sample_ck no_files no_urls) (race_calls, sample_sys) st' /\
    (exists r1 r2, st'.1 = [IndexDone (Ok r1); IndexDone (Ok r2)]) /\
    option_map (fun d => map (fun c => c.1.1.1.2) (a_chunks d)) (abs (sys_store st'.2) !! "notes.txt")
      = Some [of_ascii "second version"].
Proof.
  exists (run sample_ck no_files no_urls race_schedule (race_calls, sample_sys)).
  split; [apply run_sound |]. split; vm_compute; eauto.
Qed.

(** ** Examples *)

(** The system started on a fresh database. *)
Definition fresh_sys : Sys (sqlite no_faults 7 sample_score) (openai sample_world) := mkSys empty_db st0.

Lemma reachable_inv_witness :
  let st' := run sample_ck no_files no_urls race_schedule (race_calls, fresh_sys) in
  store_inv (sys_store fresh_sys) /\ written (view (sys_store fresh_sys)) /\
  store_inv (sys_store st'.2) /\ written (view (sys_store st'.2)) /\ complete (view (sys_store st'.2)).
Proof.
  assert (Hi : store_inv (sys_store fresh_sys)) by (apply (bool_decide_unpack _); vm_compute; reflexivity).
  assert (Hw : written (view (sys_store fresh_sys))) by apply map_Forall_empty.
  split; [exact Hi |]. split; [exact Hw |].
  apply (reachable_inv sample_ck no_files no_urls (race_calls, fresh_sys)); [apply run_sound | exact Hi | exact Hw].
Defined.

Lemma reachable_typed_witness :
  let st' := run sample_ck no_files no_urls race_schedule (race_calls, sample_sys) in
  store_inv (sys_store sample_sys) /\ typed (view (sys_store sample_sys)) /\ Forall call_typed race_calls /\
  typed (view (sys_store st'.2)).
Proof.
  assert (Ht : typed (view (sys_store sample_sys))).
  { unfold typed. apply (bool_decide_unpack _). vm_compute. reflexivity. }
  assert (Hc : Forall call_typed race_calls) by (repeat constructor).
  split; [exact sample_db_wf |]. split; [exact Ht |]. split; [exact Hc |].
  apply (reachable_typed sample_ck no_files no_urls (race_calls, sample_sys)); [apply run_sound | exact sample_db_wf | exact Ht | exact Hc].
Defined.




(** The race of [Index_race] on a fresh database, with a search still
    in flight after it. *)
Definition search_req : SearchRequest := mkSearchRequest (of_ascii "version") 5 0 "".
Definition search_calls : list call := race_calls ++ [SearchCall search_req].

Lemma reachable_search_witness :
  let st := (search_calls, fresh_sys) in
  let st' := run sample_ck no_files no_urls race_schedule st in
  match step_call sample_ck no_files no_urls (SearchCall search_req) st'.2 with
  | Some (SearchDone (Ok resp), x') =>
      store_inv (sys_store st.2) /\ written (view (sys_store st.2)) /\ st'.1 !! 2%nat = Some (SearchCall search_req) /\
      forall src, (exists it, it ∈ Results resp /\ item_source it = src) ->
      exists now ty t chs, view (sys_store st'.2) !! src = Some (indexed_doc now ty t chs) /\
        forall it, it ∈ Results resp -> item_source it = src ->
          exists ch, ch ∈ chs /\ Store.ChunkIndex ch = item_chunk_index it /\ Store.Content ch = item_content it
  | _ => False
  end.
Proof.
  intros st st'.
  assert (Hi : store_inv (sys_store st.2)) by (apply (bool_decide_unpack _); vm_compute; reflexivity).
  assert (Hw : written (view (sys_store st.2))) by apply map_Forall_empty.
  assert (Hc : st'.1 !! 2%nat = Some (SearchCall search_req)) by (vm_compute; reflexivity).
  destruct (step_call sample_ck no_files no_urls (SearchCall search_req) st'.2) as [[c x']|] eqn:E;
    [| vm_compute in E; discriminate].
  destruct c as [| | | | | | |[resp|e]]; try (vm_compute in E; discriminate).
  split; [exact Hi | split; [exact Hw | split; [exact Hc |]]].
  exact (reachable_search sample_ck no_files no_urls st st' 2 search_req resp x' (run_sound _ _ _ _ _) Hi Hw Hc E).
Defined.

End System.
