(* ===== verification/Server.v ===== *)
(** * Server: tool registration (src/pkg/server/types.go) and bootstrap (src/cmd/doc-search/main.go)

    [NewServer] registers four tools with the MCP SDK.  A [tools/call]
    request names a tool and carries its arguments; the SDK finds the
    tool by name, decodes the arguments into the input struct of its
    handler and returns what the handler returns ([mcp.AddTool]).
    [registerTools] is the table of the four tools and their handlers of
    [Tools], [add_tool] the SDK's wrapping of a handler and [call_tool]
    its lookup by name; the JSON decoding itself is the SDK's and is an
    oracle here ([tool_args] are decoded arguments, and an argument
    struct of the wrong tool is what a failed decoding gives).

    [main] runs main.go up to [mcpServer.Run]: it loads the
    configuration, creates the database directory, opens the database,
    and builds the embeddings client, the chunker, the fetcher
    ([Fetcher.FetchURL], as the service calls it) and the service.  The
    file system, [sql.Open] and the HTTP world are section variables.
    [serve] is the rest of [main]: the calls it defers ([action]) as a
    Go [frame], the [select] on the server's result or a signal
    ([wake], delivered by the schedule), and how the process ends
    ([exit]); [main_process] is the whole function.  [image_env] and
    [image_dir] are what the Dockerfile gives [main]: the default
    [DB_PATH] and its directory.  The stdio transport and the delivery
    of signals are not modelled.

    The theorems compose the parts.  [main_index_hangs]: a server
    [main] starts hangs on some index call exactly when its
    configuration passes [LoadConfig] but not the chunker's bound.
    [index_url_raw_html]: indexing a URL served as [TEXT/HTML] through
    that server stores the chunks of the raw markup.
    [main_process_exit]: the database is closed exactly on the exits
    that return, after the context and the server; a server error
    exits through [os.Exit] with it open. *)

From Stdlib Require Import QArith.
From stdpp Require Import strings gmap.
From S2P Require Import Prelude Text Chunker Config Codec Embeddings Store Fetcher Service Tools.
Open Scope Z_scope.

Module Server.
Import Embeddings Store Service Tools Config.

(** [ListArgs]. *)
Record ListArgs := mkListArgs { la_source_type : string }.

(** [DeleteArgs]. *)
Record DeleteArgs := mkDeleteArgs { da_source : string }.

(** The arguments of a tool call, decoded by the SDK. *)
Inductive tool_args :=
| ArgsSearch (a : SearchArgs)
| ArgsIndex (a : IndexArgs)
| ArgsList (a : ListArgs)
| ArgsDelete (a : DeleteArgs).

(** The structured output a handler returns. *)
Inductive tool_reply :=
| ReplySearch (r : SearchResponse)
| ReplyIndex (r : IndexResponse)
| ReplyList (r : ListResponse)
| ReplyDelete (r : DeleteResponse).

(** The errors of a [tools/call]: the SDK's own, then the handler's. *)
Inductive call_error :=
| ErrUnknownTool (name : string)
| ErrInvalidParams (name : string)
| ErrHandler (e : tool_error).

(** [mcp.Tool]. *)
Record Tool := mkTool { tool_name : string; tool_description : string }.

Definition searchTool : Tool :=
  mkTool "search" "Semantic search through indexed documents using vector similarity".
Definition indexTool : Tool :=
  mkTool "index" "Index a file, URL, or content for semantic search. Provide exactly one of: file_path, url, or (content + source)".
Definition listTool : Tool := mkTool "list" "List all indexed documents with metadata".
Definition deleteTool : Tool := mkTool "delete" "Remove an indexed document from the database".

(** [Server], through the [search.Service] it holds: the chunker and
    the I/O that [NewService] receives.  The database and the
    embeddings client are the shared state [Sys] the calls act on. *)
Record Server := mkServer {
  srv_chunker : Chunker.Chunker;
  srv_read_file : string -> option (list rune);
  srv_fetch_url : string -> option (list rune * string)
}.

Definition as_search (a : tool_args) : option SearchArgs := if a is ArgsSearch s then Some s else None.
Definition as_index (a : tool_args) : option IndexArgs := if a is ArgsIndex s then Some s else None.
Definition as_list (a : tool_args) : option ListArgs := if a is ArgsList s then Some s else None.
Definition as_delete (a : tool_args) : option DeleteArgs := if a is ArgsDelete s then Some s else None.

Section Registration.
Context {S E : Type} `{!DocStore S} `{!Embedder E}.

Definition handler : Type := tool_args -> Sys S E -> result call_error tool_reply * Sys S E.

(** [mcp.AddTool(server, tool, h)]: decode the arguments into [h]'s
    input type, run [h], wrap its output or its error. *)
Definition add_tool {A B} (t : Tool) (decode : tool_args -> option A) (reply : B -> tool_reply)
    (h : A -> Sys S E -> result tool_error B * Sys S E) : handler := fun args x =>
  match decode args with
  | None => (Err (ErrInvalidParams (tool_name t)), x)
  | Some a =>
      match h a x with
      | (Ok b, x') => (Ok (reply b), x')
      | (Err e, x') => (Err (ErrHandler e), x')
      end
  end.

(** [registerTools]. *)
Definition registerTools (srv : Server) : list (Tool * handler) :=
  [(searchTool, add_tool searchTool as_search ReplySearch handleSearch);
   (indexTool, add_tool indexTool as_index ReplyIndex
                 (handleIndex (srv_chunker srv) (srv_read_file srv) (srv_fetch_url srv)));
   (listTool, add_tool listTool as_list ReplyList (fun a x => (handleList (la_source_type a) x, x)));
   (deleteTool, add_tool deleteTool as_delete ReplyDelete (fun a x => handleDelete (da_source a) x))].

(** A [tools/call] request: the tool registered under the name. *)
Definition call_tool (srv : Server) (name : string) (args : tool_args) (x : Sys S E)
    : result call_error tool_reply * Sys S E :=
  match list_find (fun t => tool_name t.1 = name) (registerTools srv) with
  | Some (_, (_, h)) => h args x
  | None => (Err (ErrUnknownTool name), x)
  end.

End Registration.

(** The error [Server.Run] returns. *)
Inductive run_error := ErrRunMCP (sdk : string).  (* "failed to run MCP server: %w" *)

(** [Server.Run]: the SDK's [Run] on the stdio transport, which ends
    with [sdk], and its error wrapped. *)
Definition Run (sdk : option string) : option run_error :=
  match sdk with
  | Some m => Some (ErrRunMCP m)
  | None => None
  end.

(** The [log.Fatalf] exits of [main], by their message. *)
Inductive boot_error :=
| ErrLoadConfig (e : config_error)   (* "Failed to load config: %v" *)
| ErrCreateDir                       (* "Failed to create database directory: %v" *)
| ErrOpenDatabase                    (* "failed to open database: %w" *)
| ErrVecUnavailable                  (* "sqlite-vec not available ...: %w" *)
| ErrMigrations                      (* "failed to run migrations: %w" *)
| ErrServer (e : run_error).         (* "Server error: %v" *)

(** The calls [main] makes on its way out: [db.Close] (deferred at
    line 43), [mcpServer.Close] (deferred at line 65; [Server.Close]
    does nothing) and [cancel] (deferred at line 75, and called on a
    signal). *)
Inductive action := CloseDatabase | CloseServer | CancelContext.

#[export] Instance action_eq_dec : EqDecision action.
Proof. solve_decision. Defined.

(** How the process ends: [main] returns (status 0), or [log.Fatalf]
    prints its message and calls [os.Exit(1)]. *)
Inductive exit := ExitReturn | ExitFatal (e : boot_error).

(** A Go function's frame: its deferred calls, the last deferred
    first, and the calls it has made, in order. *)
Record frame := mkFrame { deferred : list action; calls : list action }.

Definition defer (a : action) (fr : frame) : frame := mkFrame (a :: deferred fr) (calls fr).
Definition call (a : action) (fr : frame) : frame := mkFrame (deferred fr) (calls fr ++ [a]).

(** [return]: the deferred calls run, the last deferred first. *)
Definition go_return (fr : frame) : exit * list action := (ExitReturn, calls fr ++ deferred fr).

(** [log.Fatalf]: [os.Exit] ends the process and runs no deferred
    call. *)
Definition go_fatal (e : boot_error) (fr : frame) : exit * list action := (ExitFatal e, calls fr).

(** What the [select] of [main] receives first: the result of
    [mcpServer.Run] on [errChan] (the SDK's loop on stdio returned,
    with its error), or a signal on [sigChan].  Both channels are
    buffered, so either may be ready; the schedule chooses. *)
Inductive wake := RunReturned (sdk : option string) | SignalReceived (sig : Z).

(** [main] from [server.NewServer] on, in the frame that has deferred
    [db.Close]. *)
Definition serve (w : wake) (fr : frame) : exit * list action :=
  let fr := defer CloseServer fr in
  let fr := defer CancelContext fr in
  match w with
  | RunReturned sdk =>
      match Run sdk with
      | Some err => go_fatal (ErrServer err) fr
      | None => go_return fr
      end
  | SignalReceived _ => go_return (call CancelContext fr)
  end.

Section Main.
(** [filepath.Dir] and [os.MkdirAll]. *)
Variable dir : string -> string.
Variable mkdir_all : string -> bool.
(** [sql.Open] on a path: the tables of the file, [None] on failure;
    then whether [SELECT vec_version()] and [runMigrations] succeed. *)
Variable open_db : string -> option DB.
Variables vec_version_ok migrations_ok : bool.
(** [os.ReadFile], and the URL parser, HTTP client and HTML parser of
    the fetcher. *)
Variable read_file : string -> option (list rune).
Variable parse_scheme : string -> option string.
Variable http_get : string -> option Fetcher.http_response.
Variable parse_html : list rune -> option Fetcher.node.

(** [storage.NewDatabase]. *)
Definition NewDatabase (dbPath : string) : result boot_error DB :=
  match open_db dbPath with
  | None => Err ErrOpenDatabase
  | Some db =>
      if negb vec_version_ok then Err ErrVecUnavailable
      else if negb migrations_ok then Err ErrMigrations
      else Ok db
  end.

(** The fetcher of the service: [s.fetcher.FetchURL] and the two fields
    [Index] reads ([Content], and [Title] as a Go string). *)
Definition fetch_url (u : string) : option (list rune * string) :=
  match Fetcher.FetchURL parse_scheme http_get parse_html u with
  | Ok r => Some (Fetcher.fr_content r, to_string (Fetcher.fr_title r))
  | Err _ => None
  end.

(** [main] up to [mcpServer.Run]: the configuration, the server and the
    database it serves ([embeddings.NewClient] starts with no request:
    [Embeddings.st0]). *)
Definition main (e : env) : result boot_error (Config * Server * DB) :=
  match LoadConfig e with
  | Err err => Err (ErrLoadConfig err)
  | Ok cfg =>
      if negb (mkdir_all (dir (DBPath cfg))) then Err ErrCreateDir
      else
        match NewDatabase (DBPath cfg) with
        | Err err => Err err
        | Ok db => Ok (cfg, mkServer (chunker_of cfg) read_file fetch_url, db)
        end
  end.

(** The whole of [main]: a failure to start is a [log.Fatalf] before
    anything is deferred ([NewDatabase] closes the connection on its
    own failure paths); after a start, [db.Close] is deferred and the
    server runs until the [select] wakes. *)
Definition main_process (e : env) (w : wake) : exit * list action :=
  match main e with
  | Err err => go_fatal err (mkFrame [] [])
  | Ok _ => serve w (defer CloseDatabase (mkFrame [] []))
  end.

End Main.

(** ** The container image (the Dockerfile bundled after tools.go) *)

(** The environment [main] sees in the container:
    [ENV DB_PATH=/data/doc_search.db], unless [docker run -e] sets a
    value ([os.Getenv] does not tell an empty value from an unset
    one). *)
Definition image_env (run : env) : env :=
  fun k => if String.eqb k "DB_PATH" && String.eqb (run k) "" then "/data/doc_search.db"%string else run k.

(** [RUN mkdir -p /data] and [chown -R mcp:mcp /app /data] before
    [USER mcp]: the data directory exists and belongs to the user the
    server runs as, so [os.MkdirAll] succeeds on it. *)
Definition image_dir : string := "/data".

(** ** Theorems *)

Section Dispatch.
Context {S E : Type} `{!DocStore S} `{!Embedder E}.

(** A call of the [index] tool reaches [handleIndex] of the server's
    chunker and I/O. *)
Lemma call_tool_index srv a (x : Sys S E) :
  call_tool srv "index" (ArgsIndex a) x =
    match handleIndex (srv_chunker srv) (srv_read_file srv) (srv_fetch_url srv) a x with
    | (Ok b, x') => (Ok (ReplyIndex b), x')
    | (Err e, x') => (Err (ErrHandler e), x')
    end.
Proof. reflexivity. Qed.

(** An inline-content index call with [reindex] set hangs exactly when
    the chunker does, and then leaves the state as it was. *)
Lemma handleIndex_content_hangs ck rf fu content source (x : Sys S E) :
  content <> [] -> source <> "" ->
  handleIndex ck rf fu (mkIndexArgs "" "" content source true) x = (Err (ErrIndexingFailed ChunkerHangs), x) <->
  Chunker.ChunkText ck content = None.
Proof.
  intros Hc Hs. destruct x as [st em].
  assert (Hn : source_count (index_request (mkIndexArgs "" "" content source true)) = 1%nat).
  { unfold source_count. simpl. repeat case_bool_decide; naive_solver. }
  unfold handleIndex. rewrite Hn. simpl.
  unfold Index, index_begin. rewrite Hn. simpl.
  unfold resolve. simpl. repeat (case_bool_decide; [naive_solver |]).
  unfold index_embed, index_store, wrap_embed, wrap_service.
  split; [| intros ->; reflexivity].
  repeat case_match; simplify_eq; done.
Qed.

End Dispatch.

Section Boot.
Variable dir : string -> string.
Variable mkdir_all : string -> bool.
Variable open_db : string -> option DB.
Variables vec_version_ok migrations_ok : bool.
Variable read_file : string -> option (list rune).
Variable parse_scheme : string -> option string.
Variable http_get : string -> option Fetcher.http_response.
Variable parse_html : list rune -> option Fetcher.node.

(** What a successful start builds: the configuration [LoadConfig]
    accepts, and a server with [NewChunker] of it, the file reader and
    the fetcher. *)
Lemma main_ok e cfg srv db :
  main dir mkdir_all open_db vec_version_ok migrations_ok read_file parse_scheme http_get parse_html e = Ok (cfg, srv, db) ->
  LoadConfig e = Ok cfg /\ srv = mkServer (chunker_of cfg) read_file (fetch_url parse_scheme http_get parse_html).
Proof.
  unfold Server.main. destruct (LoadConfig e) as [c|]; [| discriminate].
  destruct (negb _); [discriminate |]. destruct (NewDatabase _ _ _ _) as [d|]; [| discriminate].
  intros [= -> <- _]. split; reflexivity.
Qed.

(** C34: how the process ends.  It returns, closing the database,
    exactly when it started and the [select] did not receive a server
    error; then the database is closed last, after the context is
    cancelled and the server closed.  On a server error [log.Fatalf]
    exits with the database still open: [os.Exit] skips the deferred
    [db.Close], [mcpServer.Close] and [cancel]. *)
Theorem main_process_exit e w :
  let '(ex, cs) := main_process dir mkdir_all open_db vec_version_ok migrations_ok read_file
                     parse_scheme http_get parse_html e w in
  (ex = ExitReturn <-> CloseDatabase ∈ cs) /\
  (CloseDatabase ∈ cs <->
     is_ok (main dir mkdir_all open_db vec_version_ok migrations_ok read_file parse_scheme http_get parse_html e) = true /\
     forall m, w <> RunReturned (Some m)) /\
  (CloseDatabase ∈ cs -> exists pre, cs = pre ++ [CancelContext; CloseServer; CloseDatabase]).
Proof.
  unfold main_process. destruct (main _ _ _ _ _ _ _ _ _ e) as [[[cfg srv] db]|err]; simpl.
  - destruct w as [[m|]|sig]; simpl.
    + split; [split; [discriminate | set_solver] |]. split; [| set_solver].
      split; [set_solver | intros [_ Hw]; by destruct (Hw m)].
    + split; [split; [intros _; set_solver | reflexivity] |]. split.
      * split; [intros _; split; [reflexivity | discriminate] | intros _; set_solver].
      * intros _. exists []. reflexivity.
    + split; [split; [intros _; set_solver | reflexivity] |]. split.
      * split; [intros _; split; [reflexivity | discriminate] | intros _; set_solver].
      * intros _. exists [CancelContext]. reflexivity.
  - split; [split; [discriminate | set_solver] |]. split; [| set_solver].
    split; [set_solver | intros [H _]; discriminate].
Qed.

(** In the image, a run that passes only the API key gets the
    database under the image's data directory and the default chunker,
    which returns on every text: the configurations that hang the
    chunker need [CHUNK_SIZE] or [OVERLAP] set. *)
Lemma image_defaults run :
  run "OPENAI_API_KEY" <> ""%string -> run "DB_PATH" = ""%string ->
  run "CHUNK_SIZE" = ""%string -> run "OVERLAP" = ""%string ->
  exists cfg, LoadConfig (image_env run) = Ok cfg /\ DBPath cfg = "/data/doc_search.db"%string /\
    (ChunkSize cfg, Overlap cfg) = (1000, 100) /\
    forall text, Chunker.ChunkText (chunker_of cfg) text <> None.
Proof.
  intros Hk Hd Hc Ho.
  set (cfg := mkConfig (run "OPENAI_API_KEY") "/data/doc_search.db" 1000 100).
  assert (Hl : LoadConfig (image_env run) = Ok cfg).
  { unfold LoadConfig, getEnvOrDefault, getEnvAsIntOrDefault, image_env. simpl.
    rewrite Hd, Hc, Ho. simpl. destruct (String.eqb_spec (run "OPENAI_API_KEY") ""); [done |]. reflexivity. }
  exists cfg. split; [exact Hl | split; [reflexivity | split; [reflexivity |]]].
  apply (proj2 (accepted_termination _ cfg Hl)). simpl. lia.
Qed.

Context {S E : Type} `{!DocStore S} `{!Embedder E}.

(** C6: composed over the whole program: a server that [main] starts
    hangs on some call of the [index] tool (inline content with
    [reindex], whatever the state of the store and the client) exactly
    when its configuration, accepted by [LoadConfig], exceeds the
    chunker's bound [OVERLAP <= CHUNK_SIZE - min 100 CHUNK_SIZE]. *)
Theorem main_index_hangs e cfg srv db (x : Sys S E) :
  main dir mkdir_all open_db vec_version_ok migrations_ok read_file parse_scheme http_get parse_html e = Ok (cfg, srv, db) ->
  (exists content, call_tool srv "index" (ArgsIndex (mkIndexArgs "" "" content "notes" true)) x
                     = (Err (ErrHandler (ErrIndexingFailed ChunkerHangs)), x)) <->
  ChunkSize cfg - Z.min 100 (ChunkSize cfg) < Overlap cfg.
Proof.
  intros Hm. destruct (main_ok e cfg srv db Hm) as [Hl Hsrv].
  assert (Hck : srv_chunker srv = chunker_of cfg) by (rewrite Hsrv; reflexivity).
  pose proof (accepted_termination e cfg Hl) as Ht.
  pose proof (accepted_chunker e cfg Hl) as [_ Hv].
  split.
  - intros [content Hc]. rewrite call_tool_index in Hc.
    destruct (decide (content = [])) as [->|Hne].
    + unfold handleIndex in Hc. simpl in Hc. discriminate.
    + destruct (handleIndex _ _ _ _ _) as [r x'] eqn:Hh. destruct r; [discriminate |].
      injection Hc as -> ->. apply handleIndex_content_hangs in Hh; [| exact Hne | discriminate].
      rewrite Hck in Hh. destruct (Z.le_gt_cases (Overlap cfg) (ChunkSize cfg - Z.min 100 (ChunkSize cfg)))
        as [Hle | Hgt]; [| lia]. exfalso. exact (proj2 Ht Hle content Hh).
  - intros Hgt. exists (Chunker.stall_text (chunker_of cfg)).
    assert (Hne : Chunker.stall_text (chunker_of cfg) <> []).
    { unfold Chunker.stall_text. intros H. apply (f_equal length) in H.
      rewrite length_app in H. simpl in H. lia. }
    rewrite call_tool_index, Hck.
    rewrite (proj2 (handleIndex_content_hangs (chunker_of cfg) (srv_read_file srv) (srv_fetch_url srv)
                     (Chunker.stall_text (chunker_of cfg)) "notes" x Hne ltac:(discriminate))).
    + reflexivity.
    + apply Chunker.stall_text_hangs; [exact Hv |].
      rewrite (proj1 (accepted_chunker e cfg Hl)). apply Z.leb_gt. exact Hgt.
Qed.

Context `{SP : !DocStoreSpec S}.

(** C28: end to end through a server [main] started: indexing a URL
    whose page is served as [TEXT/HTML] (accepted as text, but missed by
    the case-sensitive HTML test of [FetchURL]) stores the chunks of the
    raw markup, scripts included, under the URL, or fails and leaves the
    store as it was. *)
Theorem index_url_raw_html e cfg srv db u scheme ct page (x : Sys S E) r x' :
  main dir mkdir_all open_db vec_version_ok migrations_ok read_file parse_scheme http_get parse_html e = Ok (cfg, srv, db) ->
  parse_scheme u = Some scheme -> scheme = "http"%string \/ scheme = "https"%string ->
  http_get u = Some (Fetcher.mkResponse 200 ct (Some page)) ->
  Fetcher.contains "text/" (Fetcher.lower ct) = true -> Fetcher.contains "text/html" ct = false ->
  store_inv (sys_store x) ->
  call_tool srv "index" (ArgsIndex (mkIndexArgs "" u [] "" true)) x = (r, x') ->
  (exists chs vs, Chunker.ChunkText (chunker_of cfg) page = Some chs /\
     view (sys_store x') = <[u := indexed_doc indexed_at "url" "" (to_storage chs vs)]> (view (sys_store x))) \/
  (exists err, r = Err err /\ sys_store x' = sys_store x).
Proof using SP.
  intros Hm Hs Hsch Hg Ht Hh Hinv Hc.
  destruct (main_ok e cfg srv db Hm) as [_ ->].
  assert (Hf : fetch_url parse_scheme http_get parse_html u = Some (page, ""%string)).
  { unfold fetch_url. rewrite (Fetcher.FetchURL_raw_html parse_scheme http_get parse_html u scheme ct page Hs Hsch Hg Ht Hh).
    reflexivity. }
  rewrite call_tool_index in Hc. simpl in Hc. unfold handleIndex in Hc.
  destruct (decide (u = ""%string)) as [->|Hu].
  { simpl in Hc. injection Hc as <- <-. right. eexists. split; reflexivity. }
  assert (Hn : source_count (index_request (mkIndexArgs "" u [] "" true)) = 1%nat)
    by (unfold source_count; simpl; repeat case_bool_decide; naive_solver).
  rewrite Hn in Hc. simpl in Hc.
  destruct (Index _ _ _ _ x) as [r0 x0] eqn:Hix.
  destruct (Index_cases _ _ _ _ _ _ _ Hinv Hix) as [(src & ty & content & title & chs & vs & Hres & Hck & _ & _ & _ & Hv)|(err & -> & Hst)].
  - unfold resolve in Hres. simpl in Hres.
    rewrite bool_decide_eq_true_2 in Hres by exact Hu. rewrite Hf in Hres.
    injection Hres as <- <- <- <-. left. exists chs, vs.
    destruct r0; injection Hc as <- <-; split; [exact Hck | exact Hv | exact Hck | exact Hv].
  - injection Hc as <- <-. right. eexists. split; [reflexivity | exact Hst].
Qed.

End Boot.

(** ** Examples *)

(** A start with CHUNK_SIZE=50 and OVERLAP=10, on a fresh database. *)
Definition sample_main :=
  main (fun p => p) (fun _ => true) (fun _ => Some empty_db) true true no_files
       (fun _ => None) (fun _ => None) (fun _ => None).

Lemma main_process_exit_witness :
  let '(ex, cs) := main_process (fun p => p) (fun _ => true) (fun _ => Some empty_db) true true no_files
                     (fun _ => None) (fun _ => None) (fun _ => None) (sample_env "50" "10") (SignalReceived 15) in
  (ex = ExitReturn <-> CloseDatabase ∈ cs) /\
  (CloseDatabase ∈ cs <-> is_ok (sample_main (sample_env "50" "10")) = true /\
                         forall m, SignalReceived 15 <> RunReturned (Some m)) /\
  (CloseDatabase ∈ cs -> exists pre, cs = pre ++ [CancelContext; CloseServer; CloseDatabase]).
Proof.
  exact (main_process_exit (fun p => p) (fun _ => true) (fun _ => Some empty_db) true true no_files
           (fun _ => None) (fun _ => None) (fun _ => None) (sample_env "50" "10") (SignalReceived 15)).
Defined.

Lemma main_index_hangs_witness :
  let srv := mkServer (chunker_of cfg_50_10) no_files
               (fetch_url (fun _ => None) (fun _ => None) (fun _ => None)) in
  sample_main (sample_env "50" "10") = Ok (cfg_50_10, srv, empty_db) /\
  ((exists content, call_tool srv "index" (ArgsIndex (mkIndexArgs "" "" content "notes" true)) sample_sys
                      = (Err (ErrHandler (ErrIndexingFailed ChunkerHangs)), sample_sys)) <->
   ChunkSize cfg_50_10 - Z.min 100 (ChunkSize cfg_50_10) < Overlap cfg_50_10).
Proof.
  intros srv.
  assert (H : sample_main (sample_env "50" "10") = Ok (cfg_50_10, srv, empty_db)) by reflexivity.
  split; [exact H |].
  exact (main_index_hangs (fun p => p) (fun _ => true) (fun _ => Some empty_db) true true no_files
           (fun _ => None) (fun _ => None) (fun _ => None) _ _ _ _ sample_sys H).
Defined.

(** The same start, with a server that answers every URL with a
    script-bearing page served as [TEXT/HTML]. *)
Definition web_page : list rune := of_ascii "<p>hi</p><script>x()</script>".
Definition web_get : string -> option Fetcher.http_response :=
  fun _ => Some (Fetcher.mkResponse 200 "TEXT/HTML" (Some web_page)).

Lemma index_url_raw_html_witness :
  let srv := mkServer (chunker_of cfg_50_10) no_files
               (fetch_url (fun _ => Some "https"%string) web_get (fun _ => None)) in
  let '(r, x') := call_tool srv "index" (ArgsIndex (mkIndexArgs "" "https://example.com/" [] "" true)) sample_sys in
  (exists chs vs, Chunker.ChunkText (chunker_of cfg_50_10) web_page = Some chs /\
     view (sys_store x') = <[ "https://example.com/" := indexed_doc 7 "url" "" (to_storage chs vs)]>
                             (view (sys_store sample_sys))) \/
  (exists err, r = Err err /\ sys_store x' = sys_store sample_sys).
Proof.
  intros srv. destruct (call_tool srv _ _ sample_sys) as [r x'] eqn:Hc.
  exact (index_url_raw_html (fun p => p) (fun _ => true) (fun _ => Some empty_db) true true no_files
           (fun _ => Some "https"%string) web_get (fun _ => None) (sample_env "50" "10") cfg_50_10 srv empty_db
           "https://example.com/" "https" "TEXT/HTML" web_page sample_sys r x'
           eq_refl eq_refl (or_intror eq_refl) eq_refl eq_refl eq_refl sample_db_wf Hc).
Defined.

End Server.
